(** * FleetLink backend: the availability and booking-conflict engine

    A shallow embedding of the services of the FleetLink backend
    (services/rideCalculationService.js, services/vehicleService.js,
    services/bookingService.js, the two Mongoose models and the validation
    utilities), followed by the properties of its specification and by
    further properties of the services.

    Conventions of the embedding.
    - A JavaScript Number is a rational ([Q]); [None] of type [num] is
      NaN, and the infinities are not represented.  The quantities that
      [createBooking] and the search compute (pincode differences,
      durations 0.5 and 1..23, millisecond timestamps) are integers or
      halves and are exact as doubles.  Where the services divide, add up
      stored durations or multiply by a quotient, the operation is the one
      of the doubles: the exact result rounded to the nearest double
      ([Js.double]).  Two comparisons are made on exact values, which
      rounding does not change: [hoursDiff < 2] in [cancelBooking], a whole
      number of milliseconds divided by 3 600 000, and the minimum 0.1 of
      a duration, since a double is at least the double 0.1 exactly when
      it is at least 1/10.
    - A JavaScript string is the sequence of its UTF-16 code units, and a
      character of a [string] here is one code unit: the strings
      represented are those whose code units are all below 256.
      [String.length] is therefore the [.length] of the string, the
      measure of the schema's [maxlength], and the white space that [trim]
      strips is the white space among the first 256 code points: U+0009 to
      U+000D, U+0020 and U+00A0.
    - A Date is its millisecond timestamp ([Z]); [None] is Invalid Date.
      The time values of a Date lie within [Js.maxTime] (8.64e15 ms) of
      the epoch; the embedding does not enforce the limit, and a property
      that depends on it assumes it.
    - A MongoDB collection is the list of its documents in natural
      (insertion) order.  The clock readings ([new Date()]) and the
      ObjectId generated for a new document are inputs of an operation;
      the validators and the timestamps of one save or update read the
      same clock.
    - An exception is an [Err] result carrying its kind; the prefix that
      every catch block prepends to the message does not change the kind
      and is not represented. *)

From Stdlib Require Import ZArith QArith Qround Qminmax Qabs Qpower.
From Stdlib Require Import List String Ascii Bool Lia.
From Stdlib Require Import DecimalString Permutation Sorted Lqa.
Import ListNotations.
Local Open Scope Z_scope.

(** ** Failures *)

Inductive ErrorKind : Type :=
| InvalidPincode        (* 'Invalid pincode format. Pincodes must be 6 digits.' *)
| InvalidTimeFormat     (* 'Invalid start time format' *)
| InvalidDuration       (* 'Duration must be a positive number' *)
| PastStartTime         (* 'Start time must be in the future' *)
| MissingFields         (* 'All booking fields are required' *)
| MissingCriteria       (* 'All search criteria are required' *)
| VehicleNotFound       (* 'Vehicle not found' *)
| VehicleNotActive      (* 'Vehicle is not available for booking' *)
| SlotUnavailable       (* 'Vehicle is no longer available for the requested time slot' *)
| BookingConflict       (* 'Booking conflict detected' (driver error code 11000) *)
| BookingNotFound       (* 'Booking not found' *)
| AlreadyCompleted      (* 'Cannot cancel completed booking' *)
| AlreadyCancelled      (* 'Booking is already cancelled' *)
| TooCloseToStart       (* 'Cannot cancel booking less than 2 hours before start time' *)
| NotCancelled          (* 'Only cancelled bookings can be deleted' *)
| HasActiveBookings     (* 'Cannot delete vehicle with active bookings' *)
| DuplicateRegistration (* 'Vehicle with this registration number already exists' *)
| DuplicateKey          (* driver error code 11000 on _id *)
| CastError             (* Mongoose could not cast a value (ObjectId, Date) *)
| ValidationError       (* a schema validator rejected the document *)
| EndNotAfterStart.     (* 'End time must be after start time' (pre-save hook) *)

Inductive Result (A : Type) : Type :=
| Ok (a : A)
| Err (e : ErrorKind).
Arguments Ok {A} a.
Arguments Err {A} e.

Definition bind {A B : Type} (r : Result A) (k : A -> Result B) : Result B :=
  match r with
  | Ok a => k a
  | Err e => Err e
  end.

Notation "x <- r ;; k" := (bind r (fun x => k))
  (at level 61, r at next level, right associativity).

(** [throw_if c e] is [if (c) throw e]. *)
Definition throw_if (c : bool) (e : ErrorKind) : Result unit :=
  if c then Err e else Ok tt.

(** ** The fragment of JavaScript the services rely on *)

Module Js.

(** The values a caller can hand to [isValidPincode].  [Int n] is an
    integer-valued Number. *)
Inductive Value : Type :=
| Undefined
| Null
| Boolean (b : bool)
| Int (n : Z)
| Str (s : string).

(** ToString, the coercion [RegExp.prototype.test] and [parseInt] apply
    to their argument.  An integer below 1e21 prints as its decimal
    digits; from 1e21 on JavaScript prints an exponent, which like the
    digits printed here is longer than six characters. *)
Definition ToString (v : Value) : string :=
  match v with
  | Undefined => "undefined"
  | Null => "null"
  | Boolean true => "true"
  | Boolean false => "false"
  | Int n => NilZero.string_of_int (Z.to_int n)
  | Str s => s
  end.

(** The class \d without the unicode flag: ASCII 0-9. *)
Definition isDigit (c : ascii) : bool :=
  let n := nat_of_ascii c in
  (Nat.leb 48 n) && (Nat.leb n 57).

Definition digitValue (c : ascii) : Z :=
  Z.of_nat (nat_of_ascii c) - 48.

(** \d{n}$ : exactly [n] digits, then the end of the input. *)
Fixpoint digitsThenEnd (n : nat) (s : string) : bool :=
  match n, s with
  | O, EmptyString => true
  | S n', String c s' => isDigit c && digitsThenEnd n' s'
  | _, _ => false
  end.

(** /^\d{6}$/.test(v) *)
Definition pincodeRegex_test (v : Value) : bool :=
  digitsThenEnd 6 (ToString v).

(** A Number that may be NaN. *)
Definition num : Type := option Q.

(** parseInt on its decimal path: the longest prefix of decimal digits,
    NaN when the first character is not a digit.  The services call it
    only on strings that matched /^\d{6}$/, where the sign, white-space
    and 0x branches of parseInt cannot be taken. *)
Fixpoint parseDigits (acc : Z) (s : string) : Z :=
  match s with
  | String c s' => if isDigit c then parseDigits (10 * acc + digitValue c) s' else acc
  | EmptyString => acc
  end.

Definition parseInt (s : string) : option Z :=
  match s with
  | String c _ => if isDigit c then Some (parseDigits 0 s) else None
  | EmptyString => None
  end.

(** Math.max of two Numbers; NaN is contagious. *)
Definition Math_max (a b : num) : num :=
  match a, b with
  | Some x, Some y => Some (if Qle_bool x y then y else x)
  | _, _ => None
  end.

(** Math.round: the nearest integer, halves towards +infinity. *)
Definition Math_round (x : Q) : Z := Qfloor (x + (1 # 2)).

(** *** Doubles

    2^z *)
Definition pow2 (z : Z) : Q := (2 ^ z)%Q.

(** The integer nearest to [q]; of two that are equally near, the even
    one. *)
Definition roundHalfEven (q : Q) : Z :=
  let f := Qfloor q in
  match (q - inject_Z f ?= 1 # 2)%Q with
  | Lt => f
  | Gt => f + 1
  | Eq => if Z.even f then f else f + 1
  end.

(** The integer part of the binary logarithm of a positive rational. *)
Definition exponent (x : Q) : Z :=
  let e0 := Z.log2 (Qnum x) - Z.log2 (Zpos (Qden x)) in
  if Qle_bool (pow2 e0) x then e0 else e0 - 1.

(** The double nearest to [x] (IEEE 754 binary64, round to nearest, ties
    to even): 53 significant bits, so doubles are 2^(e-52) apart between
    2^e and 2^(e+1), and 2^-1074 apart below 2^-1022.  A result of
    magnitude 2^1024 or more, which is an infinity, is not represented. *)
Definition double (x : Q) : Q :=
  if Qeq_bool x 0 then 0%Q
  else
    let a := Qabs x in
    let ulp := pow2 (Z.max (exponent a) (-1022) - 52) in
    let m := (inject_Z (roundHalfEven (a / ulp)) * ulp)%Q in
    if Qle_bool 0 x then m else (- m)%Q.

(** The unit roundoff, 2^-53: the relative error of one rounding in the
    normal range is at most this. *)
Definition roundoff : Q := pow2 (-53).

(** The distance between neighbouring doubles around a positive [x]. *)
Definition ulp (x : Q) : Q := pow2 (Z.max (exponent x) (-1022) - 52).

(** [a + b], [a - b], [a * b] and [a / b] on doubles ([b] not zero). *)
Definition add (a b : Q) : Q := double (a + b).
Definition sub (a b : Q) : Q := double (a - b).
Definition mul (a b : Q) : Q := double (a * b).
Definition div (a b : Q) : Q := double (a / b).

(** The time values of a Date lie within 8.64e15 ms of the epoch. *)
Definition maxTime : Z := 8640000000000000.

(** Truncation towards zero, as the Date constructor applies it. *)
Definition trunc (x : Q) : Z :=
  if Qle_bool 0 x then Qfloor x else Qceiling x.

(** The white space and line terminators that String.prototype.trim
    strips, among the code units below 256: TAB, LF, VT, FF, CR, SPACE and
    the no-break space U+00A0. *)
Definition isSpace (c : ascii) : bool :=
  let n := nat_of_ascii c in
  (Nat.eqb n 32) || ((Nat.leb 9 n) && (Nat.leb n 13)) || (Nat.eqb n 160).

Fixpoint trimStart (s : string) : string :=
  match s with
  | String c s' => if isSpace c then trimStart s' else s
  | EmptyString => EmptyString
  end.

Fixpoint trimEnd (s : string) : string :=
  match s with
  | String c s' =>
      match trimEnd s' with
      | EmptyString => if isSpace c then EmptyString else String c EmptyString
      | t => String c t
      end
  | EmptyString => EmptyString
  end.

Definition trim (s : string) : string := trimEnd (trimStart s).

(** Truthiness of a string: the empty string is falsy. *)
Definition truthyStr (s : string) : bool :=
  match s with
  | EmptyString => false
  | _ => true
  end.

(** What a caller passes where a time is expected, seen through
    [new Date(x)]: nothing (undefined, null, the empty string: all
    falsy), something that does not parse (Invalid Date), or a Date or
    date string denoting the instant [ms]. *)
Inductive TimeArg : Type :=
| NoTime
| BadTime
| TimeAt (ms : Z).

Definition truthyTime (t : TimeArg) : bool :=
  match t with
  | NoTime => false
  | _ => true
  end.

Definition Date : Type := option Z.

Definition new_Date (t : TimeArg) : Date :=
  match t with
  | TimeAt ms => Some ms
  | _ => None
  end.

(** [typeof v === 'string'] *)
Definition isString (v : Value) : bool :=
  match v with
  | Str _ => true
  | _ => false
  end.

End Js.

(** ** services/rideCalculationService.js *)

Module RideCalculationService.
Import Js.

Definition isValidPincode (pincode : Value) : bool :=
  pincodeRegex_test pincode.

Definition calculateEstimatedDuration (fromPincode toPincode : Value) : Result num :=
  _ <- throw_if (negb (isValidPincode fromPincode) || negb (isValidPincode toPincode))
         InvalidPincode ;;
  let fromPin := parseInt (ToString fromPincode) in
  let toPin := parseInt (ToString toPincode) in
  let duration :=
    match toPin, fromPin with
    | Some t, Some f => Some (inject_Z (Z.rem (Z.abs (t - f)) 24))
    | _, _ => None
    end in
  Ok (Math_max duration (Some (1 # 2)%Q)).

Definition msPerHour : Q := 60 * 60 * 1000.

(** [!durationHours || durationHours <= 0] *)
Definition notPositive (durationHours : num) : bool :=
  match durationHours with
  | None => true
  | Some d => Qle_bool d 0
  end.

(** The end time is computed exactly here.  It is the time the doubles
    give whenever the duration is a whole number of half hours and start
    and end are time values of a Date; for other durations the products
    are rounded in the code and the result can be a millisecond earlier,
    and an end beyond the range of Date is an Invalid Date there. *)
Definition calculateEndTime (startTime : Date) (durationHours : num) : Result Z :=
  match startTime with
  | None => Err InvalidTimeFormat
  | Some start =>
      _ <- throw_if (notPositive durationHours) InvalidDuration ;;
      match durationHours with
      | Some d => Ok (trunc (inject_Z start + d * msPerHour))
      | None => Err InvalidDuration
      end
  end.

(** The distance is NaN ([None]) when the duration is. *)
Definition calculateEstimatedDistance (fromPincode toPincode : Value)
  : Result (option Z) :=
  duration <- calculateEstimatedDuration fromPincode toPincode ;;
  let averageSpeed := 50%Q in
  Ok (option_map (fun d => Math_round (d * averageSpeed)) duration).

Record RouteInfo : Type := mkRouteInfo {
  ri_fromPincode : Value;
  ri_toPincode : Value;
  estimatedDurationHours : num;
  estimatedDistanceKm : option Z;
  estimatedCost : option Z;
  route : string
}.

(** The cost is computed in doubles, operation by operation.  (The arrow
    of [route] is U+2192, beyond the code units that a [string] holds
    here: the literal holds its UTF-8 bytes, and no property reads the
    field.) *)
Definition getRouteInfo (fromPincode toPincode : Value) (capacityKg : Q) : Result RouteInfo :=
  duration <- calculateEstimatedDuration fromPincode toPincode ;;
  distance <- calculateEstimatedDistance fromPincode toPincode ;;
  let baseRate := 500%Q in
  let perKmRate := 10%Q in
  let capacityMultiplier := Qmax 1 (div capacityKg 1000) in
  let estimatedCost :=
    option_map
      (fun km =>
         Math_round (add baseRate (mul (mul (inject_Z km) perKmRate) capacityMultiplier)))
      distance in
  Ok {| ri_fromPincode := fromPincode;
        ri_toPincode := toPincode;
        estimatedDurationHours := duration;
        estimatedDistanceKm := distance;
        estimatedCost := estimatedCost;
        route := ToString fromPincode ++ " → " ++ ToString toPincode |}.

End RideCalculationService.


(** ** models/Vehicle.js and models/Booking.js *)

(** An ObjectId is opaque; only equality on it is used. *)
Definition ObjectId : Type := N.

(** What a caller passes where an id is expected: nothing (falsy), a
    string Mongoose cannot cast to an ObjectId, or an id. *)
Inductive IdArg : Type :=
| NoId
| BadId
| IdOf (oid : ObjectId).

Definition truthyId (i : IdArg) : bool :=
  match i with
  | NoId => false
  | _ => true
  end.

Module Vehicle.

Inductive Status : Type := active | maintenance | retired.

Definition status_eqb (a b : Status) : bool :=
  match a, b with
  | active, active | maintenance, maintenance | retired, retired => true
  | _, _ => false
  end.

Record t : Type := mk {
  _id : ObjectId;
  name : string;
  capacityKg : Q;
  tyres : Q;
  status : Status;
  registrationNumber : string;
  createdAt : Z;
  updatedAt : Z
}.

(** The virtual [type]. *)
Definition type (this : t) : string :=
  if Qle_bool (capacityKg this) 1000 then "Light Vehicle"
  else if Qle_bool (capacityKg this) 5000 then "Medium Vehicle"
  else "Heavy Vehicle".

(** The schema validators run by [save].  [maxlength] compares the
    [.length] of the string, its number of code units. *)
Definition validate (this : t) : bool :=
  Js.truthyStr (name this)
  && Nat.leb (String.length (name this)) 100
  && Qle_bool 1 (capacityKg this) && Qle_bool (capacityKg this) 50000
  && Qle_bool 2 (tyres this) && Qle_bool (tyres this) 18.

Definition set_status (s : Status) (now : Z) (this : t) : t :=
  {| _id := _id this; name := name this; capacityKg := capacityKg this;
     tyres := tyres this; status := s;
     registrationNumber := registrationNumber this;
     createdAt := createdAt this; updatedAt := now |}.

(** The pre-save hook: FL-<Date.now()>-<Math.floor(Math.random() * 1000)>
    when no registration number was given; [random] is that last integer. *)
Definition preSave (now random : Z) (this : t) : t :=
  if Js.truthyStr (registrationNumber this) then this
  else
    {| _id := _id this; name := name this; capacityKg := capacityKg this;
       tyres := tyres this; status := status this;
       registrationNumber :=
         "FL-" ++ Js.ToString (Js.Int now) ++ "-" ++ Js.ToString (Js.Int random);
       createdAt := createdAt this; updatedAt := updatedAt this |}.

(** timestamps: true, on insert. *)
Definition stamp (now : Z) (this : t) : t :=
  {| _id := _id this; name := name this; capacityKg := capacityKg this;
     tyres := tyres this; status := status this;
     registrationNumber := registrationNumber this;
     createdAt := now; updatedAt := now |}.

End Vehicle.

Module Booking.

Inductive Status : Type := confirmed | in_progress | completed | cancelled.

Definition status_eqb (a b : Status) : bool :=
  match a, b with
  | confirmed, confirmed | in_progress, in_progress
  | completed, completed | cancelled, cancelled => true
  | _, _ => false
  end.

Record t : Type := mk {
  _id : ObjectId;
  vehicleId : ObjectId;
  customerId : string;
  fromPincode : string;
  toPincode : string;
  startTime : Z;
  endTime : Z;
  estimatedRideDurationHours : Q;
  status : Status;
  actualStartTime : option Z;
  actualEndTime : option Z;
  notes : option string;
  createdAt : Z;
  updatedAt : Z
}.

(** maxlength: 500, on the [.length] of the string (its number of code
    units). *)
Definition notesFit (n : option string) : bool :=
  match n with
  | Some s => Nat.leb (String.length s) 500
  | None => true
  end.

(** The schema validators run by [save] at the instant [now]. *)
Definition validate (now : Z) (this : t) : bool :=
  Js.truthyStr (customerId this)
  && Js.pincodeRegex_test (Js.Str (fromPincode this))
  && Js.pincodeRegex_test (Js.Str (toPincode this))
  && (now <? startTime this)
  && Qle_bool (1 # 10) (estimatedRideDurationHours this)
  && notesFit (notes this).

(** The pre-save hook: [this.endTime <= this.startTime] is an error. *)
Definition preSave (this : t) : bool :=
  negb (endTime this <=? startTime this).

(** timestamps: true, on insert. *)
Definition stamp (now : Z) (this : t) : t :=
  {| _id := _id this; vehicleId := vehicleId this; customerId := customerId this;
     fromPincode := fromPincode this; toPincode := toPincode this;
     startTime := startTime this; endTime := endTime this;
     estimatedRideDurationHours := estimatedRideDurationHours this;
     status := status this;
     actualStartTime := actualStartTime this; actualEndTime := actualEndTime this;
     notes := notes this; createdAt := now; updatedAt := now |}.

(** The update document of [findByIdAndUpdate]: [status], and one key for
    each other path of the schema, [None] when the key is absent.  A value
    is of the type of its path. *)
Record Update : Type := mkUpdate {
  u_status : Status;
  u_vehicleId : option ObjectId;
  u_customerId : option string;
  u_fromPincode : option string;
  u_toPincode : option string;
  u_startTime : option Z;
  u_endTime : option Z;
  u_estimatedRideDurationHours : option Q;
  u_notes : option string;
  u_actualStartTime : option Z;
  u_actualEndTime : option Z
}.

(** [updateData.actualStartTime = t] and [updateData.actualEndTime = t]. *)
Definition with_actualStartTime (t : Z) (u : Update) : Update :=
  {| u_status := u_status u; u_vehicleId := u_vehicleId u;
     u_customerId := u_customerId u; u_fromPincode := u_fromPincode u;
     u_toPincode := u_toPincode u; u_startTime := u_startTime u;
     u_endTime := u_endTime u;
     u_estimatedRideDurationHours := u_estimatedRideDurationHours u;
     u_notes := u_notes u;
     u_actualStartTime := Some t;
     u_actualEndTime := u_actualEndTime u |}.

Definition with_actualEndTime (t : Z) (u : Update) : Update :=
  {| u_status := u_status u; u_vehicleId := u_vehicleId u;
     u_customerId := u_customerId u; u_fromPincode := u_fromPincode u;
     u_toPincode := u_toPincode u; u_startTime := u_startTime u;
     u_endTime := u_endTime u;
     u_estimatedRideDurationHours := u_estimatedRideDurationHours u;
     u_notes := u_notes u;
     u_actualStartTime := u_actualStartTime u;
     u_actualEndTime := Some t |}.

Definition orElse {A : Type} (new old : option A) : option A :=
  match new with
  | Some _ => new
  | None => old
  end.

(** The value of a key of the update, else the stored value. *)
Definition orKeep {A : Type} (new : option A) (old : A) : A :=
  match new with
  | Some x => x
  | None => old
  end.

(** A validator runs on the keys that are present only. *)
Definition whenSet {A : Type} (valid : A -> bool) (value : option A) : bool :=
  match value with
  | Some x => valid x
  | None => true
  end.

(** runValidators: true.  The validators of the paths that the update
    sets, at the instant [now], on the values the setters have trimmed. *)
Definition validateUpdate (now : Z) (u : Update) : bool :=
  whenSet (fun c => Js.truthyStr (Js.trim c)) (u_customerId u)
  && whenSet (fun p => Js.pincodeRegex_test (Js.Str (Js.trim p))) (u_fromPincode u)
  && whenSet (fun p => Js.pincodeRegex_test (Js.Str (Js.trim p))) (u_toPincode u)
  && whenSet (fun t => now <? t) (u_startTime u)
  && whenSet (Qle_bool (1 # 10)) (u_estimatedRideDurationHours u)
  && notesFit (u_notes u).

(** $set of the keys present in the update, the strings trimmed by their
    setters; timestamps: true refreshes updatedAt. *)
Definition applyUpdate (now : Z) (u : Update) (this : t) : t :=
  {| _id := _id this;
     vehicleId := orKeep (u_vehicleId u) (vehicleId this);
     customerId := orKeep (option_map Js.trim (u_customerId u)) (customerId this);
     fromPincode := orKeep (option_map Js.trim (u_fromPincode u)) (fromPincode this);
     toPincode := orKeep (option_map Js.trim (u_toPincode u)) (toPincode this);
     startTime := orKeep (u_startTime u) (startTime this);
     endTime := orKeep (u_endTime u) (endTime this);
     estimatedRideDurationHours :=
       orKeep (u_estimatedRideDurationHours u) (estimatedRideDurationHours this);
     status := u_status u;
     actualStartTime := orElse (u_actualStartTime u) (actualStartTime this);
     actualEndTime := orElse (u_actualEndTime u) (actualEndTime this);
     notes := orElse (u_notes u) (notes this);
     createdAt := createdAt this; updatedAt := now |}.

(** status: { $in: ['confirmed', 'in-progress'] } *)
Definition isActive (s : Status) : bool :=
  match s with
  | confirmed | in_progress => true
  | _ => false
  end.

(** [_id: { $ne: excludeBookingId }], added to the query only when
    [excludeBookingId] is given (an ObjectId is truthy). *)
Definition notExcluded (excludeBookingId : option ObjectId) (b : t) : bool :=
  match excludeBookingId with
  | Some x => negb (N.eqb (_id b) x)
  | None => true
  end.

(** The query document built by the static [findOverlappingBookings]. *)
Definition overlapQuery (vehicleId' : ObjectId) (startTime' endTime' : Z)
           (excludeBookingId : option ObjectId) (b : t) : bool :=
  N.eqb (vehicleId b) vehicleId'
  && isActive (status b)
  && ((startTime b <? endTime') && (startTime' <? endTime b))
  && notExcluded excludeBookingId b.

(** [this.find(query)] over the collection [docs]. *)
Definition findOverlappingBookings (docs : list t) (vehicleId' : ObjectId)
           (startTime' endTime' : Z) (excludeBookingId : option ObjectId) : list t :=
  filter (overlapQuery vehicleId' startTime' endTime' excludeBookingId) docs.

(** The virtual [actualDurationHours]: null unless both actual times are
    set (a Date is truthy). *)
Definition actualDurationHours (this : t) : option Q :=
  match actualStartTime this, actualEndTime this with
  | Some s, Some e => Some (Js.div (Js.sub (inject_Z e) (inject_Z s)) (1000 * 60 * 60))
  | _, _ => None
  end.

(** The status a string names, if any. *)
Definition statusOfString (s : string) : option Status :=
  if String.eqb s "confirmed" then Some confirmed
  else if String.eqb s "in-progress" then Some in_progress
  else if String.eqb s "completed" then Some completed
  else if String.eqb s "cancelled" then Some cancelled
  else None.

(** [status: s] in a query: a string that names no status matches no
    document. *)
Definition statusIs (s : string) (b : t) : bool :=
  match statusOfString s with
  | Some x => status_eqb (status b) x
  | None => false
  end.

End Booking.

(** ** The store and the operations on it *)

Record Store : Type := mkStore {
  vehicles : list Vehicle.t;
  bookings : list Booking.t
}.

(** An operation reads and writes the store and may throw.  A throw keeps
    whatever was written before it: nothing is rolled back. *)
Definition M (A : Type) : Type := Store -> Result A * Store.

Definition ret {A : Type} (a : A) : M A := fun st => (Ok a, st).

Definition throw {A : Type} (e : ErrorKind) : M A := fun st => (Err e, st).

Definition bindM {A B : Type} (m : M A) (k : A -> M B) : M B :=
  fun st =>
    match m st with
    | (Ok a, st') => k a st'
    | (Err e, st') => (Err e, st')
    end.

Notation "x <~ m ;; k" := (bindM m (fun x => k))
  (at level 61, m at next level, right associativity).

Definition lift {A : Type} (r : Result A) : M A := fun st => (r, st).

Definition failIf (c : bool) (e : ErrorKind) : M unit := lift (throw_if c e).

(** [error.code === 11000] *)
Definition code11000 (e : ErrorKind) : bool :=
  match e with
  | DuplicateKey => true
  | _ => false
  end.

(** [try { m } catch (error) { if (error.code === 11000) throw e' ; throw error }] *)
Definition on11000 {A : Type} (e' : ErrorKind) (m : M A) : M A :=
  fun st =>
    match m st with
    | (Ok a, st') => (Ok a, st')
    | (Err e, st') => (Err (if code11000 e then e' else e), st')
    end.

(** The Mongoose calls the services make, as operations on the store. *)

Module Db.

Definition findVehicle (id : ObjectId) (vs : list Vehicle.t) : option Vehicle.t :=
  find (fun v => N.eqb (Vehicle._id v) id) vs.

Definition findBooking (id : ObjectId) (bs : list Booking.t) : option Booking.t :=
  find (fun b => N.eqb (Booking._id b) id) bs.

(** Vehicle.findById *)
Definition Vehicle_findById (id : IdArg) : M (option Vehicle.t) :=
  fun st =>
    match id with
    | IdOf oid => (Ok (findVehicle oid (vehicles st)), st)
    | _ => (Err CastError, st)
    end.

(** Booking.findById *)
Definition Booking_findById (id : ObjectId) : M (option Booking.t) :=
  fun st => (Ok (findBooking id (bookings st)), st).

(** Booking.find(query) *)
Definition Booking_find (query : Booking.t -> bool) : M (list Booking.t) :=
  fun st => (Ok (filter query (bookings st)), st).

(** Vehicle.find(query) *)
Definition Vehicle_find (query : Vehicle.t -> bool) : M (list Vehicle.t) :=
  fun st => (Ok (filter query (vehicles st)), st).

Definition Booking_findOverlappingBookings (vehicleId : ObjectId)
           (startTime endTime : Z) (excludeBookingId : option ObjectId)
  : M (list Booking.t) :=
  fun st =>
    (Ok (Booking.findOverlappingBookings (bookings st) vehicleId startTime endTime
           excludeBookingId), st).

(** [booking.save()] of a new document at the instant [now]: schema
    validation, the pre-save hook, then the insert, which the unique
    index on _id can refuse.  The timestamps option stamps the document. *)
Definition Booking_save (now : Z) (doc : Booking.t) : M Booking.t :=
  fun st =>
    if negb (Booking.validate now doc) then (Err ValidationError, st)
    else if negb (Booking.preSave doc) then (Err EndNotAfterStart, st)
    else match findBooking (Booking._id doc) (bookings st) with
         | Some _ => (Err DuplicateKey, st)
         | None =>
             let saved := Booking.stamp now doc in
             (Ok saved, {| vehicles := vehicles st;
                           bookings := bookings st ++ [saved] |})
         end.

(** [vehicle.save()] of a new document: schema validation, the pre-save
    hook that fills in a registration number, then the insert, which the
    unique indexes on _id and registrationNumber can refuse. *)
Definition Vehicle_save (now random : Z) (doc : Vehicle.t) : M Vehicle.t :=
  fun st =>
    if negb (Vehicle.validate doc) then (Err ValidationError, st)
    else
      let saved := Vehicle.stamp now (Vehicle.preSave now random doc) in
      if existsb (fun v => N.eqb (Vehicle._id v) (Vehicle._id saved)
                           || String.eqb (Vehicle.registrationNumber v)
                                         (Vehicle.registrationNumber saved))
                 (vehicles st)
      then (Err DuplicateKey, st)
      else (Ok saved, {| vehicles := vehicles st ++ [saved];
                         bookings := bookings st |}).

Fixpoint updateFirst {A : Type} (p : A -> bool) (f : A -> A) (l : list A) : list A :=
  match l with
  | [] => []
  | x :: l' => if p x then f x :: l' else x :: updateFirst p f l'
  end.

(** Vehicle.findByIdAndUpdate(id, update, { new: true }) *)
Definition Vehicle_findByIdAndUpdate (id : ObjectId) (update : Vehicle.t -> Vehicle.t)
  : M (option Vehicle.t) :=
  fun st =>
    match findVehicle id (vehicles st) with
    | Some v =>
        (Ok (Some (update v)),
         {| vehicles := updateFirst (fun v => N.eqb (Vehicle._id v) id) update (vehicles st);
            bookings := bookings st |})
    | None => (Ok None, st)
    end.

(** Booking.findByIdAndUpdate(id, update, { new: true }) *)
Definition Booking_findByIdAndUpdate (id : ObjectId) (update : Booking.t -> Booking.t)
  : M (option Booking.t) :=
  fun st =>
    match findBooking id (bookings st) with
    | Some b =>
        (Ok (Some (update b)),
         {| vehicles := vehicles st;
            bookings := updateFirst (fun b => N.eqb (Booking._id b) id) update (bookings st) |})
    | None => (Ok None, st)
    end.

Fixpoint removeFirst {A : Type} (p : A -> bool) (l : list A) : list A :=
  match l with
  | [] => []
  | x :: l' => if p x then l' else x :: removeFirst p l'
  end.

(** Booking.findByIdAndDelete(id) *)
Definition Booking_findByIdAndDelete (id : ObjectId) : M unit :=
  fun st =>
    (Ok tt, {| vehicles := vehicles st;
               bookings := removeFirst (fun b => N.eqb (Booking._id b) id) (bookings st) |}).

(** [booking.populate('vehicleId')]: the referenced vehicle, if any. *)
Definition populate (b : Booking.t) : M (Booking.t * option Vehicle.t) :=
  fun st => (Ok (b, findVehicle (Booking.vehicleId b) (vehicles st)), st).

End Db.

(** ** services/vehicleService.js *)

Module VehicleService.
Import Js RideCalculationService.

(** The data of a new vehicle: a name, a capacity and a number of tyres,
    and, when the caller gives them, a status of the enumeration and a
    registration number; [None] is an absent key. *)
Record VehicleData : Type := mkVehicleData {
  vd_name : string;
  vd_capacityKg : Q;
  vd_tyres : Q;
  vd_status : option Vehicle.Status;
  vd_registrationNumber : option string
}.

(** [new Vehicle(vehicleData)]: the setters trim, the status is the one
    given and defaults to 'active'. *)
Definition new_Vehicle (newId : ObjectId) (d : VehicleData) : Vehicle.t :=
  {| Vehicle._id := newId;
     Vehicle.name := trim (vd_name d);
     Vehicle.capacityKg := vd_capacityKg d;
     Vehicle.tyres := vd_tyres d;
     Vehicle.status :=
       match vd_status d with
       | Some status => status
       | None => Vehicle.active
       end;
     Vehicle.registrationNumber :=
       match vd_registrationNumber d with
       | Some r => trim r
       | None => EmptyString
       end;
     Vehicle.createdAt := 0;
     Vehicle.updatedAt := 0 |}.

Definition createVehicle (now random : Z) (newId : ObjectId) (vehicleData : VehicleData)
  : M Vehicle.t :=
  on11000 DuplicateRegistration
    (let vehicle := new_Vehicle newId vehicleData in
     Db.Vehicle_save now random vehicle).

Definition getVehicleById (vehicleId : ObjectId) : M Vehicle.t :=
  vehicle <~ Db.Vehicle_findById (IdOf vehicleId) ;;
  match vehicle with
  | None => throw VehicleNotFound
  | Some vehicle => ret vehicle
  end.

Record Criteria : Type := mkCriteria {
  capacityRequired : num;
  c_fromPincode : string;
  c_toPincode : string;
  c_startTime : TimeArg
}.

(** Truthiness of a Number: NaN and 0 are falsy. *)
Definition truthyNum (n : num) : bool :=
  match n with
  | Some q => negb (Qeq_bool q 0)
  | None => false
  end.

Record SearchCriteria : Type := mkSearchCriteria {
  sc_fromPincode : string;
  sc_toPincode : string;
  requestedStartTime : Z;
  requestedEndTime : Z
}.

(** An element of the result: the vehicle's own fields with its virtual
    [type], and the three attached fields. *)
Record AvailableVehicle : Type := mkAvailable {
  av_vehicle : Vehicle.t;
  av_type : string;
  av_estimatedRideDurationHours : num;
  av_routeInfo : RouteInfo;
  av_searchCriteria : SearchCriteria
}.

(** { capacityKg: { $gte: capacityRequired }, status: 'active' } *)
Definition eligibleQuery (capacityRequired : Q) (v : Vehicle.t) : bool :=
  Qle_bool capacityRequired (Vehicle.capacityKg v)
  && Vehicle.status_eqb (Vehicle.status v) Vehicle.active.

(** The loop [for (const vehicle of eligibleVehicles)].  Besides
    [availableVehicles] it carries [queried], the vehicles for which the
    overlap query has been issued so far. *)
Fixpoint forEachEligible (fromPincode toPincode : string)
         (estimatedRideDurationHours : num) (requestedStartTime requestedEndTime : Z)
         (eligibleVehicles : list Vehicle.t)
         (availableVehicles : list AvailableVehicle) (queried : list ObjectId)
  : M (list AvailableVehicle * list ObjectId) :=
  match eligibleVehicles with
  | [] => ret (availableVehicles, queried)
  | vehicle :: rest =>
      overlappingBookings <~
        Db.Booking_findOverlappingBookings (Vehicle._id vehicle)
          requestedStartTime requestedEndTime None ;;
      let queried := queried ++ [Vehicle._id vehicle] in
      if Nat.eqb (List.length overlappingBookings) 0 then
        routeInfo <~ lift (getRouteInfo (Str fromPincode) (Str toPincode)
                             (Vehicle.capacityKg vehicle)) ;;
        forEachEligible fromPincode toPincode estimatedRideDurationHours
          requestedStartTime requestedEndTime rest
          (availableVehicles ++
             [ {| av_vehicle := vehicle;
                  av_type := Vehicle.type vehicle;
                  av_estimatedRideDurationHours := estimatedRideDurationHours;
                  av_routeInfo := routeInfo;
                  av_searchCriteria :=
                    {| sc_fromPincode := fromPincode;
                       sc_toPincode := toPincode;
                       requestedStartTime := requestedStartTime;
                       requestedEndTime := requestedEndTime |} |} ])
          queried
      else
        forEachEligible fromPincode toPincode estimatedRideDurationHours
          requestedStartTime requestedEndTime rest availableVehicles queried
  end.

(** The result is paired with the list of vehicles on which the overlap
    query was run, in the order of the queries. *)
Definition findAvailableVehicles (now : Z) (criteria : Criteria)
  : M (list AvailableVehicle * list ObjectId) :=
  let fromPincode := c_fromPincode criteria in
  let toPincode := c_toPincode criteria in
  let startTime := c_startTime criteria in
  _ <~ failIf (negb (truthyNum (capacityRequired criteria)) || negb (truthyStr fromPincode)
               || negb (truthyStr toPincode) || negb (truthyTime startTime))
         MissingCriteria ;;
  _ <~ failIf (negb (isValidPincode (Str fromPincode))
               || negb (isValidPincode (Str toPincode)))
         InvalidPincode ;;
  match new_Date startTime with
  | None => throw InvalidTimeFormat
  | Some requestedStartTime =>
      _ <~ failIf (requestedStartTime <=? now) PastStartTime ;;
      estimatedRideDurationHours <~
        lift (calculateEstimatedDuration (Str fromPincode) (Str toPincode)) ;;
      requestedEndTime <~
        lift (calculateEndTime (Some requestedStartTime) estimatedRideDurationHours) ;;
      match capacityRequired criteria with
      | None => throw MissingCriteria
      | Some capacity =>
          eligibleVehicles <~ Db.Vehicle_find (eligibleQuery capacity) ;;
          if Nat.eqb (List.length eligibleVehicles) 0 then ret ([], [])
          else
            forEachEligible fromPincode toPincode estimatedRideDurationHours
              requestedStartTime requestedEndTime eligibleVehicles [] []
      end
  end.

Definition updateVehicleStatus (now : Z) (vehicleId : ObjectId) (status : Vehicle.Status)
  : M Vehicle.t :=
  vehicle <~ Db.Vehicle_findByIdAndUpdate vehicleId (Vehicle.set_status status now) ;;
  match vehicle with
  | None => throw VehicleNotFound
  | Some vehicle => ret vehicle
  end.

Record DateRange : Type := mkDateRange {
  startDate : TimeArg;
  endDate : TimeArg
}.

(** One bound of [query.createdAt]; an Invalid Date makes the query fail
    to cast. *)
Definition bound (t : TimeArg) (cmp : Z -> Z -> bool) : Result (Z -> bool) :=
  if truthyTime t then
    match new_Date t with
    | Some d => Ok (cmp d)
    | None => Err CastError
    end
  else Ok (fun _ => true).

(** The query of [getVehicleUtilization]: the vehicle's bookings,
    within the creation-time range when one is given. *)
Definition utilizationQuery (vehicleId : ObjectId) (dateRange : DateRange)
  : Result (Booking.t -> bool) :=
  if truthyTime (startDate dateRange) || truthyTime (endDate dateRange) then
    gte <- bound (startDate dateRange) Z.leb ;;
    lte <- bound (endDate dateRange) Z.geb ;;
    Ok (fun b => N.eqb (Booking.vehicleId b) vehicleId
                 && gte (Booking.createdAt b) && lte (Booking.createdAt b))
  else Ok (fun b => N.eqb (Booking.vehicleId b) vehicleId).

Record Stats : Type := mkStats {
  s_vehicleId : ObjectId;
  vehicleName : string;
  totalBookings : nat;
  confirmedBookings : nat;
  completedBookings : nat;
  cancelledBookings : nat;
  totalHoursBooked : Q;
  averageRideDuration : Q
}.

(** bookings.reduce((sum, b) => sum + b.estimatedRideDurationHours, 0) *)
Definition sumHours (bookings : list Booking.t) : Q :=
  fold_left (fun sum b => Js.add sum (Booking.estimatedRideDurationHours b)) bookings 0%Q.

Definition countStatus (s : Booking.Status) (bookings : list Booking.t) : nat :=
  List.length (filter (fun b => Booking.status_eqb (Booking.status b) s) bookings).

Definition getVehicleUtilization (vehicleId : ObjectId) (dateRange : DateRange)
  : M Stats :=
  vehicle <~ getVehicleById vehicleId ;;
  query <~ lift (utilizationQuery (Vehicle._id vehicle) dateRange) ;;
  bookings <~ Db.Booking_find query ;;
  ret {| s_vehicleId := Vehicle._id vehicle;
         vehicleName := Vehicle.name vehicle;
         totalBookings := List.length bookings;
         confirmedBookings := countStatus Booking.confirmed bookings;
         completedBookings := countStatus Booking.completed bookings;
         cancelledBookings := countStatus Booking.cancelled bookings;
         totalHoursBooked := sumHours bookings;
         averageRideDuration :=
           if Nat.ltb 0 (List.length bookings)
           then Js.div (sumHours bookings) (inject_Z (Z.of_nat (List.length bookings)))
           else 0%Q |}.

(** { vehicleId, status: { $in: ['confirmed', 'in-progress'] } } *)
Definition activeBookingsQuery (vehicleId : ObjectId) (b : Booking.t) : bool :=
  N.eqb (Booking.vehicleId b) vehicleId && Booking.isActive (Booking.status b).

Definition deleteVehicle (now : Z) (vehicleId : ObjectId) : M Vehicle.t :=
  activeBookings <~ Db.Booking_find (activeBookingsQuery vehicleId) ;;
  _ <~ failIf (Nat.ltb 0 (List.length activeBookings)) HasActiveBookings ;;
  vehicle <~ Db.Vehicle_findByIdAndUpdate vehicleId
               (Vehicle.set_status Vehicle.retired now) ;;
  match vehicle with
  | None => throw VehicleNotFound
  | Some vehicle => ret vehicle
  end.

End VehicleService.

(** ** services/bookingService.js *)

Module BookingService.
Import Js RideCalculationService.

Record BookingData : Type := mkBookingData {
  bd_vehicleId : IdArg;
  bd_fromPincode : string;
  bd_toPincode : string;
  bd_startTime : TimeArg;
  bd_customerId : string
}.

(** [new Booking({...})]: the string setters trim; the timestamps are
    filled in by [save]. *)
Definition new_Booking (newId vehicleId : ObjectId) (customerId fromPincode toPincode : string)
           (startTime endTime : Z) (estimatedRideDurationHours : Q)
           (status : Booking.Status) : Booking.t :=
  {| Booking._id := newId;
     Booking.vehicleId := vehicleId;
     Booking.customerId := trim customerId;
     Booking.fromPincode := trim fromPincode;
     Booking.toPincode := trim toPincode;
     Booking.startTime := startTime;
     Booking.endTime := endTime;
     Booking.estimatedRideDurationHours := estimatedRideDurationHours;
     Booking.status := status;
     Booking.actualStartTime := None;
     Booking.actualEndTime := None;
     Booking.notes := None;
     Booking.createdAt := 0;
     Booking.updatedAt := 0 |}.

(** The try block of [createBooking].  [now] is the clock read by the
    start-time check, [saveNow] the clock read by the schema validator
    inside [save], [newId] the ObjectId generated for the new document. *)
Definition createBooking_try (now saveNow : Z) (newId : ObjectId) (bookingData : BookingData)
  : M (Booking.t * option Vehicle.t) :=
    (let vehicleId := bd_vehicleId bookingData in
     let fromPincode := bd_fromPincode bookingData in
     let toPincode := bd_toPincode bookingData in
     let startTime := bd_startTime bookingData in
     let customerId := bd_customerId bookingData in
     _ <~ failIf (negb (truthyId vehicleId) || negb (truthyStr fromPincode)
                  || negb (truthyStr toPincode) || negb (truthyTime startTime)
                  || negb (truthyStr customerId))
            MissingFields ;;
     vehicle <~ Db.Vehicle_findById vehicleId ;;
     match vehicle, vehicleId with
     | Some vehicle, IdOf vehicleOid =>
         _ <~ failIf (negb (Vehicle.status_eqb (Vehicle.status vehicle) Vehicle.active))
                VehicleNotActive ;;
         _ <~ failIf (negb (isValidPincode (Str fromPincode))
                      || negb (isValidPincode (Str toPincode)))
                InvalidPincode ;;
         match new_Date startTime with
         | None => throw InvalidTimeFormat
         | Some bookingStartTime =>
             _ <~ failIf (bookingStartTime <=? now) PastStartTime ;;
             estimatedRideDurationHours <~
               lift (calculateEstimatedDuration (Str fromPincode) (Str toPincode)) ;;
             bookingEndTime <~
               lift (calculateEndTime (Some bookingStartTime) estimatedRideDurationHours) ;;
             overlappingBookings <~
               Db.Booking_findOverlappingBookings vehicleOid bookingStartTime
                 bookingEndTime None ;;
             _ <~ failIf (Nat.ltb 0 (List.length overlappingBookings)) SlotUnavailable ;;
             match estimatedRideDurationHours with
             | None => throw CastError
             | Some hours =>
                 let booking :=
                   new_Booking newId vehicleOid customerId fromPincode toPincode
                     bookingStartTime bookingEndTime hours Booking.confirmed in
                 booking <~ Db.Booking_save saveNow booking ;;
                 Db.populate booking
             end
         end
     | _, _ => throw VehicleNotFound
     end).

Definition createBooking (now saveNow : Z) (newId : ObjectId) (bookingData : BookingData)
  : M (Booking.t * option Vehicle.t) :=
  on11000 BookingConflict (createBooking_try now saveNow newId bookingData).

Definition getBookingById (bookingId : ObjectId) : M (Booking.t * option Vehicle.t) :=
  booking <~ Db.Booking_findById bookingId ;;
  match booking with
  | None => throw BookingNotFound
  | Some booking => Db.populate booking
  end.

(** [additionalData]: an object whose keys are among the eleven paths
    that the booking schema declares, each with a value of the type of
    its path; [None] is an absent key.  (Strict mode drops a key that is
    no path of the schema; [_id] and the two timestamps that the store
    maintains are not among the keys represented.) *)
Record AdditionalData : Type := mkAdditional {
  ad_status : option Booking.Status;
  ad_vehicleId : option ObjectId;
  ad_customerId : option string;
  ad_fromPincode : option string;
  ad_toPincode : option string;
  ad_startTime : option Z;
  ad_endTime : option Z;
  ad_estimatedRideDurationHours : option Q;
  ad_notes : option string;
  ad_actualStartTime : option Z;
  ad_actualEndTime : option Z
}.

(** [{}] *)
Definition noAdditionalData : AdditionalData :=
  {| ad_status := None; ad_vehicleId := None; ad_customerId := None;
     ad_fromPincode := None; ad_toPincode := None; ad_startTime := None;
     ad_endTime := None; ad_estimatedRideDurationHours := None;
     ad_notes := None; ad_actualStartTime := None; ad_actualEndTime := None |}.

(** [{ notes }] *)
Definition notesOnly (notes : string) : AdditionalData :=
  {| ad_status := None; ad_vehicleId := None; ad_customerId := None;
     ad_fromPincode := None; ad_toPincode := None; ad_startTime := None;
     ad_endTime := None; ad_estimatedRideDurationHours := None;
     ad_notes := Some notes; ad_actualStartTime := None; ad_actualEndTime := None |}.

Definition isNone {A : Type} (o : option A) : bool :=
  match o with
  | None => true
  | Some _ => false
  end.

(** [{ status, ...additionalData }], where a status among the additional
    data replaces the argument, with the two timestamps added.  The tests
    for the timestamps are on the argument [status]. *)
Definition updateDataOf (now : Z) (status : Booking.Status)
           (additionalData : AdditionalData) : Booking.Update :=
  let updateData :=
    {| Booking.u_status := Booking.orKeep (ad_status additionalData) status;
       Booking.u_vehicleId := ad_vehicleId additionalData;
       Booking.u_customerId := ad_customerId additionalData;
       Booking.u_fromPincode := ad_fromPincode additionalData;
       Booking.u_toPincode := ad_toPincode additionalData;
       Booking.u_startTime := ad_startTime additionalData;
       Booking.u_endTime := ad_endTime additionalData;
       Booking.u_estimatedRideDurationHours :=
         ad_estimatedRideDurationHours additionalData;
       Booking.u_notes := ad_notes additionalData;
       Booking.u_actualStartTime := ad_actualStartTime additionalData;
       Booking.u_actualEndTime := ad_actualEndTime additionalData |} in
  let updateData :=
    if Booking.status_eqb status Booking.in_progress
       && isNone (Booking.u_actualStartTime updateData)
    then Booking.with_actualStartTime now updateData
    else updateData in
  if Booking.status_eqb status Booking.completed
     && isNone (Booking.u_actualEndTime updateData)
  then Booking.with_actualEndTime now updateData
  else updateData.

Definition updateBookingStatus (now : Z) (bookingId : ObjectId) (status : Booking.Status)
           (additionalData : AdditionalData) : M (Booking.t * option Vehicle.t) :=
  let updateData := updateDataOf now status additionalData in
  (* runValidators: true *)
  _ <~ failIf (negb (Booking.validateUpdate now updateData)) ValidationError ;;
  booking <~ Db.Booking_findByIdAndUpdate bookingId (Booking.applyUpdate now updateData) ;;
  match booking with
  | None => throw BookingNotFound
  | Some booking => Db.populate booking
  end.

Definition cancelBooking (now : Z) (bookingId : ObjectId) (reason : string)
  : M (Booking.t * option Vehicle.t) :=
  booking <~ Db.Booking_findById bookingId ;;
  match booking with
  | None => throw BookingNotFound
  | Some booking =>
      _ <~ failIf (Booking.status_eqb (Booking.status booking) Booking.completed)
             AlreadyCompleted ;;
      _ <~ failIf (Booking.status_eqb (Booking.status booking) Booking.cancelled)
             AlreadyCancelled ;;
      let timeDiff := Booking.startTime booking - now in
      let hoursDiff := (inject_Z timeDiff / (1000 * 60 * 60))%Q in
      _ <~ failIf (negb (Qle_bool 2 hoursDiff)) TooCloseToStart ;;
      updateBookingStatus now bookingId Booking.cancelled
        (notesOnly (if truthyStr reason then "Cancelled: " ++ reason
                    else "Cancelled by user")%string)
  end.

Definition deleteBooking (bookingId : ObjectId) : M bool :=
  booking <~ Db.Booking_findById bookingId ;;
  match booking with
  | None => throw BookingNotFound
  | Some booking =>
      _ <~ failIf (negb (Booking.status_eqb (Booking.status booking) Booking.cancelled))
             NotCancelled ;;
      _ <~ Db.Booking_findByIdAndDelete bookingId ;;
      ret true
  end.

(** The options of [getCustomerBookings]; [None] is an absent key.  A
    limit or offset is a non-negative integer. *)
Record PageOptions : Type := mkPageOptions {
  o_limit : option N;
  o_offset : option N;
  o_status : option string
}.

Record Page : Type := mkPage {
  p_bookings : list (Booking.t * option Vehicle.t);
  p_total : nat;
  hasMore : bool
}.

(** [{ customerId }], with [status] added when it is truthy.  The id is
    compared as given; the stored ids are trimmed. *)
Definition customerQuery (customerId : string) (status : option string) (b : Booking.t)
  : bool :=
  String.eqb (Booking.customerId b) customerId
  && match status with
     | Some s => if truthyStr s then Booking.statusIs s b else true
     | None => true
     end.

(** [.populate('vehicleId')] on the documents of a query. *)
Definition populateAll (docs : list Booking.t) : M (list (Booking.t * option Vehicle.t)) :=
  fun st =>
    (Ok (map (fun b => (b, Db.findVehicle (Booking.vehicleId b) (vehicles st))) docs), st).

(** [.limit(n)]: MongoDB takes a limit of 0 as no limit. *)
Definition limitTo {A : Type} (limit : N) (l : list A) : list A :=
  if N.eqb limit 0 then l else firstn (N.to_nat limit) l.

(** [order] is what [.sort({ createdAt: -1 })] makes of the matching
    documents in this call: MongoDB does not say in which order it returns
    documents with equal keys. *)
Definition getCustomerBookings (order : list Booking.t -> list Booking.t)
           (customerId : string) (options : PageOptions) : M Page :=
  let limit := match o_limit options with Some n => n | None => 10%N end in
  let offset := match o_offset options with Some n => n | None => 0%N end in
  let query := customerQuery customerId (o_status options) in
  found <~ Db.Booking_find query ;;
  page <~ populateAll (limitTo limit (skipn (N.to_nat offset) (order found))) ;;
  matching <~ Db.Booking_find query ;;
  let total := List.length matching in
  ret {| p_bookings := page;
         p_total := total;
         hasMore := N.ltb (offset + limit) (N.of_nat total) |}.

(** The filters of [getAllBookings]; [None], [NoId] and [NoTime] are
    absent keys. *)
Record Filters : Type := mkFilters {
  f_customerId : option string;
  f_vehicleId : IdArg;
  f_status : option string;
  f_startDate : TimeArg;
  f_endDate : TimeArg
}.

(** One filter on a string field: present when the given string is
    truthy. *)
Definition whenGiven (filter : option string) (test : string -> bool) : bool :=
  match filter with
  | Some s => if truthyStr s then test s else true
  | None => true
  end.

(** The query of [getAllBookings]: one condition per filter that is
    given; the date range bounds [startTime].  A vehicle id or a date that
    cannot be cast makes the query fail. *)
Definition allBookingsQuery (filters : Filters) : Result (Booking.t -> bool) :=
  byVehicle <- match f_vehicleId filters with
               | NoId => Ok (fun _ => true)
               | BadId => Err CastError
               | IdOf oid => Ok (fun b => N.eqb (Booking.vehicleId b) oid)
               end ;;
  gte <- VehicleService.bound (f_startDate filters) Z.leb ;;
  lte <- VehicleService.bound (f_endDate filters) Z.geb ;;
  Ok (fun b =>
        whenGiven (f_customerId filters) (String.eqb (Booking.customerId b))
        && byVehicle b
        && whenGiven (f_status filters) (fun s => Booking.statusIs s b)
        && gte (Booking.startTime b) && lte (Booking.startTime b)).

(** [order] is what [.sort({ createdAt: -1 })] makes of the matching
    documents in this call. *)
Definition getAllBookings (order : list Booking.t -> list Booking.t) (filters : Filters)
  : M (list (Booking.t * option Vehicle.t)) :=
  query <~ lift (allBookingsQuery filters) ;;
  found <~ Db.Booking_find query ;;
  populateAll (order found).







End BookingService.

(** ** The validation utilities (middleware) *)

Module Validators.
Import Js.

(** [typeof pincode === 'string' && pincodeRegex.test(pincode)] *)
Definition isValidPincode (pincode : Value) : bool :=
  isString pincode && pincodeRegex_test pincode.

(** [Number(capacity)] of a Number is that Number; [None] is NaN. *)
Definition isValidCapacity (capacity : num) : bool :=
  match capacity with
  | Some num => Qle_bool 1 num && Qle_bool num 50000
  | None => false
  end.

Definition isValidTyreCount (tyres : num) : bool :=
  match tyres with
  | Some num => Qle_bool 2 num && Qle_bool num 18
  | None => false
  end.

(** validStatuses.includes(status) *)
Definition isValidVehicleStatus (status : string) : bool :=
  existsb (String.eqb status) ["active"; "maintenance"; "retired"]%string.

(** The argument of [validateVehicleData]: a name and a registration
    number that are strings, a capacity and a number of tyres that are
    Numbers, a status that is a string; [None] is an absent key. *)
Record VehicleInput : Type := mkVehicleInput {
  vi_name : string;
  vi_capacityKg : num;
  vi_tyres : num;
  vi_status : option string;
  vi_registrationNumber : option string
}.

Record Validation : Type := mkValidation {
  isValid : bool;
  errors : list string
}.

(** [name.trim().length] is the number of code units of the trimmed
    name. *)
Definition validateVehicleData (vehicleData : VehicleInput) : Validation :=
  let name := vi_name vehicleData in
  let errors := [] in
  let errors :=
    if negb (truthyStr name) || Nat.eqb (String.length (trim name)) 0
    then errors ++ ["Name is required and must be a non-empty string"%string]
    else if Nat.ltb 100 (String.length (trim name))
    then errors ++ ["Name cannot exceed 100 characters"%string]
    else errors in
  let errors :=
    if negb (isValidCapacity (vi_capacityKg vehicleData))
    then errors ++ ["Capacity must be between 1 and 50,000 kg"%string]
    else errors in
  let errors :=
    if negb (isValidTyreCount (vi_tyres vehicleData))
    then errors ++ ["Tyres must be between 2 and 18"%string]
    else errors in
  let errors :=
    match vi_status vehicleData with
    | Some status =>
        if truthyStr status && negb (isValidVehicleStatus status)
        then errors ++ ["Status must be one of: active, maintenance, retired"%string]
        else errors
    | None => errors
    end in
  (* a registration number that is a string raises no error *)
  {| isValid := Nat.eqb (List.length errors) 0; errors := errors |}.

End Validators.

(** * The vocabulary of the specification *)

Module Spec.
Import Js.

(** A pincode: a string of exactly six ASCII digits. *)
Definition sixDigits (s : string) : Prop :=
  String.length s = 6%nat
  /\ Forall (fun c => isDigit c = true) (list_ascii_of_string s).

(** int(p): the number a string of digits denotes in base ten. *)
Definition int (s : string) : Z :=
  fold_left (fun acc c => 10 * acc + digitValue c) (list_ascii_of_string s) 0.

(** max(abs(int(q) - int(p)) mod 24, 0.5) *)
Definition estimateDuration (p q : string) : Q :=
  Qmax (inject_Z (Z.abs (int q - int p) mod 24)) (1 # 2).

(** The end of a ride that starts at [start]: the start time plus the
    estimated duration, as a millisecond timestamp. *)
Definition endOfRide (start : Z) (p q : string) : Z :=
  trunc (inject_Z start + estimateDuration p q * RideCalculationService.msPerHour).

(** All input validations of [createBooking] pass. *)
Definition validated (now : Z) (st : Store) (data : BookingService.BookingData)
           (vehicleId : ObjectId) (start : Z) : Prop :=
  BookingService.bd_vehicleId data = IdOf vehicleId
  /\ truthyStr (BookingService.bd_customerId data) = true
  /\ (exists vehicle, Db.findVehicle vehicleId (vehicles st) = Some vehicle
                      /\ Vehicle.status vehicle = Vehicle.active)
  /\ sixDigits (BookingService.bd_fromPincode data)
  /\ sixDigits (BookingService.bd_toPincode data)
  /\ BookingService.bd_startTime data = TimeAt start
  /\ now < start.

(** The overlap query of [createBooking] for the requested vehicle and the
    computed window. *)
Definition conflicts (st : Store) (data : BookingService.BookingData)
           (vehicleId : ObjectId) (start : Z) : list Booking.t :=
  Booking.findOverlappingBookings (bookings st) vehicleId start
    (endOfRide start (BookingService.bd_fromPincode data)
       (BookingService.bd_toPincode data))
    None.

(** The overlap query over the window [start, end) finds no booking of
    the vehicle. *)
Definition isFree (st : Store) (start end_ : Z) (v : Vehicle.t) : bool :=
  match Booking.findOverlappingBookings (bookings st) (Vehicle._id v) start end_ None with
  | [] => true
  | _ :: _ => false
  end.

(** What an element of the result carries besides the vehicle. *)
Definition enriched (from to : string) (start end_ : Z)
           (av : VehicleService.AvailableVehicle) : Prop :=
  VehicleService.av_estimatedRideDurationHours av = Some (estimateDuration from to)
  /\ RideCalculationService.getRouteInfo (Str from) (Str to)
       (Vehicle.capacityKg (VehicleService.av_vehicle av))
     = Ok (VehicleService.av_routeInfo av)
  /\ VehicleService.av_searchCriteria av
     = {| VehicleService.sc_fromPincode := from;
          VehicleService.sc_toPincode := to;
          VehicleService.requestedStartTime := start;
          VehicleService.requestedEndTime := end_ |}.

(** Two bookings occupy disjoint half-open intervals [startTime, endTime). *)
Definition disjoint (b1 b2 : Booking.t) : Prop :=
  Booking.endTime b1 <= Booking.startTime b2
  \/ Booking.endTime b2 <= Booking.startTime b1.

(** The invariant of the data model: two different bookings of one vehicle
    that are both confirmed or in progress do not overlap. *)
Definition noDoubleBooking (st : Store) : Prop :=
  forall b1 b2,
    In b1 (bookings st) -> In b2 (bookings st) ->
    Booking._id b1 <> Booking._id b2 ->
    Booking.vehicleId b1 = Booking.vehicleId b2 ->
    Booking.isActive (Booking.status b1) = true ->
    Booking.isActive (Booking.status b2) = true ->
    disjoint b1 b2.

(** The status that a status update stores: the one among the extra
    fields if there is one, else the argument. *)
Definition newStatus (status : Booking.Status) (extra : BookingService.AdditionalData)
  : Booking.Status :=
  Booking.orKeep (BookingService.ad_status extra) status.

(** The extra fields of a status update leave the ride as it was booked:
    they set neither the vehicle, nor a pincode, nor the start or end time,
    nor the estimated duration. *)
Definition keepsRide (extra : BookingService.AdditionalData) : Prop :=
  BookingService.ad_vehicleId extra = None
  /\ BookingService.ad_fromPincode extra = None
  /\ BookingService.ad_toPincode extra = None
  /\ BookingService.ad_startTime extra = None
  /\ BookingService.ad_endTime extra = None
  /\ BookingService.ad_estimatedRideDurationHours extra = None.

(** The extra fields of a status update pass the validators of the schema
    at the instant [now]. *)
Definition acceptable (now : Z) (extra : BookingService.AdditionalData) : Prop :=
  (forall c, BookingService.ad_customerId extra = Some c -> Js.trim c <> EmptyString)
  /\ (forall p, BookingService.ad_fromPincode extra = Some p -> sixDigits (Js.trim p))
  /\ (forall p, BookingService.ad_toPincode extra = Some p -> sixDigits (Js.trim p))
  /\ (forall t, BookingService.ad_startTime extra = Some t -> now < t)
  /\ (forall d, BookingService.ad_estimatedRideDurationHours extra = Some d ->
                (1 # 10 <= d)%Q)
  /\ (forall n, BookingService.ad_notes extra = Some n -> (String.length n <= 500)%nat).

(** A status update that leaves the ride as it was booked and does not
    turn a booking that is completed or cancelled back into a confirmed or
    in-progress one. *)
Definition noReactivation (st : Store) (id : ObjectId) (status : Booking.Status)
           (extra : BookingService.AdditionalData) : Prop :=
  keepsRide extra
  /\ (Booking.isActive (newStatus status extra) = true ->
      forall b, Db.findBooking id (bookings st) = Some b ->
                Booking.isActive (Booking.status b) = true).

(** The states the operations of the system produce, one after the other,
    from the empty store, when every status update satisfies [ok]. *)
Inductive reachable_if
          (ok : Store -> ObjectId -> Booking.Status -> BookingService.AdditionalData -> Prop)
  : Store -> Prop :=
| reach_empty : reachable_if ok {| vehicles := []; bookings := [] |}
| reach_createVehicle st now random newId data :
    reachable_if ok st ->
    reachable_if ok (snd (VehicleService.createVehicle now random newId data st))
| reach_updateVehicleStatus st now id status :
    reachable_if ok st ->
    reachable_if ok (snd (VehicleService.updateVehicleStatus now id status st))
| reach_deleteVehicle st now id :
    reachable_if ok st ->
    reachable_if ok (snd (VehicleService.deleteVehicle now id st))
| reach_createBooking st now saveNow newId data :
    reachable_if ok st ->
    reachable_if ok (snd (BookingService.createBooking now saveNow newId data st))
| reach_updateBookingStatus st now id status extra :
    reachable_if ok st -> ok st id status extra ->
    reachable_if ok (snd (BookingService.updateBookingStatus now id status extra st))
| reach_cancelBooking st now id reason :
    reachable_if ok st ->
    reachable_if ok (snd (BookingService.cancelBooking now id reason st))
| reach_deleteBooking st id :
    reachable_if ok st ->
    reachable_if ok (snd (BookingService.deleteBooking id st)).

(** The states reachable by the operations, without restriction. *)
Definition reachable : Store -> Prop := reachable_if (fun _ _ _ _ => True).

(** A creation time lies within a date range: not before the start date
    and not after the end date, where given. *)
Definition inRange (r : VehicleService.DateRange) (t : Z) : Prop :=
  (forall s, VehicleService.startDate r = TimeAt s -> s <= t)
  /\ (forall e, VehicleService.endDate r = TimeAt e -> t <= e).

(** The sum of estimatedRideDurationHours over a list of bookings. *)
Fixpoint totalHours (l : list Booking.t) : Q :=
  match l with
  | [] => 0
  | b :: l' => Booking.estimatedRideDurationHours b + totalHours l'
  end.

(** The estimated duration is a whole number of half hours, from half an
    hour to 2^19 hours; every duration that [createBooking] computes is
    one (0.5, or 1 to 23). *)
Definition halfHours (b : Booking.t) : bool :=
  let h := (Booking.estimatedRideDurationHours b * 2)%Q in
  Qeq_bool h (inject_Z (Qfloor h)) && (1 <=? Qfloor h) && (Qfloor h <=? 2 ^ 20).

(** The estimated duration is at least the 0.1 hours that the schema asks
    for, and at most 2^1000 hours. *)
Definition moderate (b : Booking.t) : bool :=
  Qle_bool (1 # 10) (Booking.estimatedRideDurationHours b)
  && Qle_bool (Booking.estimatedRideDurationHours b) (Js.pow2 1000).

(** The estimated durations added up as JavaScript adds them, one after
    the other from the left, starting from [acc]. *)
Fixpoint addedTo (acc : Q) (l : list Booking.t) : Q :=
  match l with
  | [] => acc
  | b :: l' => addedTo (Js.add acc (Booking.estimatedRideDurationHours b)) l'
  end.

(** At most 2^20 bookings. *)
Definition fewBookings (l : list Booking.t) : Prop :=
  Z.of_nat (List.length l) <= 2 ^ 20.

(** [x] is within the relative error [eps] of [y]. *)
Definition near (eps x y : Q) : Prop := (Qabs (x - y) <= y * eps)%Q.

(** The relative error that [n] roundings in a row can add up to. *)
Definition roundings (n : nat) : Q := ((1 + Js.roundoff) ^ Z.of_nat n - 1)%Q.

(** All input validations of [findAvailableVehicles] pass. *)
Definition searchable (now : Z) (criteria : VehicleService.Criteria)
           (capacity : Q) (start : Z) : Prop :=
  VehicleService.capacityRequired criteria = Some capacity
  /\ ~ (capacity == 0)%Q
  /\ sixDigits (VehicleService.c_fromPincode criteria)
  /\ sixDigits (VehicleService.c_toPincode criteria)
  /\ VehicleService.c_startTime criteria = TimeAt start
  /\ now < start.


(** Ids identify documents and registration numbers identify vehicles. *)
Definition uniqueKeys (st : Store) : Prop :=
  NoDup (map Vehicle._id (vehicles st))
  /\ NoDup (map Vehicle.registrationNumber (vehicles st))
  /\ NoDup (map Booking._id (bookings st)).

(** Every booking refers to a stored vehicle. *)
Definition referencesHold (st : Store) : Prop :=
  forall b, In b (bookings st) ->
            In (Booking.vehicleId b) (map Vehicle._id (vehicles st)).

(** What the schema and [createBooking] make of a stored booking. *)
Definition wellFormedBooking (b : Booking.t) : Prop :=
  Booking.customerId b <> EmptyString
  /\ sixDigits (Booking.fromPincode b)
  /\ sixDigits (Booking.toPincode b)
  /\ Booking.estimatedRideDurationHours b
     = estimateDuration (Booking.fromPincode b) (Booking.toPincode b)
  /\ Booking.endTime b
     = endOfRide (Booking.startTime b) (Booking.fromPincode b) (Booking.toPincode b)
  /\ Booking.notesFit (Booking.notes b) = true.

(** What the schema makes of a stored vehicle. *)
Definition wellFormedVehicle (v : Vehicle.t) : Prop :=
  Vehicle.validate v = true /\ Vehicle.registrationNumber v <> EmptyString.

(** The stored data are consistent. *)
Definition consistent (st : Store) : Prop :=
  uniqueKeys st
  /\ referencesHold st
  /\ Forall wellFormedBooking (bookings st)
  /\ Forall wellFormedVehicle (vehicles st).

(** The request that books, for a customer, a vehicle over the route and
    start time of a search. *)
Definition bookingFor (criteria : VehicleService.Criteria) (vehicle : Vehicle.t)
           (customerId : string) : BookingService.BookingData :=
  {| BookingService.bd_vehicleId := IdOf (Vehicle._id vehicle);
     BookingService.bd_fromPincode := VehicleService.c_fromPincode criteria;
     BookingService.bd_toPincode := VehicleService.c_toPincode criteria;
     BookingService.bd_startTime := VehicleService.c_startTime criteria;
     BookingService.bd_customerId := customerId |}.

(** A booking passes the filters of [getAllBookings] that are given. *)
Definition passes (filters : BookingService.Filters) (b : Booking.t) : Prop :=
  (forall c, BookingService.f_customerId filters = Some c -> c <> EmptyString ->
             Booking.customerId b = c)
  /\ (forall oid, BookingService.f_vehicleId filters = IdOf oid ->
                  Booking.vehicleId b = oid)
  /\ (forall s, BookingService.f_status filters = Some s -> s <> EmptyString ->
                Booking.statusOfString s = Some (Booking.status b))
  /\ (forall t, BookingService.f_startDate filters = TimeAt t -> t <= Booking.startTime b)
  /\ (forall t, BookingService.f_endDate filters = TimeAt t -> Booking.startTime b <= t).

(** A list of bookings, newest first. *)
Definition newestFirst (l : list Booking.t) : Prop :=
  StronglySorted (fun x y => Booking.createdAt y <= Booking.createdAt x) l.


End Spec.

(** * Sample data

    The fixtures of the test suite: one vehicle of 1000 kg and a request
    from 110001 to 110002 starting in 24 hours. *)

Module Examples.
Import Js VehicleService BookingService.

Definition hour : Z := 3600000.

Definition emptyStore : Store := {| vehicles := []; bookings := [] |}.

Definition truckData : VehicleData :=
  {| vd_name := "Test Vehicle"; vd_capacityKg := 1000; vd_tyres := 4;
     vd_status := None; vd_registrationNumber := None |}.

(** The vehicle is created at time 0 with ObjectId 1. *)
Definition fleet : Store := snd (createVehicle 0 7 1%N truckData emptyStore).

Definition truck : Vehicle.t :=
  {| Vehicle._id := 1%N; Vehicle.name := "Test Vehicle"; Vehicle.capacityKg := 1000;
     Vehicle.tyres := 4; Vehicle.status := Vehicle.active;
     Vehicle.registrationNumber := "FL-0-7";
     Vehicle.createdAt := 0; Vehicle.updatedAt := 0 |}.

Definition request : BookingData :=
  {| bd_vehicleId := IdOf 1%N; bd_fromPincode := "110001"; bd_toPincode := "110002";
     bd_startTime := TimeAt (24 * hour); bd_customerId := "TEST_CUSTOMER_001" |}.

(** The booking that [request] produces when saved at time 1000 with
    ObjectId 10: one hour, from hour 24 to hour 25. *)
Definition bookingA : Booking.t :=
  {| Booking._id := 10%N; Booking.vehicleId := 1%N;
     Booking.customerId := "TEST_CUSTOMER_001";
     Booking.fromPincode := "110001"; Booking.toPincode := "110002";
     Booking.startTime := 24 * hour; Booking.endTime := 25 * hour;
     Booking.estimatedRideDurationHours := 1;
     Booking.status := Booking.confirmed;
     Booking.actualStartTime := None; Booking.actualEndTime := None;
     Booking.notes := None;
     Booking.createdAt := 1000; Booking.updatedAt := 1000 |}.

Definition booked : Store := snd (createBooking 1000 1000 10%N request fleet).

(** The ride is started at time 5000. *)
Definition started : Store :=
  snd (updateBookingStatus 5000 10%N Booking.in_progress noAdditionalData booked).

(** The booking is cancelled at time 2000, 22 hours ahead of its start;
    the same slot is booked again at time 3000 under ObjectId 11; at time
    4000 the status of the first booking is set back to confirmed. *)
Definition cancelledA : Store := snd (cancelBooking 2000 10%N "" booked).

Definition rebooked : Store := snd (createBooking 3000 3000 11%N request cancelledA).

Definition revived : Store :=
  snd (updateBookingStatus 4000 10%N Booking.confirmed noAdditionalData rebooked).

(** A second, cancelled booking of four hours next to [bookingA]. *)
Definition bookingC : Booking.t :=
  {| Booking._id := 12%N; Booking.vehicleId := 1%N;
     Booking.customerId := "TEST_CUSTOMER_002";
     Booking.fromPincode := "110003"; Booking.toPincode := "110007";
     Booking.startTime := 48 * hour; Booking.endTime := 52 * hour;
     Booking.estimatedRideDurationHours := 4;
     Booking.status := Booking.cancelled;
     Booking.actualStartTime := None; Booking.actualEndTime := None;
     Booking.notes := Some "Cancelled by user"%string;
     Booking.createdAt := 1500; Booking.updatedAt := 1800 |}.

Definition history : Store :=
  {| vehicles := [truck]; bookings := [bookingA; bookingC] |}.

Definition anyTime : DateRange := {| startDate := NoTime; endDate := NoTime |}.

(** A search for 500 kg over the slot of [request]. *)
Definition search : Criteria :=
  {| capacityRequired := Some 500%Q; c_fromPincode := "110001";
     c_toPincode := "110002"; c_startTime := TimeAt (24 * hour) |}.


(** The vehicle is taken to the workshop at time 500. *)
Definition inWorkshop : Store :=
  snd (updateVehicleStatus 500 1%N Vehicle.maintenance fleet).

(** The customer of [request] books the next day as well, at time 3000
    under ObjectId 11. *)
Definition nextDay : BookingData :=
  {| bd_vehicleId := IdOf 1%N; bd_fromPincode := "110001"; bd_toPincode := "110002";
     bd_startTime := TimeAt (48 * hour); bd_customerId := "TEST_CUSTOMER_001" |}.

Definition bookedTwice : Store := snd (createBooking 3000 3000 11%N nextDay booked).

(** The booking that [nextDay] produces: one hour, from hour 48 to hour
    49. *)
Definition bookingB : Booking.t :=
  {| Booking._id := 11%N; Booking.vehicleId := 1%N;
     Booking.customerId := "TEST_CUSTOMER_001";
     Booking.fromPincode := "110001"; Booking.toPincode := "110002";
     Booking.startTime := 48 * hour; Booking.endTime := 49 * hour;
     Booking.estimatedRideDurationHours := 1;
     Booking.status := Booking.confirmed;
     Booking.actualStartTime := None; Booking.actualEndTime := None;
     Booking.notes := None;
     Booking.createdAt := 3000; Booking.updatedAt := 3000 |}.

End Examples.

(** * Properties *)

Section RouteEstimator.
Import Js RideCalculationService Spec.

Lemma digitsThenEnd_spec (n : nat) (s : string) :
  digitsThenEnd n s = true <->
  String.length s = n /\ Forall (fun c => isDigit c = true) (list_ascii_of_string s).
Proof.
  revert n; induction s as [|c s IH]; intros [|n]; simpl.
  - split; [intros _; split; [reflexivity | constructor] | reflexivity].
  - split; [discriminate | intros [H _]; discriminate H].
  - split; [discriminate | intros [H _]; discriminate H].
  - rewrite andb_true_iff, IH. split.
    + intros [Hc [Hl Hf]]. split; [now f_equal | now constructor].
    + intros [Hl Hf]. inversion Hf; subst. repeat split; auto.
Qed.

Lemma isValidPincode_Str (s : string) :
  isValidPincode (Str s) = true <-> sixDigits s.
Proof. apply digitsThenEnd_spec. Qed.

Lemma parseDigits_int (s : string) (acc : Z) :
  Forall (fun c => isDigit c = true) (list_ascii_of_string s) ->
  parseDigits acc s =
  fold_left (fun a c => 10 * a + digitValue c) (list_ascii_of_string s) acc.
Proof.
  revert acc; induction s as [|c s IH]; intros acc Hf; simpl; [reflexivity|].
  inversion Hf as [|? ? Hc Hs]; subst. simpl in Hc. rewrite Hc. now apply IH.
Qed.

Lemma parseInt_pincode (s : string) :
  sixDigits s -> parseInt s = Some (int s).
Proof.
  intros [Hl Hf]. destruct s as [|c s]; [discriminate Hl|].
  unfold parseInt. pose proof Hf as Hf'.
  inversion Hf as [|? ? Hc Hs]; subst. simpl in Hc. rewrite Hc.
  f_equal. now apply parseDigits_int.
Qed.

Lemma Math_max_half (n : Z) :
  0 <= n ->
  Math_max (Some (inject_Z n)) (Some (1 # 2)%Q) = Some (Qmax (inject_Z n) (1 # 2)).
Proof.
  intros Hn. unfold Math_max. f_equal.
  destruct (Z.eq_dec n 0) as [->|Hnz]; [reflexivity|].
  assert (Hlt : (1 # 2 < inject_Z n)%Q).
  { unfold Qlt, inject_Z; simpl. lia. }
  destruct (Qle_bool (inject_Z n) (1 # 2)) eqn:Hle.
  - apply Qle_bool_iff in Hle. exfalso. apply (Qlt_not_le _ _ Hlt Hle).
  - unfold Qmax, GenericMinMax.gmax.
    destruct (inject_Z n ?= 1 # 2)%Q eqn:Hc; try reflexivity.
    apply Qlt_alt in Hc. exfalso. apply (Qlt_irrefl (1 # 2)).
    now apply Qlt_trans with (inject_Z n).
Qed.

Lemma calculateEstimatedDuration_valid (p q : string) :
  sixDigits p -> sixDigits q ->
  calculateEstimatedDuration (Str p) (Str q) = Ok (Some (estimateDuration p q)).
Proof.
  intros Hp Hq. unfold calculateEstimatedDuration.
  rewrite (proj2 (isValidPincode_Str p) Hp), (proj2 (isValidPincode_Str q) Hq).
  simpl. rewrite (parseInt_pincode p Hp), (parseInt_pincode q Hq).
  rewrite Z.rem_mod_nonneg by lia.
  rewrite Math_max_half by (apply Z.mod_pos_bound; lia).
  reflexivity.
Qed.

End RouteEstimator.

Section RouteEstimatorClaims.
Import Js RideCalculationService Spec.

Lemma estimateDuration_sym (p q : string) :
  estimateDuration p q = estimateDuration q p.
Proof.
  unfold estimateDuration.
  replace (int q - int p) with (- (int p - int q)) by lia.
  now rewrite Z.abs_opp.
Qed.

Lemma estimateDuration_cases (p q : string) :
  estimateDuration p q = (1 # 2)%Q
  \/ exists n, 1 <= n <= 23 /\ estimateDuration p q = inject_Z n.
Proof.
  unfold estimateDuration.
  pose proof (Z.mod_pos_bound (Z.abs (int q - int p)) 24 ltac:(lia)) as Hb.
  set (n := Z.abs (int q - int p) mod 24) in *.
  destruct (Z.eq_dec n 0) as [->|Hnz]; [left; reflexivity|].
  right. exists n. split; [lia|].
  unfold Qmax, GenericMinMax.gmax.
  destruct (inject_Z n ?= 1 # 2)%Q eqn:Hc; try reflexivity.
  apply Qlt_alt in Hc. unfold Qlt, inject_Z in Hc; simpl in Hc. lia.
Qed.

(** C5: for valid 6-digit pincode strings p and q, estimateDuration(p, q)
    equals max(abs(int(q) - int(p)) mod 24, 0.5); it is symmetric in p and
    q and at least 0.5; and estimateDuration('110001','110005') is 4,
    estimateDuration('110001','110030') is 5 and
    estimateDuration('110001','110050') is 1. *)
Theorem estimateDuration_formula (p q : string) (Hp : sixDigits p) (Hq : sixDigits q) :
  calculateEstimatedDuration (Str p) (Str q) = Ok (Some (estimateDuration p q))
  /\ calculateEstimatedDuration (Str p) (Str q) = calculateEstimatedDuration (Str q) (Str p)
  /\ (1 # 2 <= estimateDuration p q)%Q
  /\ calculateEstimatedDuration (Str "110001") (Str "110005") = Ok (Some 4%Q)
  /\ calculateEstimatedDuration (Str "110001") (Str "110030") = Ok (Some 5%Q)
  /\ calculateEstimatedDuration (Str "110001") (Str "110050") = Ok (Some 1%Q).
Proof.
  repeat split; try reflexivity.
  - now apply calculateEstimatedDuration_valid.
  - rewrite !calculateEstimatedDuration_valid by assumption.
    now rewrite estimateDuration_sym.
  - apply Q.le_max_r.
Qed.

Lemma estimateDuration_formula_witness :
  calculateEstimatedDuration (Str "110001") (Str "110002")
  = Ok (Some (estimateDuration "110001" "110002")).
Proof.
  apply (estimateDuration_formula "110001" "110002");
    (split; [reflexivity | repeat constructor]).
Defined.

(** C6 (the code departs from it): isValidPincode accepts exactly the
    strings of six ASCII digits among strings, '000000' and '999999'
    included, and rejects null and the empty string; but it does not
    reject the Number 110001, which the regular expression test coerces
    to the string '110001'. *)
Theorem isValidPincode_accepts_number :
  (forall s, isValidPincode (Str s) = true <-> sixDigits s)
  /\ isValidPincode (Str "000000") = true
  /\ isValidPincode (Str "999999") = true
  /\ isValidPincode (Str "11001") = false
  /\ isValidPincode (Str "1100012") = false
  /\ isValidPincode (Str "11000a") = false
  /\ isValidPincode (Str "") = false
  /\ isValidPincode Null = false
  /\ isValidPincode (Int 110001) = true.
Proof.
  split; [exact isValidPincode_Str | repeat split].
Qed.

End RouteEstimatorClaims.

Section Lists.
Context {A : Type}.

(** Two elements that follow one another in [filter f l] follow one
    another in [l]. *)
Lemma filter_keeps_order (f : A -> bool) (l : list A) (b1 b2 : A) (l1 l2 l3 : list A) :
  filter f l = l1 ++ b1 :: l2 ++ b2 :: l3 ->
  exists d1 d2 d3, l = d1 ++ b1 :: d2 ++ b2 :: d3.
Proof.
  revert l1. induction l as [|d l IH]; intros l1 H; simpl in H.
  - destruct l1; discriminate H.
  - destruct (f d).
    + destruct l1 as [|x l1]; simpl in H.
      * injection H as -> H.
        assert (Hb2 : In b2 (filter f l)) by (rewrite H; apply in_elt).
        apply filter_In in Hb2. destruct Hb2 as [Hb2 _].
        apply in_split in Hb2. destruct Hb2 as (d2 & d3 & ->).
        now exists [], d2, d3.
      * injection H as -> H. destruct (IH _ H) as (d1 & d2 & d3 & ->).
        now exists (x :: d1), d2, d3.
    + destruct (IH _ H) as (d1 & d2 & d3 & ->).
      now exists (d :: d1), d2, d3.
Qed.

End Lists.

Section OverlapQuery.

Lemma isActive_iff (s : Booking.Status) :
  Booking.isActive s = true <-> s = Booking.confirmed \/ s = Booking.in_progress.
Proof.
  destruct s; simpl; split; intros H; auto; try discriminate;
    destruct H as [H|H]; discriminate H.
Qed.

Lemma notExcluded_iff (excl : option ObjectId) (b : Booking.t) :
  Booking.notExcluded excl b = true <-> forall x, excl = Some x -> Booking._id b <> x.
Proof.
  unfold Booking.notExcluded. destruct excl as [x|].
  - rewrite negb_true_iff, N.eqb_neq. split.
    + intros H y Hy. now injection Hy as <-.
    + intros H. now apply H.
  - split; [intros _ x Hx; discriminate Hx | reflexivity].
Qed.

Lemma overlapQuery_iff (v : ObjectId) (s e : Z) (excl : option ObjectId) (b : Booking.t) :
  Booking.overlapQuery v s e excl b = true <->
  Booking.vehicleId b = v
  /\ (Booking.status b = Booking.confirmed \/ Booking.status b = Booking.in_progress)
  /\ Booking.startTime b < e /\ Booking.endTime b > s
  /\ forall x, excl = Some x -> Booking._id b <> x.
Proof.
  unfold Booking.overlapQuery.
  rewrite !andb_true_iff, N.eqb_eq, isActive_iff, !Z.ltb_lt, notExcluded_iff.
  intuition lia.
Qed.

(** C2: findOverlappingBookings(vehicleId, newStart, newEnd) returns
    exactly the stored bookings of that vehicle whose status is confirmed
    or in-progress and which satisfy startTime < newEnd and endTime >
    newStart, in stored order; a booking that only touches the window
    (endTime = newStart, or startTime = newEnd) is not returned; and with
    excludeBookingId given, the booking with that id is not returned. *)
Theorem findOverlappingBookings_exact
        (docs : list Booking.t) (vehicleId : ObjectId) (newStart newEnd : Z)
        (excludeBookingId : option ObjectId) :
  (forall b,
      In b (Booking.findOverlappingBookings docs vehicleId newStart newEnd excludeBookingId)
      <->
      In b docs
      /\ Booking.vehicleId b = vehicleId
      /\ (Booking.status b = Booking.confirmed \/ Booking.status b = Booking.in_progress)
      /\ Booking.startTime b < newEnd /\ Booking.endTime b > newStart
      /\ forall x, excludeBookingId = Some x -> Booking._id b <> x)
  /\ (forall b, Booking.endTime b = newStart ->
        ~ In b (Booking.findOverlappingBookings docs vehicleId newStart newEnd
                  excludeBookingId))
  /\ (forall b, Booking.startTime b = newEnd ->
        ~ In b (Booking.findOverlappingBookings docs vehicleId newStart newEnd
                  excludeBookingId))
  /\ (forall b x, excludeBookingId = Some x -> Booking._id b = x ->
        ~ In b (Booking.findOverlappingBookings docs vehicleId newStart newEnd
                  excludeBookingId))
  /\ (forall b1 b2 l1 l2 l3,
        Booking.findOverlappingBookings docs vehicleId newStart newEnd excludeBookingId
        = l1 ++ b1 :: l2 ++ b2 :: l3 ->
        exists d1 d2 d3, docs = d1 ++ b1 :: d2 ++ b2 :: d3).
Proof.
  assert (Hin : forall b,
      In b (Booking.findOverlappingBookings docs vehicleId newStart newEnd excludeBookingId)
      <->
      In b docs
      /\ Booking.vehicleId b = vehicleId
      /\ (Booking.status b = Booking.confirmed \/ Booking.status b = Booking.in_progress)
      /\ Booking.startTime b < newEnd /\ Booking.endTime b > newStart
      /\ forall x, excludeBookingId = Some x -> Booking._id b <> x).
  { intros b. unfold Booking.findOverlappingBookings.
    now rewrite filter_In, overlapQuery_iff. }
  split; [exact Hin|]. repeat split.
  - intros b Hb Hc. apply Hin in Hc. lia.
  - intros b Hb Hc. apply Hin in Hc. lia.
  - intros b x Hx Hb Hc. apply Hin in Hc.
    destruct Hc as (_ & _ & _ & _ & _ & Hne). now apply (Hne x).
  - intros b1 b2 l1 l2 l3. apply filter_keeps_order.
Qed.

End OverlapQuery.

Section Windows.
Import Js RideCalculationService Spec.

Lemma trunc_inject_Z (z : Z) : trunc (inject_Z z) = z.
Proof.
  unfold trunc. destruct (Qle_bool 0 (inject_Z z)).
  - apply Qfloor_Z.
  - apply Qceiling_Z.
Qed.

Lemma trunc_Qeq (x y : Q) : (x == y)%Q -> trunc x = trunc y.
Proof.
  intros H. unfold trunc.
  assert (Hb : Qle_bool 0 x = Qle_bool 0 y).
  { destruct (Qle_bool 0 x) eqn:Hx, (Qle_bool 0 y) eqn:Hy; try reflexivity.
    - apply Qle_bool_iff in Hx. rewrite H in Hx. apply Qle_bool_iff in Hx. congruence.
    - apply Qle_bool_iff in Hy. rewrite <- H in Hy. apply Qle_bool_iff in Hy. congruence. }
  rewrite Hb. destruct (Qle_bool 0 y).
  - now apply Qfloor_comp.
  - now apply Qceiling_comp.
Qed.

(** The end of a ride is the start plus 30 minutes, or plus a whole number
    of hours between 1 and 23. *)
Lemma endOfRide_cases (start : Z) (p q : string) :
  (estimateDuration p q = (1 # 2)%Q /\ endOfRide start p q = start + 1800000)
  \/ (exists n, 1 <= n <= 23 /\ estimateDuration p q = inject_Z n
                /\ endOfRide start p q = start + n * 3600000).
Proof.
  unfold endOfRide.
  destruct (estimateDuration_cases p q) as [H | (n & Hn & H)]; rewrite H.
  - left. split; [reflexivity|].
    rewrite <- (trunc_inject_Z (start + 1800000)). apply trunc_Qeq.
    unfold msPerHour, Qeq, inject_Z; simpl. lia.
  - right. exists n. repeat split; try lia.
    rewrite <- (trunc_inject_Z (start + n * 3600000)). apply trunc_Qeq.
    unfold msPerHour, Qeq, inject_Z; simpl. lia.
Qed.


Lemma endOfRide_bounds (start : Z) (p q : string) :
  start + 1800000 <= endOfRide start p q <= start + 23 * 3600000.
Proof.
  destruct (endOfRide_cases start p q) as [[_ ->] | (n & Hn & _ & ->)]; lia.
Qed.

Lemma estimateDuration_positive (p q : string) :
  notPositive (Some (estimateDuration p q)) = false.
Proof.
  unfold notPositive.
  destruct (Qle_bool (estimateDuration p q) 0) eqn:H; [|reflexivity].
  apply Qle_bool_iff in H. exfalso.
  assert (Hh : (1 # 2 <= estimateDuration p q)%Q) by apply Q.le_max_r.
  apply (Qlt_irrefl 0). eapply Qlt_le_trans; [|apply H].
  eapply Qlt_le_trans; [|apply Hh]. reflexivity.
Qed.

Lemma calculateEndTime_valid (start : Z) (p q : string) :
  calculateEndTime (Some start) (Some (estimateDuration p q)) = Ok (endOfRide start p q).
Proof.
  unfold calculateEndTime. now rewrite estimateDuration_positive.
Qed.

End Windows.

Section CreateBooking.
Import Js RideCalculationService Spec BookingService.

Lemma sixDigits_truthy (s : string) : sixDigits s -> truthyStr s = true.
Proof. intros [Hl _]. destruct s; [discriminate Hl | reflexivity]. Qed.

(** Once the validations have passed, [createBooking] is the overlap
    check followed by the save. *)
Lemma createBooking_try_validated now saveNow newId data st oid start :
  validated now st data oid start ->
  createBooking_try now saveNow newId data st =
  if Nat.ltb 0 (List.length (conflicts st data oid start))
  then (Err SlotUnavailable, st)
  else (booking <~ Db.Booking_save saveNow
                     (new_Booking newId oid (bd_customerId data) (bd_fromPincode data)
                        (bd_toPincode data) start
                        (endOfRide start (bd_fromPincode data) (bd_toPincode data))
                        (estimateDuration (bd_fromPincode data) (bd_toPincode data))
                        Booking.confirmed) ;;
        Db.populate booking) st.
Proof.
  intros (Hid & Hcust & (veh & Hveh & Hact) & Hfrom & Hto & Hstart & Hnow).
  unfold createBooking_try, conflicts.
  destruct data as [vid from to startArg cust]; simpl in *. subst vid startArg.
  unfold bindM, failIf, lift, throw_if, Db.Vehicle_findById,
    Db.Booking_findOverlappingBookings; simpl.
  rewrite Hcust, (sixDigits_truthy _ Hfrom), (sixDigits_truthy _ Hto); simpl.
  rewrite Hveh, Hact; simpl.
  rewrite (proj2 (isValidPincode_Str _) Hfrom), (proj2 (isValidPincode_Str _) Hto); simpl.
  rewrite (proj2 (Z.leb_gt start now) Hnow).
  rewrite (calculateEstimatedDuration_valid _ _ Hfrom Hto).
  rewrite estimateDuration_positive. cbn [bind throw_if].
  destruct (Nat.ltb 0 _); reflexivity.
Qed.

(** Otherwise it fails before the overlap check and leaves the store as
    it is. *)
Lemma createBooking_try_cases now saveNow newId data st :
  (exists oid start, validated now st data oid start)
  \/ (exists e, createBooking_try now saveNow newId data st = (Err e, st)
                /\ e <> SlotUnavailable /\ code11000 e = false).
Proof.
  unfold createBooking_try, validated.
  destruct data as [vid from to startArg cust]; simpl.
  unfold bindM, failIf, lift, throw_if, throw, Db.Vehicle_findById.
  destruct (truthyStr from) eqn:Hf; simpl;
    [|right; exists MissingFields; rewrite orb_true_r; repeat split; discriminate].
  destruct (truthyStr to) eqn:Ht; simpl;
    [|right; exists MissingFields; rewrite orb_true_r; repeat split; discriminate].
  destruct (truthyTime startArg) eqn:Hs; simpl;
    [|right; exists MissingFields; rewrite orb_true_r; repeat split; discriminate].
  destruct (truthyStr cust) eqn:Hc; simpl;
    [|right; exists MissingFields; rewrite orb_true_r; repeat split; discriminate].
  rewrite !orb_false_r.
  destruct vid as [| |oid]; simpl;
    [right; exists MissingFields; repeat split; discriminate
    |right; exists CastError; repeat split; discriminate|].
  destruct (Db.findVehicle oid (vehicles st)) as [veh|] eqn:Hveh;
    [|right; exists VehicleNotFound; repeat split; discriminate].
  destruct (Vehicle.status veh) eqn:Hact; simpl;
    try (right; exists VehicleNotActive; repeat split; discriminate).
  destruct (isValidPincode (Str from)) eqn:Hvf; simpl;
    [|right; exists InvalidPincode; repeat split; discriminate].
  destruct (isValidPincode (Str to)) eqn:Hvt; simpl;
    [|right; exists InvalidPincode; repeat split; discriminate].
  destruct startArg as [| |start]; simpl;
    try (right; exists InvalidTimeFormat; repeat split; discriminate).
  destruct (start <=? now) eqn:Hnow; simpl;
    [right; exists PastStartTime; repeat split; discriminate|].
  apply isValidPincode_Str in Hvf, Hvt. apply Z.leb_gt in Hnow.
  left. exists oid, start.
  refine (conj eq_refl (conj eq_refl (conj _ (conj Hvf (conj Hvt (conj eq_refl Hnow)))))).
  exists veh. now split.
Qed.

Lemma validated_fun now st data oid start oid' start' :
  validated now st data oid start -> validated now st data oid' start' ->
  oid' = oid /\ start' = start.
Proof.
  intros (Hid & _ & _ & _ & _ & Hs & _) (Hid' & _ & _ & _ & _ & Hs' & _).
  rewrite Hid in Hid'. rewrite Hs in Hs'.
  injection Hid' as ->. injection Hs' as ->. now split.
Qed.

Lemma Booking_save_cases (now : Z) (doc : Booking.t) (st : Store) :
  (exists e, Db.Booking_save now doc st = (Err e, st)
             /\ e <> SlotUnavailable)
  \/ (Db.Booking_save now doc st
       = (Ok (Booking.stamp now doc),
          {| vehicles := vehicles st;
             bookings := bookings st ++ [Booking.stamp now doc] |})
       /\ Booking.validate now doc = true
       /\ Db.findBooking (Booking._id doc) (bookings st) = None).
Proof.
  unfold Db.Booking_save.
  destruct (Booking.validate now doc); simpl;
    [|left; exists ValidationError; split; [reflexivity | discriminate]].
  destruct (Booking.preSave doc); simpl;
    [|left; exists EndNotAfterStart; split; [reflexivity | discriminate]].
  destruct (Db.findBooking (Booking._id doc) (bookings st));
    [left; exists DuplicateKey; split; [reflexivity | discriminate]|].
  right. repeat split.
Qed.

Lemma length_pos_iff {A : Type} (l : list A) :
  Nat.ltb 0 (List.length l) = true <-> l <> [].
Proof.
  destruct l; simpl; split; intros H; try discriminate; try reflexivity.
  now contradiction H.
Qed.

(** The two outcomes of [createBooking]: a failure that leaves the store
    untouched, or the insertion of the new confirmed booking. *)
Lemma createBooking_outcome
      (now saveNow : Z) (newId : ObjectId) (data : BookingData) (st : Store) :
  (exists e, createBooking now saveNow newId data st = (Err e, st)
             /\ (e = SlotUnavailable
                 <-> exists oid start, validated now st data oid start
                                       /\ conflicts st data oid start <> []))
  \/ (exists oid start,
         validated now st data oid start
         /\ conflicts st data oid start = []
         /\ Db.findBooking newId (bookings st) = None
         /\ let b := Booking.stamp saveNow
                       (new_Booking newId oid (bd_customerId data) (bd_fromPincode data)
                          (bd_toPincode data) start
                          (endOfRide start (bd_fromPincode data) (bd_toPincode data))
                          (estimateDuration (bd_fromPincode data) (bd_toPincode data))
                          Booking.confirmed) in
            createBooking now saveNow newId data st
            = (Ok (b, Db.findVehicle oid (vehicles st)),
               {| vehicles := vehicles st; bookings := bookings st ++ [b] |})).
Proof.
  unfold createBooking, on11000.
  destruct (createBooking_try_cases now saveNow newId data st)
    as [(oid & start & Hv) | (e & He & Hne & Hc)].
  - rewrite (createBooking_try_validated _ saveNow newId _ _ _ _ Hv).
    destruct (Nat.ltb 0 (List.length (conflicts st data oid start))) eqn:Hover.
    + (* the slot is taken *)
      left. exists SlotUnavailable. split; [reflexivity|].
      apply length_pos_iff in Hover. split; [|reflexivity].
      intros _. now exists oid, start.
    + assert (Hnone : conflicts st data oid start = []).
      { destruct (conflicts st data oid start); [reflexivity | discriminate Hover]. }
      unfold bindM.
      match goal with
      | |- context [Db.Booking_save ?n ?d st] =>
          destruct (Booking_save_cases n d st) as [(e & -> & Hne) | (-> & Hval & Hfresh)]
      end.
      * (* the save is refused *)
        left. exists (if code11000 e then BookingConflict else e).
        split; [reflexivity|]. split.
        -- intros H. destruct e; simpl in H; congruence.
        -- intros (oid' & start' & Hv' & Hc').
           destruct (validated_fun _ _ _ _ _ _ _ Hv Hv') as [-> ->]. congruence.
      * (* the booking is saved *)
        right. exists oid, start. now repeat (split; [assumption|]).
  - left. exists e. rewrite He, Hc. split; [reflexivity|]. split.
    + intros H. congruence.
    + intros (oid & start & Hv & Hover).
      rewrite (createBooking_try_validated _ saveNow newId _ _ _ _ Hv) in He.
      apply length_pos_iff in Hover. rewrite Hover in He. congruence.
Qed.



(** C10: for valid 6-digit pincodes estimateDuration returns exactly 0.5
    or an integer between 1 and 23; and every booking that createBooking
    persists ends at most 23 hours after it starts. *)
Theorem duration_at_most_23_hours :
  (forall p q, sixDigits p -> sixDigits q ->
     exists d, calculateEstimatedDuration (Str p) (Str q) = Ok (Some d)
               /\ (d = (1 # 2)%Q \/ exists n, 1 <= n <= 23 /\ d = inject_Z n))
  /\ (forall now saveNow newId data st b v,
        fst (createBooking now saveNow newId data st) = Ok (b, v) ->
        In b (bookings (snd (createBooking now saveNow newId data st)))
        /\ Booking.endTime b - Booking.startTime b <= 23 * 3600000).
Proof.
  split.
  - intros p q Hp Hq. exists (estimateDuration p q).
    split; [now apply calculateEstimatedDuration_valid | apply estimateDuration_cases].
  - intros now saveNow newId data st b v.
    destruct (createBooking_outcome now saveNow newId data st)
      as [(e & -> & _) | (oid & start & _ & _ & _ & ->)]; simpl; [discriminate|].
    intros H. injection H as <- _. split.
    + apply in_or_app. right. now left.
    + simpl.
      pose proof (endOfRide_bounds start (bd_fromPincode data) (bd_toPincode data)).
      lia.
Qed.

Lemma duration_at_most_23_hours_witness :
  (exists d, calculateEstimatedDuration (Str "110001") (Str "110050") = Ok (Some d)
             /\ (d = (1 # 2)%Q \/ exists n, 1 <= n <= 23 /\ d = inject_Z n))
  /\ Booking.endTime Examples.bookingA - Booking.startTime Examples.bookingA
     <= 23 * 3600000.
Proof.
  split.
  - apply (proj1 duration_at_most_23_hours "110001"%string "110050"%string);
      (split; [reflexivity | repeat constructor]).
  - apply (proj2 duration_at_most_23_hours 1000 1000 10%N Examples.request Examples.fleet
             Examples.bookingA (Some Examples.truck)).
    vm_compute. reflexivity.
Defined.

End CreateBooking.

Section ById.
Context {A : Type} (key : A -> ObjectId).

Lemma find_by_id (id : ObjectId) (l : list A) (a : A) :
  find (fun x => N.eqb (key x) id) l = Some a -> In a l /\ key a = id.
Proof.
  intros H. apply find_some in H. destruct H as [Hin Hk].
  apply N.eqb_eq in Hk. now split.
Qed.

Lemma find_updateFirst_same (id : ObjectId) (f : A -> A) (l : list A) (a : A) :
  (forall x, key (f x) = key x) ->
  find (fun x => N.eqb (key x) id) l = Some a ->
  find (fun x => N.eqb (key x) id) (Db.updateFirst (fun x => N.eqb (key x) id) f l)
  = Some (f a).
Proof.
  intros Hk. induction l as [|x l IH]; simpl; [discriminate|].
  destruct (N.eqb (key x) id) eqn:Hx; simpl.
  - intros H. injection H as ->. now rewrite Hk, Hx.
  - rewrite Hx. exact IH.
Qed.

Lemma find_updateFirst_other (id id' : ObjectId) (f : A -> A) (l : list A) :
  (forall x, key (f x) = key x) -> id' <> id ->
  find (fun x => N.eqb (key x) id') (Db.updateFirst (fun x => N.eqb (key x) id) f l)
  = find (fun x => N.eqb (key x) id') l.
Proof.
  intros Hk Hne. induction l as [|x l IH]; simpl; [reflexivity|].
  destruct (N.eqb (key x) id) eqn:Hx; simpl.
  - rewrite Hk. apply N.eqb_eq in Hx.
    assert (Hx' : N.eqb (key x) id' = false) by (apply N.eqb_neq; congruence).
    now rewrite Hx'.
  - now rewrite IH.
Qed.

Lemma map_key_updateFirst (p : A -> bool) (f : A -> A) (l : list A) :
  (forall x, key (f x) = key x) ->
  map key (Db.updateFirst p f l) = map key l.
Proof.
  intros Hk. induction l as [|x l IH]; simpl; [reflexivity|].
  destruct (p x); simpl; [now rewrite Hk | now rewrite IH].
Qed.

End ById.

Section DeleteVehicle.
Import VehicleService.

Lemma activeBookingsQuery_iff (id : ObjectId) (b : Booking.t) :
  activeBookingsQuery id b = true <->
  Booking.vehicleId b = id
  /\ (Booking.status b = Booking.confirmed \/ Booking.status b = Booking.in_progress).
Proof.
  unfold activeBookingsQuery. now rewrite andb_true_iff, N.eqb_eq, isActive_iff.
Qed.

Lemma filter_nonempty_iff {A : Type} (f : A -> bool) (l : list A) :
  filter f l <> [] <-> exists a, In a l /\ f a = true.
Proof.
  split.
  - intros H. destruct (filter f l) as [|a l'] eqn:E; [now contradiction H|].
    exists a. apply filter_In. rewrite E. now left.
  - intros (a & Ha & Hf) E.
    assert (Hin : In a (filter f l)) by (apply filter_In; now split).
    rewrite E in Hin. exact Hin.
Qed.

(** C8: retiring a vehicle fails with HasActiveBookings if and only if
    some booking that references the vehicle is confirmed or in progress;
    when there is none and the vehicle exists, the vehicle stored under
    that id gets status retired and is returned; and in every case no
    vehicle record is removed (the stored ids are the same, in the same
    order) and no booking is touched. *)
Theorem deleteVehicle_soft (now : Z) (id : ObjectId) (st : Store) :
  (fst (deleteVehicle now id st) = Err HasActiveBookings
   <-> exists b, In b (bookings st) /\ Booking.vehicleId b = id
                 /\ (Booking.status b = Booking.confirmed
                     \/ Booking.status b = Booking.in_progress))
  /\ (forall v,
        ~ (exists b, In b (bookings st) /\ Booking.vehicleId b = id
                     /\ (Booking.status b = Booking.confirmed
                         \/ Booking.status b = Booking.in_progress)) ->
        Db.findVehicle id (vehicles st) = Some v ->
        exists v',
          fst (deleteVehicle now id st) = Ok v'
          /\ Db.findVehicle id (vehicles (snd (deleteVehicle now id st))) = Some v'
          /\ Vehicle.status v' = Vehicle.retired
          /\ Vehicle._id v' = Vehicle._id v /\ Vehicle.name v' = Vehicle.name v
          /\ Vehicle.capacityKg v' = Vehicle.capacityKg v
          /\ Vehicle.tyres v' = Vehicle.tyres v
          /\ Vehicle.registrationNumber v' = Vehicle.registrationNumber v)
  /\ map Vehicle._id (vehicles (snd (deleteVehicle now id st)))
     = map Vehicle._id (vehicles st)
  /\ bookings (snd (deleteVehicle now id st)) = bookings st.
Proof.
  unfold deleteVehicle, bindM, failIf, lift, throw_if, throw, ret,
    Db.Booking_find, Db.Vehicle_findByIdAndUpdate.
  destruct (Nat.ltb 0 (List.length (filter (activeBookingsQuery id) (bookings st))))
    eqn:Hact.
  - (* some booking is active *)
    apply length_pos_iff, filter_nonempty_iff in Hact.
    destruct Hact as (b & Hb & Hq). apply activeBookingsQuery_iff in Hq.
    simpl. repeat split; try reflexivity.
    + intros _. exists b. tauto.
    + intros v Hno. exfalso. apply Hno. exists b. tauto.
  - assert (Hno : ~ exists b, In b (bookings st) /\ Booking.vehicleId b = id
                              /\ (Booking.status b = Booking.confirmed
                                  \/ Booking.status b = Booking.in_progress)).
    { intros (b & Hb & Hq).
      assert (Hne : filter (activeBookingsQuery id) (bookings st) <> []).
      { apply filter_nonempty_iff. exists b. split; [exact Hb|].
        now apply activeBookingsQuery_iff. }
      apply length_pos_iff in Hne. congruence. }
    destruct (Db.findVehicle id (vehicles st)) as [v|] eqn:Hv; simpl.
    + repeat split; try reflexivity.
      * discriminate.
      * intros H. now contradiction Hno.
      * intros v0 _ Hv0. injection Hv0 as <-.
        exists (Vehicle.set_status Vehicle.retired now v).
        split; [reflexivity|]. split; [|repeat split].
        unfold Db.findVehicle in *.
        now apply (find_updateFirst_same Vehicle._id).
      * now apply (map_key_updateFirst Vehicle._id).
    + repeat split; try reflexivity.
      * discriminate.
      * intros H. now contradiction Hno.
      * intros v0 _ Hv0. discriminate Hv0.
Qed.

End DeleteVehicle.

Section Doubles.
Import Js.

Lemma pow2_pos (z : Z) : (0 < pow2 z)%Q.
Proof. apply Qpower_0_lt. reflexivity. Qed.

Lemma pow2_plus (a b : Z) : (pow2 (a + b) == pow2 a * pow2 b)%Q.
Proof. apply Qpower_plus. discriminate. Qed.

Lemma pow2_Z (n : Z) : 0 <= n -> (pow2 n == inject_Z (2 ^ n))%Q.
Proof. intros H. unfold pow2. now rewrite (Zpower_Qpower 2 n H). Qed.

Lemma pow2_le (a b : Z) : a <= b -> (pow2 a <= pow2 b)%Q.
Proof. intros H. apply Qpower_le_compat_l; [exact H | discriminate]. Qed.

Lemma pow2_lt_inv (a b : Z) : (pow2 a < pow2 b)%Q -> a < b.
Proof. intros H. apply (Qpower_lt_compat_l_inv 2); [exact H | reflexivity]. Qed.

(** [exponent x] is the integer part of the binary logarithm of [x]. *)
Lemma exponent_spec (x : Q) :
  (0 < x)%Q -> (pow2 (exponent x) <= x)%Q /\ (x < pow2 (exponent x + 1))%Q.
Proof.
  intros Hx. destruct x as [n d].
  assert (Hn : 0 < n) by (unfold Qlt in Hx; simpl in Hx; lia).
  unfold exponent. simpl Qnum. simpl Qden.
  set (ln := Z.log2 n). set (ld := Z.log2 (Z.pos d)).
  assert (Hln : 2 ^ ln <= n < 2 ^ Z.succ ln) by (apply Z.log2_spec; exact Hn).
  assert (Hld : 2 ^ ld <= Z.pos d < 2 ^ Z.succ ld) by (apply Z.log2_spec; lia).
  assert (Hln0 : 0 <= ln) by apply Z.log2_nonneg.
  assert (Hld0 : 0 <= ld) by apply Z.log2_nonneg.
  assert (Hpn : 0 < 2 ^ ln) by (apply Z.pow_pos_nonneg; lia).
  assert (Hpd : 0 < 2 ^ ld) by (apply Z.pow_pos_nonneg; lia).
  (* pow2 of a difference as a quotient of integers *)
  assert (Hq : forall a b, 0 <= a -> 0 <= b ->
                 (pow2 (a - b) == inject_Z (2 ^ a) / inject_Z (2 ^ b))%Q).
  { intros a b Ha Hb. unfold pow2. rewrite Qpower_minus by discriminate.
    rewrite !Zpower_Qpower by assumption. reflexivity. }
  assert (Hup : (n # d < pow2 (ln - ld + 1))%Q).
  { replace (ln - ld + 1) with (Z.succ ln - ld) by lia.
    rewrite Hq by lia. apply Qlt_shift_div_l.
    - unfold Qlt. simpl. lia.
    - generalize dependent (2 ^ Z.succ ln). generalize dependent (2 ^ ld).
      intros pd Hd Hpd pn Hnn. unfold Qlt, Qmult, inject_Z. cbn [Qnum Qden].
      rewrite Pos.mul_1_r. nia. }
  assert (Hlow : (pow2 (ln - ld - 1) <= n # d)%Q).
  { replace (ln - ld - 1) with (ln - Z.succ ld) by lia.
    assert (Hsd : 0 < 2 ^ Z.succ ld) by (apply Z.pow_pos_nonneg; lia).
    rewrite Hq by lia. apply Qle_shift_div_r.
    - unfold Qlt. simpl. lia.
    - generalize dependent (2 ^ Z.succ ld). generalize dependent (2 ^ ln).
      intros pn Hnn _ pd Hd _. unfold Qle, Qmult, inject_Z. cbn [Qnum Qden]. nia. }
  destruct (Qle_bool (pow2 (ln - ld)) (n # d)) eqn:E.
  - apply Qle_bool_iff in E. split; [exact E | exact Hup].
  - split; [exact Hlow|].
    replace (ln - ld - 1 + 1) with (ln - ld) by lia.
    apply Qnot_le_lt. intros H. apply Qle_bool_iff in H. congruence.
Qed.

Lemma exponent_lt (x : Q) (b : Z) : (0 < x)%Q -> (x < pow2 b)%Q -> exponent x < b.
Proof.
  intros Hx Hb. destruct (exponent_spec x Hx) as [Hlow _].
  apply pow2_lt_inv. now apply Qle_lt_trans with x.
Qed.

Lemma exponent_ge (x : Q) (b : Z) : (pow2 b <= x)%Q -> b <= exponent x.
Proof.
  intros Hb.
  assert (Hx : (0 < x)%Q) by (apply Qlt_le_trans with (pow2 b); [apply pow2_pos | exact Hb]).
  destruct (exponent_spec x Hx) as [_ Hup].
  assert (H : b < exponent x + 1).
  { apply pow2_lt_inv. now apply Qle_lt_trans with x. }
  lia.
Qed.

Lemma roundHalfEven_Z (q : Q) (k : Z) : (q == inject_Z k)%Q -> roundHalfEven q = k.
Proof.
  intros H. unfold roundHalfEven.
  assert (Hf : Qfloor q = k) by (rewrite (Qfloor_comp _ _ H); apply Qfloor_Z).
  rewrite Hf.
  assert (E : (q - inject_Z k ?= 1 # 2)%Q = Lt).
  { rewrite <- Qlt_alt. lra. }
  now rewrite E.
Qed.

Lemma roundHalfEven_error (q : Q) :
  (Qabs (inject_Z (roundHalfEven q) - q) <= 1 # 2)%Q.
Proof.
  unfold roundHalfEven.
  pose proof (Qfloor_le q) as Hlo. pose proof (Qlt_floor q) as Hhi.
  assert (Hf1 : (inject_Z (Qfloor q + 1) == inject_Z (Qfloor q) + 1)%Q)
    by (rewrite inject_Z_plus; reflexivity).
  rewrite Hf1 in Hhi.
  destruct (q - inject_Z (Qfloor q) ?= 1 # 2)%Q eqn:E.
  - apply Qeq_alt in E.
    destruct (Z.even (Qfloor q)); apply Qabs_case; intros _; lra.
  - apply Qlt_alt in E. apply Qabs_case; intros _; lra.
  - apply Qgt_alt in E. apply Qabs_case; intros _; lra.
Qed.

(** A rational that has at most 53 significant bits above 2^-1074 is a
    double, and rounding leaves it as it is. *)
Lemma double_exact (x : Q) (k j : Z) :
  (x == inject_Z k * pow2 j)%Q -> Z.abs k < 2 ^ 53 -> -1074 <= j ->
  (double x == x)%Q.
Proof.
  intros Hx Hk Hj. unfold double.
  destruct (Qeq_bool x 0) eqn:E0; [apply Qeq_bool_iff in E0; now rewrite E0|].
  assert (Hne : ~ (x == 0)%Q) by (intros H; apply Qeq_bool_iff in H; congruence).
  assert (Hk0 : k <> 0).
  { intros ->. apply Hne. rewrite Hx. apply Qmult_0_l. }
  assert (Ha : (Qabs x == inject_Z (Z.abs k) * pow2 j)%Q).
  { rewrite Hx, Qabs_Qmult, (Qabs_pos (pow2 j)) by (apply Qlt_le_weak, pow2_pos).
    reflexivity. }
  set (a := Qabs x) in *.
  assert (Hapos : (0 < a)%Q).
  { rewrite Ha. apply Qmult_lt_0_compat; [|apply pow2_pos].
    unfold Qlt. simpl. lia. }
  assert (He : exponent a < 53 + j).
  { apply exponent_lt; [exact Hapos|]. rewrite Ha, pow2_plus.
    apply Qmult_lt_compat_r; [apply pow2_pos|].
    rewrite pow2_Z by lia. rewrite <- Zlt_Qlt. exact Hk. }
  set (t := Z.max (exponent a) (-1022) - 52).
  assert (Ht : t <= j) by (unfold t; lia).
  assert (Hint : (a / pow2 t == inject_Z (Z.abs k * 2 ^ (j - t)))%Q).
  { rewrite Ha, inject_Z_mult, <- pow2_Z by lia.
    unfold Qdiv. rewrite <- Qmult_assoc. apply Qmult_comp; [reflexivity|].
    unfold pow2. rewrite Qpower_minus by discriminate. reflexivity. }
  rewrite (roundHalfEven_Z _ _ Hint).
  assert (Hm : (inject_Z (Z.abs k * 2 ^ (j - t)) * pow2 t == a)%Q).
  { rewrite <- Hint. field. apply Qnot_eq_sym, Qlt_not_eq, pow2_pos. }
  destruct (Qle_bool 0 x) eqn:Es; cbv zeta; rewrite Hm; unfold a.
  - apply Qle_bool_iff in Es. now apply Qabs_pos.
  - assert (Hneg : (x <= 0)%Q).
    { apply Qlt_le_weak, Qnot_le_lt. intros H. apply Qle_bool_iff in H. congruence. }
    rewrite (Qabs_neg x Hneg). lra.
Qed.

Lemma double_Z (k : Z) : Z.abs k < 2 ^ 53 -> (double (inject_Z k) == inject_Z k)%Q.
Proof.
  intros Hk. apply (double_exact _ k 0); [|exact Hk | lia].
  unfold pow2. simpl. lra.
Qed.

(** Half-integers below 2^52 are doubles. *)
Lemma double_half (k : Z) :
  Z.abs k < 2 ^ 53 -> (double (inject_Z k / 2) == inject_Z k / 2)%Q.
Proof.
  intros Hk. apply (double_exact _ k (-1)); [|exact Hk | lia].
  unfold pow2. simpl. field.
Qed.

(** The relative error of rounding a positive number of the normal
    range is at most 2^-53. *)
Lemma double_error (x : Q) :
  (pow2 (-1022) <= x)%Q -> (Qabs (double x - x) <= x * pow2 (-53))%Q.
Proof.
  intros Hx.
  assert (Hpos : (0 < x)%Q).
  { apply Qlt_le_trans with (pow2 (-1022)); [apply pow2_pos | exact Hx]. }
  unfold double.
  assert (E0 : Qeq_bool x 0 = false).
  { destruct (Qeq_bool x 0) eqn:E; [|reflexivity].
    apply Qeq_bool_iff in E. rewrite E in Hpos. discriminate Hpos. }
  rewrite E0.
  assert (Es : Qle_bool 0 x = true) by (apply Qle_bool_iff; lra).
  rewrite Es.
  assert (Habs : Qabs x = x).
  { destruct x as [n d]. unfold Qlt in Hpos. simpl in Hpos. unfold Qabs.
    now rewrite Z.abs_eq by lia. }
  rewrite Habs.
  pose proof (exponent_ge x (-1022) Hx) as He.
  rewrite Z.max_l by lia.
  destruct (exponent_spec x Hpos) as [Hlow _].
  set (e := exponent x) in *. set (u := pow2 (e - 52)).
  assert (Hu : (0 < u)%Q) by apply pow2_pos.
  pose proof (roundHalfEven_error (x / u)) as Hr.
  assert (Hscale : (inject_Z (roundHalfEven (x / u)) * u - x
                    == (inject_Z (roundHalfEven (x / u)) - x / u) * u)%Q).
  { field. lra. }
  rewrite Hscale, Qabs_Qmult, (Qabs_pos u) by lra.
  apply Qle_trans with ((1 # 2) * u)%Q.
  - apply Qmult_le_compat_r; [exact Hr | lra].
  - assert (Hhalf : ((1 # 2) * u == pow2 e * pow2 (-53))%Q).
    { unfold u. replace (e - 52) with (e + -53 + 1) by lia.
      rewrite !pow2_plus. unfold pow2 at 3. simpl. field. }
    rewrite Hhalf. apply Qmult_le_compat_r; [exact Hlow|].
    apply Qlt_le_weak, pow2_pos.
Qed.


Lemma roundHalfEven_mono (q q' : Q) :
  (q <= q')%Q -> roundHalfEven q <= roundHalfEven q'.
Proof.
  intros H. unfold roundHalfEven.
  pose proof (Qfloor_resp_le _ _ H) as Hf.
  pose proof (Qfloor_le q) as Hlo. pose proof (Qlt_floor q) as Hhi.
  pose proof (Qfloor_le q') as Hlo'. pose proof (Qlt_floor q') as Hhi'.
  destruct (Z.eq_dec (Qfloor q) (Qfloor q')) as [He | Hne].
  - rewrite <- He in *.
    destruct (q - inject_Z (Qfloor q) ?= 1 # 2)%Q eqn:E;
      destruct (q' - inject_Z (Qfloor q) ?= 1 # 2)%Q eqn:E';
      first [apply Qeq_alt in E | apply Qlt_alt in E | apply Qgt_alt in E];
      first [apply Qeq_alt in E' | apply Qlt_alt in E' | apply Qgt_alt in E'];
      destruct (Z.even (Qfloor q)); cbv iota; try lia; exfalso; lra.
  - destruct (q - inject_Z (Qfloor q) ?= 1 # 2)%Q;
      destruct (q' - inject_Z (Qfloor q') ?= 1 # 2)%Q;
      destruct (Z.even (Qfloor q)); destruct (Z.even (Qfloor q')); cbv iota; lia.
Qed.

Lemma Qabs_of_pos (x : Q) : (0 < x)%Q -> Qabs x = x.
Proof.
  destruct x as [n d]. unfold Qlt. simpl. intros H. unfold Qabs.
  now rewrite Z.abs_eq by lia.
Qed.

Lemma Qabs_of_neg (x : Q) : (x < 0)%Q -> Qabs x = (- x)%Q.
Proof.
  destruct x as [n d]. unfold Qlt. simpl. intros H. unfold Qabs, Qopp. simpl.
  now rewrite Z.abs_neq by lia.
Qed.

Lemma double_zero (x : Q) : (x == 0)%Q -> double x = 0%Q.
Proof. intros H. unfold double. apply Qeq_bool_iff in H. now rewrite H. Qed.

Lemma double_pos (x : Q) :
  (0 < x)%Q -> double x = (inject_Z (roundHalfEven (x / ulp x)) * ulp x)%Q.
Proof.
  intros Hpos. unfold double, ulp.
  assert (E0 : Qeq_bool x 0 = false).
  { destruct (Qeq_bool x 0) eqn:E; [|reflexivity].
    apply Qeq_bool_iff in E. rewrite E in Hpos. discriminate Hpos. }
  assert (Es : Qle_bool 0 x = true) by (apply Qle_bool_iff; lra).
  now rewrite E0, Es, (Qabs_of_pos x Hpos).
Qed.

Lemma double_neg (x : Q) : (x < 0)%Q -> double x = (- double (- x))%Q.
Proof.
  intros Hneg.
  assert (Hpos : (0 < - x)%Q) by lra.
  rewrite (double_pos _ Hpos). unfold double.
  assert (E0 : Qeq_bool x 0 = false).
  { destruct (Qeq_bool x 0) eqn:E; [|reflexivity].
    apply Qeq_bool_iff in E. rewrite E in Hneg. discriminate Hneg. }
  assert (Es : Qle_bool 0 x = false).
  { destruct (Qle_bool 0 x) eqn:E; [|reflexivity].
    apply Qle_bool_iff in E. exfalso. lra. }
  now rewrite E0, Es, (Qabs_of_neg x Hneg).
Qed.

Lemma ulp_pos (x : Q) : (0 < ulp x)%Q.
Proof. apply pow2_pos. Qed.

(** Between 2^E and 2^(E+1), E = max(e, -1022), the doubles are the
    multiples of the ulp; both ends are doubles. *)
Lemma double_pos_bounds (x : Q) :
  (0 < x)%Q ->
  let E := Z.max (exponent x) (-1022) in
  (double x <= pow2 (E + 1))%Q
  /\ (-1022 <= exponent x -> (pow2 E <= double x)%Q)
  /\ (0 <= double x)%Q.
Proof.
  intros Hpos E. rewrite (double_pos x Hpos). fold E.
  destruct (exponent_spec x Hpos) as [Hlow Hup].
  assert (Hu : (0 < ulp x)%Q) by apply ulp_pos.
  assert (Hulp : ulp x = pow2 (E - 52)) by reflexivity.
  split; [|split].
  - assert (Htop : (pow2 (E + 1) == inject_Z (2 ^ 53) * ulp x)%Q).
    { rewrite Hulp, <- pow2_Z, <- pow2_plus by lia. now replace (53 + (E - 52)) with (E + 1) by lia. }
    rewrite Htop. apply Qmult_le_compat_r; [|lra].
    rewrite <- Zle_Qle.
    rewrite <- (roundHalfEven_Z (inject_Z (2 ^ 53)) (2 ^ 53)) by reflexivity.
    apply roundHalfEven_mono. apply Qle_shift_div_r; [exact Hu|].
    rewrite <- Htop. apply Qlt_le_weak, Qlt_le_trans with (pow2 (exponent x + 1)); [exact Hup|].
    apply pow2_le. lia.
  - intros He.
    assert (Hbot : (pow2 E == inject_Z (2 ^ 52) * ulp x)%Q).
    { rewrite Hulp, <- pow2_Z, <- pow2_plus by lia. now replace (52 + (E - 52)) with E by lia. }
    rewrite Hbot. apply Qmult_le_compat_r; [|lra].
    rewrite <- Zle_Qle.
    rewrite <- (roundHalfEven_Z (inject_Z (2 ^ 52)) (2 ^ 52)) by reflexivity.
    apply roundHalfEven_mono. apply Qle_shift_div_l; [exact Hu|].
    rewrite <- Hbot. unfold E. now rewrite Z.max_l by lia.
  - apply Qmult_le_0_compat; [|lra].
    change 0%Q with (inject_Z 0). rewrite <- Zle_Qle.
    rewrite <- (roundHalfEven_Z (inject_Z 0) 0) at 1 by reflexivity.
    apply roundHalfEven_mono. apply Qle_shift_div_l; [exact Hu|].
    change (inject_Z 0) with 0%Q. lra.
Qed.

Lemma double_mono_pos (x y : Q) :
  (0 < x)%Q -> (x <= y)%Q -> (double x <= double y)%Q.
Proof.
  intros Hx Hxy.
  assert (Hy : (0 < y)%Q) by lra.
  destruct (exponent_spec x Hx) as [Hxl Hxu].
  destruct (exponent_spec y Hy) as [Hyl Hyu].
  assert (He : exponent x <= exponent y).
  { assert (H : exponent x < exponent y + 1); [|lia].
    apply pow2_lt_inv. lra. }
  destruct (Z.eq_dec (Z.max (exponent x) (-1022)) (Z.max (exponent y) (-1022)))
    as [Heq | Hne].
  - rewrite (double_pos x Hx), (double_pos y Hy).
    assert (Hu : ulp y = ulp x) by (unfold ulp; now rewrite Heq).
    rewrite Hu. pose proof (ulp_pos x) as Hup.
    apply Qmult_le_compat_r; [|lra].
    rewrite <- Zle_Qle. apply roundHalfEven_mono.
    unfold Qdiv. apply Qmult_le_compat_r; [exact Hxy|].
    apply Qlt_le_weak, Qinv_lt_0_compat, Hup.
  - destruct (double_pos_bounds x Hx) as (Htop & _ & _).
    destruct (double_pos_bounds y Hy) as (_ & Hbot & _).
    cbv zeta in Htop, Hbot.
    assert (Hy1 : -1022 <= exponent y) by lia.
    specialize (Hbot Hy1).
    apply Qle_trans with (pow2 (Z.max (exponent x) (-1022) + 1)); [exact Htop|].
    apply Qle_trans with (pow2 (Z.max (exponent y) (-1022))); [|exact Hbot].
    apply pow2_le. lia.
Qed.

Lemma double_nonneg (x : Q) : (0 <= x)%Q -> (0 <= double x)%Q.
Proof.
  intros H. destruct (Qlt_le_dec 0 x) as [Hpos | Hle].
  - now apply double_pos_bounds.
  - rewrite double_zero by lra. apply Qle_refl.
Qed.

(** Rounding is monotone. *)
Lemma double_mono (x y : Q) : (x <= y)%Q -> (double x <= double y)%Q.
Proof.
  intros Hxy.
  destruct (Qlt_le_dec 0 x) as [Hx | Hx].
  - now apply double_mono_pos.
  - destruct (Qlt_le_dec x 0) as [Hx' | Hx0].
    + rewrite (double_neg x Hx').
      destruct (Qlt_le_dec y 0) as [Hy | Hy].
      * rewrite (double_neg y Hy).
        assert (H : (double (- y) <= double (- x))%Q) by (apply double_mono_pos; lra).
        lra.
      * pose proof (double_nonneg y Hy). pose proof (double_nonneg (- x)) as H1.
        assert (0 <= - x)%Q by lra. specialize (H1 H0). lra.
    + rewrite (double_zero x) by lra. apply double_nonneg. lra.
Qed.

Lemma double_comp (x y : Q) : (x == y)%Q -> (double x == double y)%Q.
Proof.
  intros H. apply Qle_antisym; apply double_mono; rewrite H; apply Qle_refl.
Qed.

(** 0.1 is 0x1.999999999999ap-4, and 5.5 / 3 is 1.8333333333333333. *)
Example double_tenth :
  (double (1 # 10) == 3602879701896397 # 36028797018963968)%Q.
Proof. vm_compute. reflexivity. Qed.

Example div_eleven_halves_by_three :
  (div (11 # 2) 3 == 8256599316845909 # 4503599627370496)%Q.
Proof. vm_compute. reflexivity. Qed.

(** 0.1 + 0.2 is 0.30000000000000004, and 0.001 * 60 * 60 * 1000 is
    3599.9999999999995. *)
Example add_tenth_fifth :
  (add (double (1 # 10)) (double (2 # 10)) == 1351079888211149 # 4503599627370496)%Q.
Proof. vm_compute. reflexivity. Qed.

Example mul_thousandth_of_an_hour :
  (mul (mul (mul (double (1 # 1000)) 60) 60) 1000
   == 7916483719987199 # 2199023255552)%Q.
Proof. vm_compute. reflexivity. Qed.

End Doubles.

Section Utilization.
Import Js VehicleService Spec.

Lemma halfHours_spec (b : Booking.t) :
  halfHours b = true ->
  exists k, 1 <= k <= 2 ^ 20
            /\ (Booking.estimatedRideDurationHours b == inject_Z k / 2)%Q.
Proof.
  unfold halfHours. cbv zeta. rewrite !andb_true_iff, Qeq_bool_iff, !Z.leb_le.
  intros [[Hq H1] H2]. eexists. split; [split; eassumption|].
  rewrite <- Hq. field.
Qed.

Lemma forallb_cons {A : Type} (f : A -> bool) (x : A) (l : list A) :
  forallb f (x :: l) = true <-> f x = true /\ forallb f l = true.
Proof. simpl. apply andb_true_iff. Qed.

(** Adding half hours up is exact: every partial sum is a double. *)
Lemma fold_add_exact (l : list Booking.t) :
  forall (acc : Q) (K : Z),
    (acc == inject_Z K / 2)%Q -> 0 <= K ->
    K + 2 ^ 20 * Z.of_nat (List.length l) < 2 ^ 53 ->
    forallb halfHours l = true ->
    (fold_left (fun sum b => add sum (Booking.estimatedRideDurationHours b)) l acc
     == acc + totalHours l)%Q.
Proof.
  induction l as [|b l IH]; intros acc K Hacc HK Hlen Hall.
  - simpl. now rewrite Qplus_0_r.
  - apply forallb_cons in Hall. destruct Hall as [Hb Hall].
    destruct (halfHours_spec b Hb) as (k & Hk & Hd).
    cbn [fold_left totalHours]. cbn [List.length] in Hlen.
    assert (Hstep : (add acc (Booking.estimatedRideDurationHours b)
                     == inject_Z (K + k) / 2)%Q).
    { unfold add. rewrite (double_exact _ (K + k) (-1)).
      - rewrite Hacc, Hd, inject_Z_plus. field.
      - rewrite Hacc, Hd, inject_Z_plus. unfold pow2. simpl. field.
      - lia.
      - lia. }
    rewrite (IH _ (K + k) Hstep) by (try assumption; lia).
    rewrite Hstep, Hacc, Hd, inject_Z_plus. field.
Qed.

Lemma sumHours_addedTo (l : list Booking.t) : sumHours l = addedTo 0 l.
Proof.
  unfold sumHours. generalize 0%Q. induction l as [|b l IH]; intros acc; simpl;
    [reflexivity | apply IH].
Qed.

Lemma sumHours_exact (l : list Booking.t) :
  forallb halfHours l = true -> fewBookings l ->
  (sumHours l == totalHours l)%Q.
Proof.
  intros Hall Hfew. unfold sumHours, fewBookings in *.
  rewrite (fold_add_exact l 0 0); [apply Qplus_0_l | reflexivity | lia | lia | exact Hall].
Qed.

Lemma moderate_spec (b : Booking.t) :
  moderate b = true ->
  (1 # 10 <= Booking.estimatedRideDurationHours b)%Q
  /\ (Booking.estimatedRideDurationHours b <= pow2 1000)%Q.
Proof. unfold moderate. now rewrite andb_true_iff, !Qle_bool_iff. Qed.

Lemma near_iff (eps x y : Q) :
  near eps x y <-> (- (y * eps) <= x - y)%Q /\ (x - y <= y * eps)%Q.
Proof. unfold near. apply Qabs_Qle_condition. Qed.

Lemma tenth_normal : (pow2 (-1022) <= 1 # 10)%Q.
Proof.
  apply Qle_trans with (pow2 (-4)); [apply pow2_le; lia|].
  unfold pow2. simpl. unfold Qle. simpl. lia.
Qed.

Lemma roundoff_pos : (0 < roundoff)%Q.
Proof. apply pow2_pos. Qed.

Lemma double_near (x : Q) : (pow2 (-1022) <= x)%Q -> near roundoff (double x) x.
Proof. apply double_error. Qed.

Lemma Qpower_succ (a : Q) (n : nat) :
  (0 < a)%Q -> (a ^ Z.of_nat (S n) == a * a ^ Z.of_nat n)%Q.
Proof.
  intros Ha. rewrite Nat2Z.inj_succ. unfold Z.succ.
  rewrite Qpower_plus by lra. rewrite Qmult_comm. reflexivity.
Qed.

(** One more addition: the error of the accumulator grows by one
    rounding. *)
Lemma add_near (eps acc A d : Q) :
  (0 <= eps)%Q -> (0 <= A)%Q -> (0 <= acc)%Q -> (1 # 10 <= d)%Q ->
  near eps acc A ->
  near ((1 + eps) * (1 + roundoff) - 1) (add acc d) (A + d).
Proof.
  intros He HA Hacc Hd Hnear. unfold add.
  assert (Hn : (pow2 (-1022) <= acc + d)%Q).
  { pose proof tenth_normal. lra. }
  pose proof (double_near _ Hn) as Hr.
  pose proof roundoff_pos as Hu.
  apply near_iff in Hnear, Hr. apply near_iff.
  generalize dependent (double (acc + d)). generalize dependent roundoff.
  intros u Hu r [Hr1 Hr2]. destruct Hnear as [Ha1 Ha2].
  assert (H1 : (0 <= d * eps)%Q) by (apply Qmult_le_0_compat; lra).
  assert (H2 : (0 <= d * eps * u)%Q) by (apply Qmult_le_0_compat; lra).
  assert (H3 : ((acc - A) * u <= A * eps * u)%Q)
    by (apply Qmult_le_compat_r; lra).
  assert (H4 : (- (A * eps) * u <= (acc - A) * u)%Q)
    by (apply Qmult_le_compat_r; lra).
  assert (H5 : (0 <= A * eps * u)%Q).
  { apply Qmult_le_0_compat; [apply Qmult_le_0_compat|]; lra. }
  split.
  - apply Qle_trans with (- ((acc + d) * u) - A * eps)%Q; [|lra].
    setoid_replace (- ((A + d) * ((1 + eps) * (1 + u) - 1)))%Q
      with (- (A * eps) - A * u - A * eps * u - d * eps - d * u - d * eps * u)%Q by ring.
    setoid_replace (- ((acc + d) * u) - A * eps)%Q
      with (- (A * eps) - A * u - (acc - A) * u - d * u)%Q by ring.
    lra.
  - apply Qle_trans with ((acc + d) * u + A * eps)%Q; [lra|].
    setoid_replace ((A + d) * ((1 + eps) * (1 + u) - 1))%Q
      with (A * eps + A * u + A * eps * u + d * eps + d * u + d * eps * u)%Q by ring.
    setoid_replace ((acc + d) * u + A * eps)%Q
      with (A * eps + A * u + (acc - A) * u + d * u)%Q by ring.
    lra.
Qed.

Lemma totalHours_nonneg (l : list Booking.t) :
  forallb moderate l = true -> (0 <= totalHours l)%Q.
Proof.
  induction l as [|b l IH]; intros Hall; simpl; [apply Qle_refl|].
  apply forallb_cons in Hall. destruct Hall as [Hb Hall].
  destruct (moderate_spec b Hb) as [Hd _]. specialize (IH Hall). lra.
Qed.

(** Adding up from left to right: the error is at most one rounding per
    addition. *)
Lemma fold_add_near (l : list Booking.t) :
  forall (eps acc A : Q),
    (0 <= eps)%Q -> (0 <= A)%Q -> (0 <= acc)%Q -> near eps acc A ->
    forallb moderate l = true ->
    near ((1 + eps) * (1 + roundoff) ^ Z.of_nat (List.length l) - 1)
         (fold_left (fun sum b => add sum (Booking.estimatedRideDurationHours b)) l acc)
         (A + totalHours l).
Proof.
  pose proof roundoff_pos as Hu.
  induction l as [|b l IH]; intros eps acc A He HA Hacc Hnear Hall.
  - simpl. unfold near in *.
    setoid_replace (acc - (A + 0))%Q with (acc - A)%Q by ring.
    setoid_replace ((A + 0) * ((1 + eps) * 1 - 1))%Q with (A * eps)%Q by ring.
    exact Hnear.
  - apply forallb_cons in Hall. destruct Hall as [Hb Hall].
    destruct (moderate_spec b Hb) as [Hd _].
    cbn [fold_left totalHours List.length].
    pose proof (add_near eps acc A _ He HA Hacc Hd Hnear) as Hstep.
    assert (He' : (0 <= (1 + eps) * (1 + roundoff) - 1)%Q).
    { assert (0 <= eps * roundoff)%Q by (apply Qmult_le_0_compat; lra).
      setoid_replace ((1 + eps) * (1 + roundoff) - 1)%Q
        with (eps + roundoff + eps * roundoff)%Q by ring. lra. }
    assert (Hacc' : (0 <= add acc (Booking.estimatedRideDurationHours b))%Q).
    { apply double_nonneg. lra. }
    assert (HA' : (0 <= A + Booking.estimatedRideDurationHours b)%Q) by lra.
    pose proof (IH _ _ _ He' HA' Hacc' Hstep Hall) as H.
    unfold near in *.
    rewrite Qpower_succ by lra.
    setoid_replace (A + (Booking.estimatedRideDurationHours b + totalHours l))%Q
      with (A + Booking.estimatedRideDurationHours b + totalHours l)%Q by ring.
    setoid_replace ((1 + eps) * ((1 + roundoff) * (1 + roundoff) ^ Z.of_nat (List.length l)) - 1)%Q
      with ((1 + ((1 + eps) * (1 + roundoff) - 1))
            * (1 + roundoff) ^ Z.of_nat (List.length l) - 1)%Q by ring.
    exact H.
Qed.

Lemma sumHours_near (l : list Booking.t) :
  forallb moderate l = true ->
  near (roundings (List.length l)) (sumHours l) (totalHours l).
Proof.
  intros Hall.
  assert (H0 : near 0 0 0) by (unfold near; simpl; discriminate).
  pose proof (fold_add_near l 0 0 0 (Qle_refl 0) (Qle_refl 0) (Qle_refl 0) H0 Hall) as H.
  unfold near, roundings, sumHours in *.
  setoid_replace (0 + totalHours l)%Q with (totalHours l) in H by ring.
  setoid_replace ((1 + 0) * (1 + roundoff) ^ Z.of_nat (List.length l) - 1)%Q
    with ((1 + roundoff) ^ Z.of_nat (List.length l) - 1)%Q in H by ring.
  exact H.
Qed.

Lemma sixteenth_double : (double (pow2 (-4)) == pow2 (-4))%Q.
Proof.
  apply (double_exact _ 1 (-4)); [|reflexivity | lia].
  now rewrite Qmult_1_l.
Qed.

Lemma fold_add_lower (l : list Booking.t) :
  forall acc : Q,
    (0 <= acc)%Q -> forallb moderate l = true ->
    (l <> [] \/ pow2 (-4) <= acc)%Q ->
    (pow2 (-4)
     <= fold_left (fun sum b => add sum (Booking.estimatedRideDurationHours b)) l acc)%Q.
Proof.
  assert (H16 : (pow2 (-4) <= 1 # 10)%Q).
  { unfold pow2. simpl. unfold Qle. simpl. lia. }
  induction l as [|b l IH]; intros acc Hacc Hall Hor.
  - simpl. destruct Hor as [H | H]; [now contradiction H | exact H].
  - apply forallb_cons in Hall. destruct Hall as [Hb Hall].
    destruct (moderate_spec b Hb) as [Hd _].
    cbn [fold_left]. apply IH; [apply double_nonneg; lra | exact Hall|].
    right. rewrite <- sixteenth_double. apply double_mono. lra.
Qed.

Lemma sumHours_lower (l : list Booking.t) :
  l <> [] -> forallb moderate l = true -> (pow2 (-4) <= sumHours l)%Q.
Proof.
  intros Hne Hall. apply fold_add_lower; [apply Qle_refl | exact Hall | now left].
Qed.

(** The average of a positive total over at most 2^20 values is in the
    normal range of the doubles. *)
Lemma average_normal (total : Q) (n : nat) :
  (pow2 (-4) <= total)%Q -> (0 < n)%nat -> Z.of_nat n <= 2 ^ 20 ->
  (pow2 (-1022) <= total / inject_Z (Z.of_nat n))%Q.
Proof.
  intros Ht Hn Hfew.
  assert (Hpos : (0 < inject_Z (Z.of_nat n))%Q).
  { change 0%Q with (inject_Z 0). rewrite <- Zlt_Qlt. lia. }
  apply Qle_shift_div_l; [exact Hpos|].
  apply Qle_trans with (pow2 (-1022) * inject_Z (2 ^ 20))%Q.
  - apply Qmult_le_l; [apply pow2_pos|]. now rewrite <- Zle_Qle.
  - rewrite <- pow2_Z, <- pow2_plus by lia.
    apply Qle_trans with (pow2 (-4)); [apply pow2_le; lia | exact Ht].
Qed.

Lemma halfHours_moderate (b : Booking.t) : halfHours b = true -> moderate b = true.
Proof.
  intros H. destruct (halfHours_spec b H) as (k & [Hk1 Hk2] & Hd).
  unfold moderate. rewrite andb_true_iff, !Qle_bool_iff, Hd. split.
  - apply Qle_shift_div_l; [reflexivity|].
    apply Qle_trans with (inject_Z 1); [discriminate | now rewrite <- Zle_Qle].
  - apply Qle_shift_div_r; [reflexivity|].
    apply Qle_trans with (inject_Z (2 ^ 20)); [now rewrite <- Zle_Qle|].
    rewrite <- pow2_Z by lia.
    apply Qle_trans with (pow2 1000); [apply pow2_le; lia|].
    rewrite <- (Qmult_1_r (pow2 1000)) at 1.
    apply Qmult_le_l; [apply pow2_pos | discriminate].
Qed.

Lemma forallb_halfHours_moderate (l : list Booking.t) :
  forallb halfHours l = true -> forallb moderate l = true.
Proof.
  rewrite !forallb_forall. intros H b Hb. apply halfHours_moderate. now apply H.
Qed.

Lemma bound_valid (t : TimeArg) (cmp : Z -> Z -> bool) :
  t <> BadTime ->
  exists f, bound t cmp = Ok f
            /\ forall x, f x = true <-> forall d, t = TimeAt d -> cmp d x = true.
Proof.
  intros Ht. unfold bound. destruct t as [| |d]; simpl.
  - exists (fun _ => true). split; [reflexivity|].
    intros x. split; [intros _ d Hd; discriminate Hd | reflexivity].
  - now contradiction Ht.
  - exists (cmp d). split; [reflexivity|].
    intros x. split.
    + intros H d' Hd'. now injection Hd' as <-.
    + intros H. now apply H.
Qed.

Lemma utilizationQuery_valid (id : ObjectId) (r : DateRange) :
  startDate r <> BadTime -> endDate r <> BadTime ->
  exists q, utilizationQuery id r = Ok q
            /\ forall b, q b = true <->
                         Booking.vehicleId b = id /\ inRange r (Booking.createdAt b).
Proof.
  intros Hs He. unfold utilizationQuery, inRange.
  destruct (bound_valid (startDate r) Z.leb Hs) as (gte & Hg & Hgte).
  destruct (bound_valid (endDate r) Z.geb He) as (lte & Hl & Hlte).
  destruct (truthyTime (startDate r) || truthyTime (endDate r)) eqn:Hany.
  - rewrite Hg, Hl. simpl. eexists. split; [reflexivity|].
    intros b. rewrite !andb_true_iff, N.eqb_eq, Hgte, Hlte.
    split.
    + intros [[Hv H1] H2]. split; [exact Hv|]. split.
      * intros s Hs'. apply Z.leb_le. now apply H1.
      * intros e He'. specialize (H2 e He'). rewrite Z.geb_le in H2. lia.
    + intros [Hv [H1 H2]]. repeat split; auto.
      * intros d Hd. apply Z.leb_le. now apply H1.
      * intros d Hd. rewrite Z.geb_le. specialize (H2 d Hd). lia.
  - apply orb_false_iff in Hany. destruct Hany as [Hs0 He0].
    eexists. split; [reflexivity|].
    intros b. rewrite N.eqb_eq. split; [|tauto].
    intros Hv. split; [exact Hv|]. split.
    + intros s Hs'. rewrite Hs' in Hs0. discriminate Hs0.
    + intros e He'. rewrite He' in He0. discriminate He0.
Qed.

(** C9: for an existing vehicle and a creation-time date range (possibly
    empty) whose bounds are absent or dates, utilization reads only and
    returns totalHoursBooked equal to the sum of
    estimatedRideDurationHours over all fetched bookings, that is over all
    bookings of the vehicle created within the range whatever their status
    (cancelled ones included), and averageRideDuration equal to that sum
    divided by the number of fetched bookings, or 0 when none was
    fetched.  Sum and quotient are those of JavaScript numbers: the
    durations are added one after the other from the left, each addition
    and the division rounded to the nearest double.  When the durations
    are whole numbers of half hours (as all that createBooking stores
    are) the sum is exact and the average is the double nearest to the
    exact quotient; for any durations within the schema the sum is within
    one rounding per booking of the exact sum, and the average within one
    rounding of the quotient.  (The bounds on the durations, 0.1 to 2^1000
    hours, and on the number of bookings, 2^20, keep every value
    finite.) *)
Theorem utilization_totals (id : ObjectId) (range : DateRange) (st : Store) (v : Vehicle.t)
        (Hv : Db.findVehicle id (vehicles st) = Some v)
        (Hstart : startDate range <> BadTime) (Hend : endDate range <> BadTime) :
  exists stats fetched query,
    getVehicleUtilization id range st = (Ok stats, st)
    /\ fetched = filter query (bookings st)
    /\ (forall b, query b = true <->
                  Booking.vehicleId b = id /\ inRange range (Booking.createdAt b))
    /\ (forall b, In b (bookings st) -> Booking.vehicleId b = id ->
                  inRange range (Booking.createdAt b) ->
                  Booking.status b = Booking.cancelled -> In b fetched)
    /\ totalBookings stats = List.length fetched
    /\ (forallb halfHours fetched = true -> fewBookings fetched ->
        (totalHoursBooked stats == totalHours fetched)%Q)
    /\ (forallb moderate fetched = true -> fewBookings fetched ->
        totalHoursBooked stats = addedTo 0 fetched
        /\ near (roundings (List.length fetched))
                (totalHoursBooked stats) (totalHours fetched))
    /\ (fetched = [] -> averageRideDuration stats = 0%Q)
    /\ (fetched <> [] ->
        averageRideDuration stats
        = div (totalHoursBooked stats) (inject_Z (Z.of_nat (List.length fetched))))
    /\ (fetched <> [] -> forallb halfHours fetched = true -> fewBookings fetched ->
        (averageRideDuration stats
         == double (totalHours fetched / inject_Z (Z.of_nat (List.length fetched))))%Q)
    /\ (fetched <> [] -> forallb moderate fetched = true -> fewBookings fetched ->
        near roundoff (averageRideDuration stats)
             (totalHoursBooked stats / inject_Z (Z.of_nat (List.length fetched)))).
Proof.
  destruct (find_by_id Vehicle._id id _ _ Hv) as [_ Hid].
  destruct (utilizationQuery_valid id range Hstart Hend) as (q & Hq & Hspec).
  unfold getVehicleUtilization, getVehicleById, bindM, lift, ret,
    Db.Vehicle_findById, Db.Booking_find.
  rewrite Hv. simpl. rewrite Hid, Hq.
  eexists. exists (filter q (bookings st)), q.
  split; [reflexivity|]. split; [reflexivity|]. split; [exact Hspec|].
  cbn [totalBookings totalHoursBooked averageRideDuration].
  set (fetched := filter q (bookings st)).
  split; [|split; [reflexivity|]].
  { intros b Hb Hvb Hr _. apply filter_In. split; [exact Hb|]. now apply Hspec. }
  split; [exact (sumHours_exact fetched)|].
  split; [intros Hall _; split;
          [apply sumHours_addedTo | exact (sumHours_near fetched Hall)]|].
  split; [intros ->; reflexivity|].
  split; [|split].
  - intros Hne. apply length_pos_iff in Hne. now rewrite Hne.
  - intros Hne Hall Hfew. apply length_pos_iff in Hne. rewrite Hne.
    unfold div. apply double_comp.
    now rewrite (sumHours_exact fetched Hall Hfew).
  - intros Hne Hall Hfew. pose proof (sumHours_lower fetched Hne Hall) as Hlow.
    apply length_pos_iff in Hne. rewrite Hne.
    apply double_near. apply average_normal; [exact Hlow | | exact Hfew].
    now apply Nat.ltb_lt.
Qed.

End Utilization.

Section UtilizationWitness.
Import Js VehicleService Spec.

Lemma utilization_totals_witness :
  exists stats fetched,
    getVehicleUtilization 1%N Examples.anyTime Examples.history
    = (Ok stats, Examples.history)
    /\ totalBookings stats = List.length fetched
    /\ (totalHoursBooked stats == totalHours fetched)%Q
    /\ (averageRideDuration stats == 5 # 2)%Q.
Proof.
  destruct (utilization_totals 1%N Examples.anyTime Examples.history Examples.truck)
    as (stats & fetched & query & Hrun & Hf & _ & _ & Hn & Hsum & _).
  - reflexivity.
  - discriminate.
  - discriminate.
  - exists stats, fetched. split; [exact Hrun|]. split; [exact Hn|].
    assert (Hlen : List.length fetched = 2%nat).
    { rewrite <- Hn. vm_compute in Hrun. now injection Hrun as <-. }
    assert (Hhalf : forallb halfHours fetched = true).
    { rewrite Hf. vm_compute in Hrun. injection Hrun as <-.
      assert (Hq : forall b, In b (bookings Examples.history) -> query b = true ->
                             halfHours b = true).
      { intros b Hb _. vm_compute in Hb.
        destruct Hb as [<- | [<- | []]]; reflexivity. }
      apply forallb_forall. intros b Hb. apply filter_In in Hb.
      now apply Hq. }
    split.
    + apply Hsum; [exact Hhalf|]. unfold fewBookings. rewrite Hlen. vm_compute. discriminate.
    + vm_compute in Hrun. injection Hrun as <-. vm_compute. reflexivity.
Defined.

End UtilizationWitness.

Section UpdateStatus.
Import Js BookingService Spec.

Lemma length_updateFirst {A : Type} (p : A -> bool) (f : A -> A) (l : list A) :
  List.length (Db.updateFirst p f l) = List.length l.
Proof.
  induction l as [|x l IH]; simpl; [reflexivity|].
  destruct (p x); simpl; [reflexivity | now rewrite IH].
Qed.

Lemma findBooking_updated (id : ObjectId) (f : Booking.t -> Booking.t)
      (l : list Booking.t) (b : Booking.t) :
  (forall x, Booking._id (f x) = Booking._id x) ->
  Db.findBooking id l = Some b ->
  Db.findBooking id (Db.updateFirst (fun x => N.eqb (Booking._id x) id) f l) = Some (f b).
Proof. intros Hk H. now apply (find_updateFirst_same Booking._id). Qed.

Lemma findBooking_others (id id' : ObjectId) (f : Booking.t -> Booking.t)
      (l : list Booking.t) :
  (forall x, Booking._id (f x) = Booking._id x) -> id' <> id ->
  Db.findBooking id' (Db.updateFirst (fun x => N.eqb (Booking._id x) id) f l)
  = Db.findBooking id' l.
Proof. intros Hk H. now apply (find_updateFirst_other Booking._id). Qed.

(** The update document, key by key. *)
Lemma updateDataOf_keys (now : Z) (status : Booking.Status) (extra : AdditionalData) :
  let u := updateDataOf now status extra in
  Booking.u_status u = newStatus status extra
  /\ Booking.u_vehicleId u = ad_vehicleId extra
  /\ Booking.u_customerId u = ad_customerId extra
  /\ Booking.u_fromPincode u = ad_fromPincode extra
  /\ Booking.u_toPincode u = ad_toPincode extra
  /\ Booking.u_startTime u = ad_startTime extra
  /\ Booking.u_endTime u = ad_endTime extra
  /\ Booking.u_estimatedRideDurationHours u = ad_estimatedRideDurationHours extra
  /\ Booking.u_notes u = ad_notes extra.
Proof.
  unfold updateDataOf, newStatus.
  destruct status, (ad_actualStartTime extra), (ad_actualEndTime extra);
    repeat split; reflexivity.
Qed.

Lemma updateDataOf_actualStartTime (now : Z) (status : Booking.Status)
      (extra : AdditionalData) :
  Booking.u_actualStartTime (updateDataOf now status extra)
  = match ad_actualStartTime extra, status with
    | Some t, _ => Some t
    | None, Booking.in_progress => Some now
    | None, _ => None
    end.
Proof.
  unfold updateDataOf.
  destruct status, (ad_actualStartTime extra), (ad_actualEndTime extra); reflexivity.
Qed.

Lemma updateDataOf_actualEndTime (now : Z) (status : Booking.Status)
      (extra : AdditionalData) :
  Booking.u_actualEndTime (updateDataOf now status extra)
  = match ad_actualEndTime extra, status with
    | Some t, _ => Some t
    | None, Booking.completed => Some now
    | None, _ => None
    end.
Proof.
  unfold updateDataOf.
  destruct status, (ad_actualStartTime extra), (ad_actualEndTime extra); reflexivity.
Qed.

Lemma whenSet_true {A : Type} (valid : A -> bool) (value : option A) :
  Booking.whenSet valid value = true <-> forall x, value = Some x -> valid x = true.
Proof.
  destruct value as [x|]; simpl; split.
  - intros H y Hy. now injection Hy as <-.
  - intros H. now apply H.
  - intros _ y Hy. discriminate Hy.
  - reflexivity.
Qed.

Lemma nonEmpty_iff (s : string) : truthyStr s = true <-> s <> EmptyString.
Proof. destruct s; simpl; split; congruence. Qed.

Lemma pincodeRegex_test_Str (s : string) :
  pincodeRegex_test (Str s) = true <-> sixDigits s.
Proof. apply digitsThenEnd_spec. Qed.

(** The update validators accept exactly the acceptable extra fields. *)
Lemma validateUpdate_acceptable (now : Z) (status : Booking.Status)
      (extra : AdditionalData) :
  Booking.validateUpdate now (updateDataOf now status extra) = true
  <-> acceptable now extra.
Proof.
  destruct (updateDataOf_keys now status extra)
    as (_ & _ & Hc & Hf & Ht & Hs & _ & Hd & Hn).
  cbv zeta in *. unfold Booking.validateUpdate, acceptable.
  rewrite Hc, Hf, Ht, Hs, Hd, Hn, !andb_true_iff, !whenSet_true.
  assert (Hnotes : Booking.notesFit (ad_notes extra) = true
                   <-> forall n, ad_notes extra = Some n -> (String.length n <= 500)%nat).
  { unfold Booking.notesFit. destruct (ad_notes extra) as [n|]; split.
    - intros H m Hm. injection Hm as <-. now apply Nat.leb_le.
    - intros H. apply Nat.leb_le. now apply H.
    - intros _ m Hm. discriminate Hm.
    - reflexivity. }
  rewrite Hnotes.
  assert (Hiff : forall (A : Type) (o : option A) (P Q : A -> Prop),
            (forall x, P x <-> Q x) ->
            ((forall x, o = Some x -> P x) <-> (forall x, o = Some x -> Q x))).
  { intros A o P Q HPQ. split; intros H x Hx; apply HPQ; now apply H. }
  rewrite (Hiff _ (ad_customerId extra) _ (fun c => trim c <> EmptyString))
    by (intros c; apply nonEmpty_iff).
  rewrite (Hiff _ (ad_fromPincode extra) _ (fun p => sixDigits (trim p)))
    by (intros x; apply pincodeRegex_test_Str).
  rewrite (Hiff _ (ad_toPincode extra) _ (fun p => sixDigits (trim p)))
    by (intros x; apply pincodeRegex_test_Str).
  rewrite (Hiff _ (ad_startTime extra) _ (fun t => now < t))
    by (intros x; apply Z.ltb_lt).
  rewrite (Hiff _ (ad_estimatedRideDurationHours extra) _ (fun d => (1 # 10 <= d)%Q))
    by (intros x; apply Qle_bool_iff).
  tauto.
Qed.

Lemma acceptable_noAdditionalData (now : Z) : acceptable now noAdditionalData.
Proof. unfold acceptable. simpl. repeat split; intros; discriminate. Qed.

Lemma acceptable_notesOnly (now : Z) (n : string) :
  (String.length n <= 500)%nat -> acceptable now (notesOnly n).
Proof.
  intros Hn. unfold acceptable. simpl.
  split; [intros; discriminate|]. split; [intros; discriminate|].
  split; [intros; discriminate|]. split; [intros; discriminate|].
  split; [intros; discriminate|].
  intros m Hm. now injection Hm as <-.
Qed.

Lemma keepsRide_noAdditionalData : keepsRide noAdditionalData.
Proof. repeat split. Qed.

Lemma keepsRide_notesOnly (n : string) : keepsRide (notesOnly n).
Proof. repeat split. Qed.

Lemma applyUpdate_id (now : Z) (u : Booking.Update) (x : Booking.t) :
  Booking._id (Booking.applyUpdate now u x) = Booking._id x.
Proof. reflexivity. Qed.

(** What [updateBookingStatus] does to an existing booking. *)
Lemma updateBookingStatus_found (now : Z) (id : ObjectId) (status : Booking.Status)
      (extra : AdditionalData) (st : Store) (b : Booking.t) :
  Db.findBooking id (bookings st) = Some b ->
  acceptable now extra ->
  let u := updateDataOf now status extra in
  updateBookingStatus now id status extra st
  = (Ok (Booking.applyUpdate now u b,
         Db.findVehicle (Booking.vehicleId (Booking.applyUpdate now u b)) (vehicles st)),
     {| vehicles := vehicles st;
        bookings := Db.updateFirst (fun x => N.eqb (Booking._id x) id)
                      (Booking.applyUpdate now u) (bookings st) |}).
Proof.
  intros Hb Hok. apply (validateUpdate_acceptable now status extra) in Hok.
  unfold updateBookingStatus, bindM, failIf, lift, throw_if,
    Db.Booking_findByIdAndUpdate, Db.populate.
  rewrite Hok. simpl. rewrite Hb. reflexivity.
Qed.

(** Extra fields that a validator rejects: nothing is written. *)
Lemma updateBookingStatus_invalid (now : Z) (id : ObjectId) (status : Booking.Status)
      (extra : AdditionalData) (st : Store) :
  ~ acceptable now extra ->
  updateBookingStatus now id status extra st = (Err ValidationError, st).
Proof.
  intros Hbad. unfold updateBookingStatus, bindM, failIf, lift, throw_if.
  destruct (Booking.validateUpdate now (updateDataOf now status extra)) eqn:Hval;
    [|reflexivity].
  apply validateUpdate_acceptable in Hval. now contradiction Hbad.
Qed.

(** No booking with the id: nothing is written either. *)
Lemma updateBookingStatus_absent (now : Z) (id : ObjectId) (status : Booking.Status)
      (extra : AdditionalData) (st : Store) :
  acceptable now extra ->
  Db.findBooking id (bookings st) = None ->
  updateBookingStatus now id status extra st = (Err BookingNotFound, st).
Proof.
  intros Hok Hno. apply (validateUpdate_acceptable now status extra) in Hok.
  unfold updateBookingStatus, bindM, failIf, lift, throw_if, throw,
    Db.Booking_findByIdAndUpdate.
  rewrite Hok. simpl. now rewrite Hno.
Qed.

(** Extra fields that leave the ride as booked: the vehicle populated is
    the one of the stored booking. *)
Lemma applyUpdate_keepsRide (now : Z) (status : Booking.Status) (extra : AdditionalData)
      (b : Booking.t) :
  keepsRide extra ->
  let b' := Booking.applyUpdate now (updateDataOf now status extra) b in
  Booking.vehicleId b' = Booking.vehicleId b
  /\ Booking.fromPincode b' = Booking.fromPincode b
  /\ Booking.toPincode b' = Booking.toPincode b
  /\ Booking.startTime b' = Booking.startTime b
  /\ Booking.endTime b' = Booking.endTime b
  /\ Booking.estimatedRideDurationHours b' = Booking.estimatedRideDurationHours b.
Proof.
  intros (Hv & Hf & Ht & Hs & He & Hd).
  destruct (updateDataOf_keys now status extra)
    as (_ & Kv & _ & Kf & Kt & Ks & Ke & Kd & _).
  cbv zeta in *. unfold Booking.applyUpdate. simpl.
  rewrite Kv, Kf, Kt, Ks, Ke, Kd, Hv, Hf, Ht, Hs, He, Hd. repeat split.
Qed.

(** C7, as the code has it: for an existing booking and extra fields
    (values of the types of their paths, for paths that the schema
    declares) that pass the validators of the schema (a customer id that
    is not white space only, pincodes of six digits, a start time in the
    future, a duration of at least 0.1 hours, notes of at most 500 code
    units), updateStatus stores the status among the extra fields if
    there is one, else the status given.  It sets actualStartTime to the
    value the caller supplied in the extra fields, else, when the status
    given is in-progress, to the current time whether or not the stored
    booking already had one, else leaves it; likewise actualEndTime when
    the status given is completed.  It merges every other extra field,
    customer id and pincodes trimmed; the store refreshes updatedAt; the
    id and the creation time, every field that is not among the extra
    fields, every other booking and every vehicle are unchanged.  The
    vehicle returned with the booking is the stored vehicle of the updated
    booking. *)
Theorem updateBookingStatus_effect (now : Z) (id : ObjectId) (status : Booking.Status)
        (extra : AdditionalData) (st : Store) (b : Booking.t)
        (Hb : Db.findBooking id (bookings st) = Some b)
        (Hok : acceptable now extra) :
  exists b' v st',
    updateBookingStatus now id status extra st = (Ok (b', v), st')
    /\ Db.findBooking id (bookings st') = Some b'
    /\ Booking.status b' = match ad_status extra with
                           | Some s => s
                           | None => status
                           end
    /\ Booking.actualStartTime b'
       = match ad_actualStartTime extra, status with
         | Some t, _ => Some t
         | None, Booking.in_progress => Some now
         | None, _ => Booking.actualStartTime b
         end
    /\ Booking.actualEndTime b'
       = match ad_actualEndTime extra, status with
         | Some t, _ => Some t
         | None, Booking.completed => Some now
         | None, _ => Booking.actualEndTime b
         end
    /\ Booking.notes b'
       = match ad_notes extra with
         | Some n => Some n
         | None => Booking.notes b
         end
    /\ Booking.vehicleId b'
       = match ad_vehicleId extra with
         | Some x => x
         | None => Booking.vehicleId b
         end
    /\ Booking.customerId b'
       = match ad_customerId extra with
         | Some c => trim c
         | None => Booking.customerId b
         end
    /\ Booking.fromPincode b'
       = match ad_fromPincode extra with
         | Some p => trim p
         | None => Booking.fromPincode b
         end
    /\ Booking.toPincode b'
       = match ad_toPincode extra with
         | Some p => trim p
         | None => Booking.toPincode b
         end
    /\ Booking.startTime b'
       = match ad_startTime extra with
         | Some t => t
         | None => Booking.startTime b
         end
    /\ Booking.endTime b'
       = match ad_endTime extra with
         | Some t => t
         | None => Booking.endTime b
         end
    /\ Booking.estimatedRideDurationHours b'
       = match ad_estimatedRideDurationHours extra with
         | Some d => d
         | None => Booking.estimatedRideDurationHours b
         end
    /\ Booking.updatedAt b' = now
    /\ Booking._id b' = Booking._id b
    /\ Booking.createdAt b' = Booking.createdAt b
    /\ v = Db.findVehicle (Booking.vehicleId b') (vehicles st)
    /\ (forall id', id' <> id ->
          Db.findBooking id' (bookings st') = Db.findBooking id' (bookings st))
    /\ List.length (bookings st') = List.length (bookings st)
    /\ vehicles st' = vehicles st.
Proof.
  pose proof (updateBookingStatus_found now id status extra st b Hb Hok) as Hrun.
  cbv zeta in Hrun. rewrite Hrun. clear Hrun.
  destruct (updateDataOf_keys now status extra)
    as (Ks & Kv & Kc & Kf & Kt & Kst & Ke & Kd & Kn).
  cbv zeta in *.
  pose proof (updateDataOf_actualStartTime now status extra) as Kas.
  pose proof (updateDataOf_actualEndTime now status extra) as Kae.
  eexists _, _, _. split; [reflexivity|]. cbn [bookings vehicles].
  split; [apply findBooking_updated; [intros x; apply applyUpdate_id | exact Hb]|].
  unfold Booking.applyUpdate at 1 2 3 4 5 6 7 8 9 10 11 12 13 14.
  cbn [Booking.status Booking.actualStartTime Booking.actualEndTime Booking.notes
       Booking.vehicleId Booking.customerId Booking.fromPincode Booking.toPincode
       Booking.startTime Booking.endTime Booking.estimatedRideDurationHours
       Booking.updatedAt Booking._id Booking.createdAt].
  rewrite Ks, Kv, Kc, Kf, Kt, Kst, Ke, Kd, Kn, Kas, Kae.
  split; [reflexivity|].
  split; [destruct (ad_actualStartTime extra), status; reflexivity|].
  split; [destruct (ad_actualEndTime extra), status; reflexivity|].
  split; [destruct (ad_notes extra); reflexivity|].
  split; [destruct (ad_vehicleId extra); reflexivity|].
  split; [destruct (ad_customerId extra); reflexivity|].
  split; [destruct (ad_fromPincode extra); reflexivity|].
  split; [destruct (ad_toPincode extra); reflexivity|].
  split; [destruct (ad_startTime extra); reflexivity|].
  split; [destruct (ad_endTime extra); reflexivity|].
  split; [destruct (ad_estimatedRideDurationHours extra); reflexivity|].
  split; [reflexivity|]. split; [reflexivity|]. split; [reflexivity|].
  split; [unfold Booking.applyUpdate; cbn [Booking.vehicleId]; now rewrite Kv|].
  split; [intros id' Hne; apply findBooking_others;
          [intros x; apply applyUpdate_id | exact Hne]|].
  split; [|reflexivity].
  apply length_updateFirst.
Qed.

Lemma updateBookingStatus_effect_witness :
  exists b' v st',
    updateBookingStatus 9000 10%N Booking.in_progress noAdditionalData Examples.started
    = (Ok (b', v), st')
    /\ Booking.actualStartTime b' = Some 9000.
Proof.
  destruct (updateBookingStatus_effect 9000 10%N Booking.in_progress noAdditionalData
              Examples.started
              (Booking.applyUpdate 5000
                 (updateDataOf 5000 Booking.in_progress noAdditionalData)
                 Examples.bookingA))
    as (b' & v & st' & Hrun & _ & _ & Hstart & _).
  - reflexivity.
  - apply acceptable_noAdditionalData.
  - exists b', v, st'. split; [exact Hrun | exact Hstart].
Defined.

(** C7 as stated fails: a repeated transition to in-progress does not
    leave a previously set actualStartTime unchanged.  The ride of
    [bookingA] is started at time 5000; starting it again at time 9000
    replaces the stored 5000 by 9000. *)
Lemma updateBookingStatus_overwrites_actualStartTime :
  ~ (forall now id st b b' v st',
        Db.findBooking id (bookings st) = Some b ->
        updateBookingStatus now id Booking.in_progress noAdditionalData st
        = (Ok (b', v), st') ->
        Booking.actualStartTime b <> None ->
        Booking.actualStartTime b' = Booking.actualStartTime b).
Proof.
  intros H.
  specialize (H 9000 10%N Examples.started
                (Booking.applyUpdate 5000
                   (updateDataOf 5000 Booking.in_progress noAdditionalData)
                   Examples.bookingA)
                (Booking.applyUpdate 9000
                   (updateDataOf 9000 Booking.in_progress noAdditionalData)
                   (Booking.applyUpdate 5000
                      (updateDataOf 5000 Booking.in_progress noAdditionalData)
                      Examples.bookingA))
                (Some Examples.truck)
                (snd (updateBookingStatus 9000 10%N Booking.in_progress noAdditionalData
                        Examples.started))
                eq_refl eq_refl).
  simpl in H. assert (Hne : Some 5000 <> (None : option Z)) by discriminate.
  specialize (H Hne). discriminate H.
Qed.

End UpdateStatus.

Section Availability.
Import Js RideCalculationService VehicleService Spec.

Lemma getRouteInfo_valid (p q : string) (capacityKg : Q) :
  sixDigits p -> sixDigits q ->
  exists ri, getRouteInfo (Str p) (Str q) capacityKg = Ok ri.
Proof.
  intros Hp Hq. unfold getRouteInfo, calculateEstimatedDistance.
  rewrite (calculateEstimatedDuration_valid p q Hp Hq). simpl.
  eexists. reflexivity.
Qed.

Lemma eligibleQuery_iff (capacity : Q) (v : Vehicle.t) :
  eligibleQuery capacity v = true <->
  (capacity <= Vehicle.capacityKg v)%Q /\ Vehicle.status v = Vehicle.active.
Proof.
  unfold eligibleQuery. rewrite andb_true_iff, Qle_bool_iff.
  destruct (Vehicle.status v); simpl; intuition discriminate.
Qed.

(** The loop visits every candidate once, in order, and keeps the free
    ones. *)
Lemma forEachEligible_spec (from to : string) (start end_ : Z) (st : Store)
      (Hfrom : sixDigits from) (Hto : sixDigits to) (eligible : list Vehicle.t) :
  forall acc queried,
  exists added,
    forEachEligible from to (Some (estimateDuration from to)) start end_
      eligible acc queried st
    = (Ok (acc ++ added, queried ++ map Vehicle._id eligible), st)
    /\ map av_vehicle added = filter (isFree st start end_) eligible
    /\ Forall (enriched from to start end_) added.
Proof.
  induction eligible as [|vehicle rest IH]; intros acc queried; simpl.
  - exists []. rewrite !app_nil_r. repeat split. constructor.
  - unfold bindM at 1. unfold Db.Booking_findOverlappingBookings, isFree.
    destruct (Booking.findOverlappingBookings (bookings st) (Vehicle._id vehicle)
                start end_ None) as [|b bs]; simpl.
    + destruct (getRouteInfo_valid from to (Vehicle.capacityKg vehicle) Hfrom Hto)
        as (ri & Hri).
      unfold bindM, lift. rewrite Hri.
      match goal with
      | |- context [forEachEligible _ _ _ _ _ rest ?a ?q st] =>
          destruct (IH a q) as (added & -> & Hmap & Hall)
      end.
      eexists (_ :: added). rewrite <- !app_assoc. simpl.
      split; [reflexivity|]. split; [simpl; now rewrite Hmap|].
      constructor; [|exact Hall]. repeat split. exact Hri.
    + destruct (IH acc (queried ++ [Vehicle._id vehicle])) as (added & -> & Hmap & Hall).
      exists added. rewrite <- !app_assoc. simpl. repeat split; assumption.
Qed.


End Availability.

Section Invariant.
Import Js VehicleService BookingService Spec.

Lemma disjoint_sym (b1 b2 : Booking.t) : disjoint b1 b2 -> disjoint b2 b1.
Proof. unfold disjoint. tauto. Qed.

(** A booking that the overlap query does not return is disjoint from
    the queried window. *)
Lemma not_overlapping_disjoint (docs : list Booking.t) (v : ObjectId) (s e : Z)
      (old new : Booking.t) :
  Booking.findOverlappingBookings docs v s e None = [] ->
  In old docs -> Booking.vehicleId old = v ->
  Booking.isActive (Booking.status old) = true ->
  Booking.startTime new = s -> Booking.endTime new = e ->
  disjoint old new.
Proof.
  intros Hnone Hin Hv Hact Hs He. unfold disjoint. rewrite Hs, He.
  destruct (Z_le_gt_dec (Booking.endTime old) s) as [H1|H1]; [now left|].
  destruct (Z_le_gt_dec e (Booking.startTime old)) as [H2|H2]; [now right|].
  exfalso.
  assert (Hq : In old (Booking.findOverlappingBookings docs v s e None)).
  { apply filter_In. split; [exact Hin|].
    apply overlapQuery_iff. repeat split; try assumption; try lia.
    - now apply isActive_iff.
    - intros x Hx. discriminate Hx. }
  rewrite Hnone in Hq. exact Hq.
Qed.

(** The conflict check does its work: [createBooking] keeps the
    invariant. *)
Lemma createBooking_keeps_noDoubleBooking
      (now saveNow : Z) (newId : ObjectId) (data : BookingData) (st : Store) :
  noDoubleBooking st ->
  noDoubleBooking (snd (createBooking now saveNow newId data st)).
Proof.
  intros Hinv.
  destruct (createBooking_outcome now saveNow newId data st)
    as [(e & -> & _) | (oid & start & _ & Hnone & _ & ->)]; simpl; [exact Hinv|].
  intros b1 b2 H1 H2 Hne Hveh Ha1 Ha2. simpl in H1, H2.
  apply in_app_or in H1. apply in_app_or in H2.
  destruct H1 as [H1 | [<- | []]], H2 as [H2 | [<- | []]].
  - now apply Hinv.
  - simpl in Hveh. now apply (not_overlapping_disjoint _ _ _ _ _ _ Hnone).
  - simpl in Hveh. apply disjoint_sym.
    now apply (not_overlapping_disjoint _ _ _ _ _ _ Hnone).
  - now contradiction Hne.
Qed.

Lemma In_updateFirst {A : Type} (p : A -> bool) (f : A -> A) (l : list A) (x : A) :
  In x (Db.updateFirst p f l) -> In x l \/ exists y, In y l /\ x = f y.
Proof.
  induction l as [|a l IH]; simpl; [tauto|].
  destruct (p a); simpl.
  - intros [<- | H]; [right; exists a; auto | auto].
  - intros [<- | H]; [auto|].
    destruct (IH H) as [H' | (y & Hy & ->)]; [auto | right; exists y; auto].
Qed.

(** So does a status update that does not make a booking active. *)
Lemma updateBookingStatus_keeps_noDoubleBooking
      (now : Z) (id : ObjectId) (status : Booking.Status) (extra : AdditionalData)
      (st : Store) :
  Booking.isActive (newStatus status extra) = false ->
  noDoubleBooking st ->
  noDoubleBooking (snd (updateBookingStatus now id status extra st)).
Proof.
  intros Hst Hinv.
  unfold updateBookingStatus, bindM, failIf, lift, throw_if, throw,
    Db.Booking_findByIdAndUpdate, Db.populate.
  destruct (negb (Booking.validateUpdate _ _)); simpl; [exact Hinv|].
  destruct (Db.findBooking id (bookings st)); simpl; [|exact Hinv].
  assert (Hu : Booking.u_status (updateDataOf now status extra) = newStatus status extra).
  { apply (updateDataOf_keys now status extra). }
  intros b1 b2 H1 H2 Hne Hveh Ha1 Ha2. simpl in H1, H2.
  apply In_updateFirst in H1. apply In_updateFirst in H2.
  destruct H1 as [H1 | (y1 & _ & ->)];
    [|simpl in Ha1; rewrite Hu in Ha1; congruence].
  destruct H2 as [H2 | (y2 & _ & ->)];
    [|simpl in Ha2; rewrite Hu in Ha2; congruence].
  now apply Hinv.
Qed.

(** So does a cancellation. *)
Lemma cancelBooking_keeps_noDoubleBooking
      (now : Z) (id : ObjectId) (reason : string) (st : Store) :
  noDoubleBooking st ->
  noDoubleBooking (snd (cancelBooking now id reason st)).
Proof.
  intros Hinv. unfold cancelBooking, bindM at 1, Db.Booking_findById.
  destruct (Db.findBooking id (bookings st)) as [b|]; simpl; [|exact Hinv].
  unfold bindM at 1, failIf, lift, throw_if.
  destruct (Booking.status_eqb (Booking.status b) Booking.completed); simpl;
    [exact Hinv|].
  unfold bindM at 1.
  destruct (Booking.status_eqb (Booking.status b) Booking.cancelled); simpl;
    [exact Hinv|].
  unfold bindM at 1.
  destruct (negb (Qle_bool 2 _)); simpl; [exact Hinv|].
  now apply updateBookingStatus_keeps_noDoubleBooking.
Qed.

Lemma In_removeFirst {A : Type} (p : A -> bool) (l : list A) (x : A) :
  In x (Db.removeFirst p l) -> In x l.
Proof.
  induction l as [|a l IH]; simpl; [tauto|].
  destruct (p a); simpl; [auto | intros [<- | H]; auto].
Qed.

(** And so does the deletion of a booking. *)
Lemma deleteBooking_keeps_noDoubleBooking (id : ObjectId) (st : Store) :
  noDoubleBooking st ->
  noDoubleBooking (snd (deleteBooking id st)).
Proof.
  intros Hinv. unfold deleteBooking, bindM at 1, Db.Booking_findById.
  destruct (Db.findBooking id (bookings st)) as [b|]; simpl; [|exact Hinv].
  unfold bindM, failIf, lift, throw_if, Db.Booking_findByIdAndDelete, ret.
  destruct (negb (Booking.status_eqb (Booking.status b) Booking.cancelled)); simpl;
    [exact Hinv|].
  intros b1 b2 H1 H2. simpl in H1, H2.
  apply In_removeFirst in H1. apply In_removeFirst in H2. now apply Hinv.
Qed.

Lemma In_updateFirst_found {A : Type} (p : A -> bool) (f : A -> A) (l : list A) (x : A) :
  In x (Db.updateFirst p f l) -> In x l \/ exists y, find p l = Some y /\ x = f y.
Proof.
  induction l as [|a l IH]; simpl; [tauto|].
  destruct (p a); simpl.
  - intros [<- | H]; [right; exists a; auto | auto].
  - intros [<- | H]; [auto|].
    destruct (IH H) as [H' | (y & Hy & ->)]; [auto | right; exists y; auto].
Qed.

(** A status update keeps the invariant unless it makes active a booking
    that was not. *)
Lemma updateBookingStatus_keeps_unless_reactivated
      (now : Z) (id : ObjectId) (status : Booking.Status) (extra : AdditionalData)
      (st : Store) :
  noReactivation st id status extra ->
  noDoubleBooking st ->
  noDoubleBooking (snd (updateBookingStatus now id status extra st)).
Proof.
  intros [Hkeeps Hok] Hinv.
  destruct (Booking.isActive (newStatus status extra)) eqn:Hst;
    [|now apply updateBookingStatus_keeps_noDoubleBooking].
  unfold updateBookingStatus, bindM, failIf, lift, throw_if, throw,
    Db.Booking_findByIdAndUpdate, Db.populate.
  destruct (negb (Booking.validateUpdate _ _)); simpl; [exact Hinv|].
  destruct (Db.findBooking id (bookings st)) as [b|] eqn:Hb; simpl; [|exact Hinv].
  pose proof (Hok eq_refl b eq_refl) as Hact.
  destruct (find_by_id Booking._id id _ _ Hb) as [Hin _].
  destruct (applyUpdate_keepsRide now status extra b Hkeeps)
    as (Kv & _ & _ & Ks & Ke & _). cbv zeta in Kv, Ks, Ke.
  assert (Hold : forall x, In x (Db.updateFirst (fun x => N.eqb (Booking._id x) id)
                                   (Booking.applyUpdate now (updateDataOf now status extra))
                                   (bookings st)) ->
                 exists y, In y (bookings st)
                           /\ Booking._id x = Booking._id y
                           /\ Booking.vehicleId x = Booking.vehicleId y
                           /\ Booking.startTime x = Booking.startTime y
                           /\ Booking.endTime x = Booking.endTime y
                           /\ (Booking.isActive (Booking.status x) = true ->
                               Booking.isActive (Booking.status y) = true)).
  { intros x Hx. apply In_updateFirst_found in Hx.
    destruct Hx as [Hx | (y & Hy & ->)].
    - exists x. repeat split; auto.
    - unfold Db.findBooking in Hb. rewrite Hb in Hy. injection Hy as <-.
      exists b. split; [exact Hin|]. split; [reflexivity|].
      split; [exact Kv|]. split; [exact Ks|]. split; [exact Ke|]. intros _. exact Hact. }
  intros b1 b2 H1 H2 Hne Hveh Ha1 Ha2. simpl in H1, H2.
  destruct (Hold b1 H1) as (y1 & Hy1 & Hi1 & Hv1 & Hs1 & He1 & Hact1).
  destruct (Hold b2 H2) as (y2 & Hy2 & Hi2 & Hv2 & Hs2 & He2 & Hact2).
  assert (Hd : disjoint y1 y2).
  { apply Hinv; auto; congruence. }
  unfold disjoint in *. rewrite Hs1, He1, Hs2, He2. exact Hd.
Qed.

Lemma createVehicle_bookings now random newId data st :
  bookings (snd (createVehicle now random newId data st)) = bookings st.
Proof.
  unfold createVehicle, on11000, Db.Vehicle_save.
  destruct (negb (Vehicle.validate _)); simpl; [reflexivity|].
  destruct (existsb _ _); reflexivity.
Qed.

Lemma updateVehicleStatus_bookings now id status st :
  bookings (snd (updateVehicleStatus now id status st)) = bookings st.
Proof.
  unfold updateVehicleStatus, bindM, Db.Vehicle_findByIdAndUpdate.
  destruct (Db.findVehicle id (vehicles st)); reflexivity.
Qed.

Lemma deleteVehicle_bookings now id st :
  bookings (snd (deleteVehicle now id st)) = bookings st.
Proof.
  unfold deleteVehicle, bindM, failIf, lift, throw_if, Db.Booking_find,
    Db.Vehicle_findByIdAndUpdate.
  destruct (Nat.ltb 0 _); simpl; [reflexivity|].
  destruct (Db.findVehicle id (vehicles st)); reflexivity.
Qed.

Lemma noDoubleBooking_bookings (st st' : Store) :
  bookings st' = bookings st -> noDoubleBooking st -> noDoubleBooking st'.
Proof. unfold noDoubleBooking. intros ->. auto. Qed.

(** The invariant holds in every state the operations produce one after
    the other, as long as no status update changes the vehicle or the
    window of a booking or turns a completed or cancelled booking back into
    a confirmed or in-progress one. *)
Lemma noDoubleBooking_unless_reactivated (st : Store) :
  reachable_if noReactivation st -> noDoubleBooking st.
Proof.
  induction 1.
  - intros b1 b2 [].
  - eapply noDoubleBooking_bookings; [apply createVehicle_bookings | assumption].
  - eapply noDoubleBooking_bookings; [apply updateVehicleStatus_bookings | assumption].
  - eapply noDoubleBooking_bookings; [apply deleteVehicle_bookings | assumption].
  - now apply createBooking_keeps_noDoubleBooking.
  - now apply updateBookingStatus_keeps_unless_reactivated.
  - now apply cancelBooking_keeps_noDoubleBooking.
  - now apply deleteBooking_keeps_noDoubleBooking.
Qed.

(** C1 (the code departs from it): the states below are produced by the
    operations run one after the other from the empty store: a vehicle is
    created, booked, the booking is cancelled, the same slot is booked
    again, and the status of the cancelled booking is set back to
    confirmed.  Every step succeeds; before the last one no two active
    bookings of the vehicle overlap; after it two confirmed bookings of
    the vehicle occupy the same interval. *)
Theorem reconfirming_double_books :
  reachable Examples.rebooked
  /\ reachable Examples.revived
  /\ noDoubleBooking Examples.rebooked
  /\ (exists a v, updateBookingStatus 4000 10%N Booking.confirmed noAdditionalData
                    Examples.rebooked = (Ok (a, v), Examples.revived))
  /\ (exists a b,
        In a (bookings Examples.revived) /\ In b (bookings Examples.revived)
        /\ Booking._id a <> Booking._id b
        /\ Booking.vehicleId a = Booking.vehicleId b
        /\ Booking.status a = Booking.confirmed /\ Booking.status b = Booking.confirmed
        /\ Booking.startTime a = Booking.startTime b
        /\ Booking.endTime a = Booking.endTime b
        /\ Booking.startTime a < Booking.endTime a)
  /\ ~ noDoubleBooking Examples.revived
  /\ ~ (forall st, reachable st -> noDoubleBooking st).
Proof.
  assert (Hreach : reachable Examples.rebooked).
  { apply (reach_createBooking _ Examples.cancelledA 3000 3000 11%N Examples.request).
    apply (reach_cancelBooking _ Examples.booked 2000 10%N "").
    apply (reach_createBooking _ Examples.fleet 1000 1000 10%N Examples.request).
    apply (reach_createVehicle _ Examples.emptyStore 0 7 1%N Examples.truckData).
    exact (reach_empty _). }
  assert (Hreach' : reachable Examples.revived).
  { exact (reach_updateBookingStatus _ Examples.rebooked 4000 10%N Booking.confirmed
             noAdditionalData Hreach I). }
  assert (Hpair : exists a b,
        In a (bookings Examples.revived) /\ In b (bookings Examples.revived)
        /\ Booking._id a <> Booking._id b
        /\ Booking.vehicleId a = Booking.vehicleId b
        /\ Booking.status a = Booking.confirmed /\ Booking.status b = Booking.confirmed
        /\ Booking.startTime a = Booking.startTime b
        /\ Booking.endTime a = Booking.endTime b
        /\ Booking.startTime a < Booking.endTime a).
  { eexists _, _. vm_compute.
    split; [left; reflexivity|]. split; [right; left; reflexivity|].
    repeat split; discriminate. }
  assert (Hbad : ~ noDoubleBooking Examples.revived).
  { intros H. destruct Hpair as (a & b & Ha & Hb & Hne & Hv & Hsa & Hsb & Hs & He & Hlt).
    assert (Hd : disjoint a b).
    { apply H; try assumption; [rewrite Hsa | rewrite Hsb]; reflexivity. }
    unfold disjoint in Hd. lia. }
  split; [exact Hreach|]. split; [exact Hreach'|]. split; [|split; [|split; [|split]]].
  - unfold Examples.rebooked. apply createBooking_keeps_noDoubleBooking.
    unfold Examples.cancelledA. apply cancelBooking_keeps_noDoubleBooking.
    unfold Examples.booked. apply createBooking_keeps_noDoubleBooking.
    intros b1 b2 H1. vm_compute in H1. destruct H1.
  - eexists _, _. vm_compute. reflexivity.
  - exact Hpair.
  - exact Hbad.
  - intros H. apply Hbad. now apply H.
Qed.

End Invariant.

Section Witnesses.
Import Js VehicleService BookingService Spec.


Lemma deleteVehicle_soft_witness :
  fst (deleteVehicle 5000 1%N Examples.booked) = Err HasActiveBookings
  /\ map Vehicle._id (vehicles (snd (deleteVehicle 5000 1%N Examples.cancelledA))) = [1%N].
Proof.
  split.
  - apply (proj1 (deleteVehicle_soft 5000 1%N Examples.booked)).
    exists Examples.bookingA. vm_compute. split; [left; reflexivity|].
    split; [reflexivity | left; reflexivity].
  - rewrite (proj1 (proj2 (proj2 (deleteVehicle_soft 5000 1%N Examples.cancelledA)))).
    vm_compute. reflexivity.
Defined.

Lemma findOverlappingBookings_exact_witness :
  ~ In Examples.bookingA
      (Booking.findOverlappingBookings (bookings Examples.booked) 1%N
         (25 * Examples.hour) (26 * Examples.hour) None).
Proof.
  apply (proj1 (proj2 (findOverlappingBookings_exact (bookings Examples.booked) 1%N
                         (25 * Examples.hour) (26 * Examples.hour) None))).
  reflexivity.
Defined.

End Witnesses.

(** * Further properties of the services *)

Section RouteEstimatorMore.
Import Js RideCalculationService Spec.

Lemma isValidPincode_ToString (v : Value) :
  isValidPincode v = true -> sixDigits (ToString v).
Proof. intros H. now apply digitsThenEnd_spec. Qed.

Lemma isValidPincode_false (s : string) :
  isValidPincode (Str s) = false <-> ~ sixDigits s.
Proof.
  rewrite <- isValidPincode_Str. destruct (isValidPincode (Str s)); split;
    intros H; try reflexivity; try discriminate; congruence.
Qed.

(** X1: whatever values it is given, calculateEstimatedDuration fails
    only with InvalidPincode, and does so exactly when isValidPincode
    rejects one of the two; when it succeeds the result is never NaN and
    is at least 0.5.  On strings, it fails exactly when one of the two is
    not a string of six digits. *)
Theorem calculateEstimatedDuration_failure (v w : Value) :
  (calculateEstimatedDuration v w = Err InvalidPincode
   <-> isValidPincode v = false \/ isValidPincode w = false)
  /\ (forall e, calculateEstimatedDuration v w = Err e -> e = InvalidPincode)
  /\ (forall d, calculateEstimatedDuration v w = Ok d ->
                exists h, d = Some h /\ (1 # 2 <= h)%Q
                          /\ h = estimateDuration (ToString v) (ToString w))
  /\ (forall p q, v = Str p -> w = Str q ->
                  (calculateEstimatedDuration v w = Err InvalidPincode
                   <-> ~ sixDigits p \/ ~ sixDigits q)).
Proof.
  assert (Hmain :
    (isValidPincode v = true /\ isValidPincode w = true
     /\ calculateEstimatedDuration v w
        = Ok (Some (estimateDuration (ToString v) (ToString w))))
    \/ ((isValidPincode v = false \/ isValidPincode w = false)
        /\ calculateEstimatedDuration v w = Err InvalidPincode)).
  { unfold calculateEstimatedDuration.
    destruct (isValidPincode v) eqn:Hv; [|right; split; [now left | reflexivity]].
    destruct (isValidPincode w) eqn:Hw; [|right; split; [now right | reflexivity]].
    left. split; [reflexivity|]. split; [reflexivity|].
    apply isValidPincode_ToString in Hv, Hw. simpl.
    rewrite (parseInt_pincode _ Hv), (parseInt_pincode _ Hw).
    rewrite Z.rem_mod_nonneg by lia.
    rewrite Math_max_half by (apply Z.mod_pos_bound; lia). reflexivity. }
  assert (H1 : calculateEstimatedDuration v w = Err InvalidPincode
               <-> isValidPincode v = false \/ isValidPincode w = false).
  { destruct Hmain as [(Hv & Hw & ->) | (Hbad & ->)].
    - split; [discriminate | intros [H | H]; congruence].
    - tauto. }
  split; [exact H1|]. split; [|split].
  - intros e. destruct Hmain as [(_ & _ & ->) | (_ & ->)]; congruence.
  - intros d. destruct Hmain as [(_ & _ & ->) | (_ & ->)]; [|discriminate].
    intros H. injection H as <-. eexists. split; [reflexivity|].
    split; [apply Q.le_max_r | reflexivity].
  - intros p q -> ->. rewrite H1, !isValidPincode_false. tauto.
Qed.

Lemma calculateEstimatedDuration_failure_witness :
  calculateEstimatedDuration (Str "11001") (Str "110002") = Err InvalidPincode.
Proof.
  apply (proj1 (calculateEstimatedDuration_failure (Str "11001") (Str "110002"))).
  left. reflexivity.
Defined.

Lemma trunc_bounds (x : Q) :
  (inject_Z (trunc x) - 1 < x)%Q /\ (x < inject_Z (trunc x) + 1)%Q.
Proof.
  unfold trunc. destruct (Qle_bool 0 x).
  - pose proof (Qfloor_le x) as H1. pose proof (Qlt_floor x) as H2.
    rewrite inject_Z_plus in H2. split; [|exact H2].
    apply Qlt_le_trans with (inject_Z (Qfloor x)); [|exact H1].
    rewrite <- (Qplus_0_r (inject_Z (Qfloor x))) at 2.
    apply Qplus_lt_r. reflexivity.
  - pose proof (Qle_ceiling x) as H1. pose proof (Qceiling_lt x) as H2.
    unfold Z.sub in H2. rewrite inject_Z_plus, inject_Z_opp in H2. split; [exact H2|].
    apply Qle_lt_trans with (inject_Z (Qceiling x)); [exact H1|].
    rewrite <- (Qplus_0_r (inject_Z (Qceiling x))) at 1.
    apply Qplus_lt_r. reflexivity.
Qed.

Lemma trunc_ge_Z (z : Z) (x : Q) : (inject_Z z <= x)%Q -> z <= trunc x.
Proof.
  intros H. destruct (trunc_bounds x) as [_ Hu].
  assert (Hlt : (inject_Z z < inject_Z (trunc x + 1))%Q).
  { rewrite inject_Z_plus. eapply Qle_lt_trans; eassumption. }
  rewrite <- Zlt_Qlt in Hlt. lia.
Qed.

(** X2: calculateEndTime fails with InvalidTimeFormat on an Invalid
    Date, whatever the duration; on a valid date it fails with
    InvalidDuration exactly when the duration is NaN, zero or negative.
    For a duration of k half hours, k at least 1, with the start and
    start + k * 1 800 000 ms both time values of a Date, it returns
    exactly that end time. *)
Theorem calculateEndTime_behaviour (startTime : Date) (durationHours : num) :
  (startTime = None -> calculateEndTime startTime durationHours = Err InvalidTimeFormat)
  /\ (forall start, startTime = Some start ->
        (calculateEndTime startTime durationHours = Err InvalidDuration
         <-> durationHours = None \/ exists d, durationHours = Some d /\ (d <= 0)%Q))
  /\ (forall start d k,
        startTime = Some start -> durationHours = Some d ->
        1 <= k -> (d == inject_Z k / 2)%Q ->
        Z.abs start <= maxTime -> Z.abs (start + k * 1800000) <= maxTime ->
        calculateEndTime startTime durationHours = Ok (start + k * 1800000)).
Proof.
  split; [intros ->; reflexivity|]. split.
  - intros start ->. unfold calculateEndTime, notPositive.
    destruct durationHours as [d|]; simpl.
    + destruct (Qle_bool d 0) eqn:Hd; simpl.
      * split; [|reflexivity]. intros _. right. exists d.
        split; [reflexivity | now apply Qle_bool_iff].
      * split; [discriminate|]. intros [H | (d' & H & Hle)]; [discriminate H|].
        injection H as <-. apply Qle_bool_iff in Hle. congruence.
    + split; [|reflexivity]. intros _. now left.
  - intros start d k -> -> Hk Hd _ _. unfold calculateEndTime, notPositive.
    assert (Hpos : (0 < d)%Q).
    { rewrite Hd. apply Qlt_shift_div_l; [reflexivity|].
      rewrite Qmult_0_l. change 0%Q with (inject_Z 0). rewrite <- Zlt_Qlt. lia. }
    assert (Hb : Qle_bool d 0 = false).
    { destruct (Qle_bool d 0) eqn:H; [|reflexivity].
      apply Qle_bool_iff in H. exfalso. apply (Qlt_irrefl 0).
      now apply Qlt_le_trans with d. }
    rewrite Hb. simpl. f_equal.
    rewrite <- (trunc_inject_Z (start + k * 1800000)).
    apply trunc_Qeq. rewrite Hd, inject_Z_plus, inject_Z_mult.
    unfold msPerHour. field.
Qed.

Lemma calculateEndTime_behaviour_witness :
  calculateEndTime (Some 1000) (Some (1 # 2)%Q) = Ok 1801000.
Proof.
  apply (proj2 (proj2 (calculateEndTime_behaviour (Some 1000) (Some (1 # 2)%Q)))
           1000 (1 # 2)%Q 1 eq_refl eq_refl);
    [lia | reflexivity | discriminate | discriminate].
Defined.

Lemma Math_round_inject_Z (z : Z) : Math_round (inject_Z z) = z.
Proof.
  unfold Math_round, Qfloor, inject_Z, Qplus; simpl.
  symmetry. apply (Z.div_unique _ 2 z 1); lia.
Qed.

Lemma Math_round_Qeq (x y : Q) : (x == y)%Q -> Math_round x = Math_round y.
Proof. intros H. unfold Math_round. apply Qfloor_comp. now rewrite H. Qed.

Lemma Math_round_le (x y : Q) : (x <= y)%Q -> Math_round x <= Math_round y.
Proof.
  intros H. unfold Math_round. apply Qfloor_resp_le. now apply Qplus_le_l.
Qed.

(** The distance for a valid pair: 25 km for the minimal half hour, 50 km
    per hour otherwise. *)
Lemma distance_cases (p q : string) :
  sixDigits p -> sixDigits q ->
  exists km,
    calculateEstimatedDistance (Str p) (Str q) = Ok (Some km)
    /\ (inject_Z km == estimateDuration p q * 50)%Q
    /\ 25 <= km <= 1150.
Proof.
  intros Hp Hq. unfold calculateEstimatedDistance.
  rewrite (calculateEstimatedDuration_valid p q Hp Hq). simpl.
  destruct (estimateDuration_cases p q) as [-> | (n & Hn & ->)].
  - exists 25. repeat split; try reflexivity; lia.
  - exists (n * 50). split; [|split; [|lia]].
    + do 2 f_equal. rewrite <- (Math_round_inject_Z (n * 50)).
      apply Math_round_Qeq. now rewrite inject_Z_mult.
    + now rewrite inject_Z_mult.
Qed.

(** X3: for valid pincodes the estimated distance is exactly 50 km per
    estimated hour (the rounding never has anything to round): an integer
    between 25 and 1150, the same in both directions, and a multiple of 50
    unless it is the 25 km of the minimal half hour. *)
Theorem calculateEstimatedDistance_exact (p q : string)
        (Hp : sixDigits p) (Hq : sixDigits q) :
  exists km,
    calculateEstimatedDistance (Str p) (Str q) = Ok (Some km)
    /\ (inject_Z km == estimateDuration p q * 50)%Q
    /\ 25 <= km <= 1150
    /\ calculateEstimatedDistance (Str q) (Str p) = Ok (Some km)
    /\ (km = 25 \/ km mod 50 = 0).
Proof.
  destruct (distance_cases p q Hp Hq) as (km & Hrun & Hkm & Hrange).
  exists km. split; [exact Hrun|]. split; [exact Hkm|]. split; [exact Hrange|]. split.
  - destruct (distance_cases q p Hq Hp) as (km' & Hrun' & Hkm' & _).
    rewrite Hrun'. do 2 f_equal.
    rewrite (estimateDuration_sym q p), <- Hkm in Hkm'.
    unfold Qeq in Hkm'. simpl in Hkm'. lia.
  - destruct (estimateDuration_cases p q) as [Hhalf | (n & Hn & Hint)].
    + left. rewrite Hhalf in Hkm. unfold Qeq in Hkm. simpl in Hkm. lia.
    + right. rewrite Hint in Hkm.
      assert (Heq : km = n * 50).
      { unfold Qeq in Hkm. simpl in Hkm. lia. }
      rewrite Heq. apply Z.mod_mul. lia.
Qed.

Lemma calculateEstimatedDistance_exact_witness :
  exists km,
    calculateEstimatedDistance (Str "110001") (Str "110005") = Ok (Some km)
    /\ (inject_Z km == estimateDuration "110001" "110005" * 50)%Q
    /\ 25 <= km <= 1150
    /\ calculateEstimatedDistance (Str "110005") (Str "110001") = Ok (Some km)
    /\ (km = 25 \/ km mod 50 = 0).
Proof.
  apply (calculateEstimatedDistance_exact "110001" "110005");
    (split; [reflexivity | repeat constructor]).
Defined.

(** The multiplier max(1, capacityKg / 1000). *)
Lemma capacityMultiplier_spec (c : Q) :
  (1 <= Qmax 1 (div c 1000))%Q /\ ((c <= 1000)%Q -> (Qmax 1 (div c 1000) == 1)%Q).
Proof.
  split; [apply Q.le_max_l|].
  intros Hc. apply Q.max_l. unfold div.
  rewrite <- (double_Z 1) by (simpl; lia).
  apply double_mono. apply Qle_shift_div_r; [reflexivity|].
  now rewrite Qmult_1_l.
Qed.

Lemma capacityMultiplier_mono (c c' : Q) :
  (c <= c')%Q -> (Qmax 1 (div c 1000) <= Qmax 1 (div c' 1000))%Q.
Proof.
  intros Hc. apply Q.max_le_compat_l. unfold div. apply double_mono.
  unfold Qdiv. apply Qmult_le_compat_r; [exact Hc | discriminate].
Qed.

Lemma Qmult_le_l_weak (x y z : Q) : (0 <= z)%Q -> (x <= y)%Q -> (z * x <= z * y)%Q.
Proof.
  intros Hz Hxy. rewrite (Qmult_comm z x), (Qmult_comm z y).
  now apply Qmult_le_compat_r.
Qed.

(** The cost before the final rounding, for a distance of at most
    2^40 km: monotone in the multiplier, and 500 + 10 per km when the
    multiplier is 1. *)
Lemma cost_mono (km : Z) (m m' : Q) :
  0 <= km -> (m <= m')%Q ->
  (add 500 (mul (mul (inject_Z km) 10) m) <= add 500 (mul (mul (inject_Z km) 10) m'))%Q.
Proof.
  intros Hkm Hm. unfold add, mul. apply double_mono. apply Qplus_le_r.
  apply double_mono. apply Qmult_le_l_weak; [|exact Hm].
  apply double_nonneg. apply Qmult_le_0_compat; [|discriminate].
  change 0%Q with (inject_Z 0). rewrite <- Zle_Qle. exact Hkm.
Qed.

Lemma cost_light (km : Z) (m : Q) :
  0 <= km <= 2 ^ 40 -> (m == 1)%Q ->
  (add 500 (mul (mul (inject_Z km) 10) m) == inject_Z (500 + 10 * km))%Q.
Proof.
  intros Hkm Hm. unfold add, mul.
  assert (H10 : (double (inject_Z km * 10) == inject_Z (km * 10))%Q).
  { apply Qeq_trans with (double (inject_Z (km * 10))); [|apply double_Z; lia].
    apply double_comp. now rewrite inject_Z_mult. }
  assert (Hp : (double (double (inject_Z km * 10) * m) == inject_Z (km * 10))%Q).
  { apply Qeq_trans with (double (inject_Z (km * 10))); [|apply double_Z; lia].
    apply double_comp. rewrite H10, Hm. apply Qmult_1_r. }
  apply Qeq_trans with (double (inject_Z (500 + 10 * km))); [|apply double_Z; lia].
  apply double_comp. rewrite Hp, inject_Z_plus, !inject_Z_mult. ring.
Qed.

(** X4: for valid pincodes, and capacities of at most 2^1000 kg (which
    keep the cost finite), getRouteInfo succeeds and reports the duration
    and distance the two estimators give; its cost, computed in doubles,
    is at least 500 + 10 per km, is exactly that for a vehicle of at most
    1000 kg, and never decreases when the capacity grows. *)
Theorem getRouteInfo_cost (p q : string) (c c' : Q)
        (Hp : sixDigits p) (Hq : sixDigits q) (Hc : (c <= c')%Q)
        (Hfinite : (c' <= pow2 1000)%Q) :
  exists ri ri' km cost cost',
    getRouteInfo (Str p) (Str q) c = Ok ri
    /\ getRouteInfo (Str p) (Str q) c' = Ok ri'
    /\ calculateEstimatedDuration (Str p) (Str q) = Ok (estimatedDurationHours ri)
    /\ calculateEstimatedDistance (Str p) (Str q) = Ok (estimatedDistanceKm ri)
    /\ estimatedDistanceKm ri = Some km
    /\ estimatedCost ri = Some cost /\ estimatedCost ri' = Some cost'
    /\ 500 + 10 * km <= cost
    /\ ((c <= 1000)%Q -> cost = 500 + 10 * km)
    /\ cost <= cost'.
Proof.
  destruct (distance_cases p q Hp Hq) as (km & Hkm & _ & Hrange).
  unfold getRouteInfo. rewrite Hkm, (calculateEstimatedDuration_valid p q Hp Hq).
  cbn [bind option_map].
  eexists _, _, km, _, _.
  do 7 (split; [reflexivity|]).
  destruct (capacityMultiplier_spec c) as (H1 & Hlight).
  assert (Hkm0 : 0 <= km <= 2 ^ 40) by lia.
  split; [|split].
  - rewrite <- (Math_round_inject_Z (500 + 10 * km)). apply Math_round_le.
    rewrite <- (cost_light km 1 Hkm0) by reflexivity.
    apply cost_mono; [lia | exact H1].
  - intros Hl. rewrite <- (Math_round_inject_Z (500 + 10 * km)).
    apply Math_round_Qeq. apply cost_light; [exact Hkm0 | now apply Hlight].
  - apply Math_round_le. apply cost_mono; [lia | now apply capacityMultiplier_mono].
Qed.

Lemma getRouteInfo_cost_witness :
  exists ri ri',
    getRouteInfo (Str "110001") (Str "110004") 1000 = Ok ri
    /\ getRouteInfo (Str "110001") (Str "110004") 1001 = Ok ri'
    /\ estimatedDistanceKm ri = Some 150
    /\ estimatedCost ri = Some 2000 /\ estimatedCost ri' = Some 2001.
Proof.
  destruct (getRouteInfo_cost "110001" "110004" 1000 1001)
    as (ri & ri' & km & cost & cost' & H1 & H2 & _ & _ & H3 & H4 & H5 & _).
  - split; [reflexivity | repeat constructor].
  - split; [reflexivity | repeat constructor].
  - discriminate.
  - vm_compute. discriminate.
  - exists ri, ri'. split; [exact H1|]. split; [exact H2|].
    vm_compute in H1. injection H1 as <-.
    vm_compute in H2. injection H2 as <-.
    repeat split; reflexivity.
Defined.

End RouteEstimatorMore.

Section VehicleDirectory.
Import Js VehicleService BookingService Spec.

Lemma map_updateFirst {A B : Type} (g : A -> B) (p : A -> bool) (f : A -> A) (l : list A) :
  (forall x, g (f x) = g x) -> map g (Db.updateFirst p f l) = map g l.
Proof.
  intros Hg. induction l as [|x l IH]; simpl; [reflexivity|].
  destruct (p x); simpl; [now rewrite Hg | now rewrite IH].
Qed.

Lemma existsb_false_iff {A : Type} (f : A -> bool) (l : list A) :
  existsb f l = false <-> forall x, In x l -> f x = false.
Proof.
  induction l as [|a l IH]; simpl.
  - split; [intros _ x [] | reflexivity].
  - rewrite orb_false_iff, IH. split.
    + intros [Ha Hl] x [<- | Hx]; auto.
    + intros H. split; [apply H; now left | intros x Hx; apply H; now right].
Qed.

Lemma preSave_id (now random : Z) (doc : Vehicle.t) :
  Vehicle._id (Vehicle.preSave now random doc) = Vehicle._id doc.
Proof.
  unfold Vehicle.preSave. now destruct (truthyStr (Vehicle.registrationNumber doc)).
Qed.

(** The three outcomes of [createVehicle]. *)
Lemma createVehicle_outcome (now random : Z) (newId : ObjectId) (data : VehicleData)
      (st : Store) :
  let doc := new_Vehicle newId data in
  let saved := Vehicle.stamp now (Vehicle.preSave now random doc) in
  (Vehicle.validate doc = false
   /\ createVehicle now random newId data st = (Err ValidationError, st))
  \/ (Vehicle.validate doc = true
      /\ (exists v, In v (vehicles st)
                    /\ (Vehicle._id v = newId
                        \/ Vehicle.registrationNumber v = Vehicle.registrationNumber saved))
      /\ createVehicle now random newId data st = (Err DuplicateRegistration, st))
  \/ (Vehicle.validate doc = true
      /\ (forall v, In v (vehicles st) ->
                    Vehicle._id v <> newId
                    /\ Vehicle.registrationNumber v <> Vehicle.registrationNumber saved)
      /\ createVehicle now random newId data st
         = (Ok saved, {| vehicles := vehicles st ++ [saved]; bookings := bookings st |})).
Proof.
  intros doc saved. unfold createVehicle, on11000, Db.Vehicle_save. fold doc. fold saved.
  destruct (Vehicle.validate doc) eqn:Hval; simpl; [|left; now split].
  right.
  match goal with |- context [existsb ?f (vehicles st)] =>
    destruct (existsb f (vehicles st)) eqn:Hdup end.
  - left. split; [reflexivity|]. split; [|reflexivity].
    apply existsb_exists in Hdup. destruct Hdup as (v & Hv & Hk).
    exists v. split; [exact Hv|]. apply orb_true_iff in Hk.
    destruct Hk as [Hk | Hk]; [left | right].
    + apply N.eqb_eq in Hk. simpl in Hk. now rewrite preSave_id in Hk.
    + apply String.eqb_eq in Hk. exact Hk.
  - right. split; [reflexivity|]. split; [|reflexivity].
    intros v Hv. rewrite existsb_false_iff in Hdup. specialize (Hdup v Hv).
    apply orb_false_iff in Hdup. destruct Hdup as [H1 H2].
    apply N.eqb_neq in H1. apply String.eqb_neq in H2.
    simpl in H1. rewrite preSave_id in H1. now split.
Qed.

Lemma preSave_registrationNumber (now random : Z) (doc : Vehicle.t) :
  Vehicle.registrationNumber (Vehicle.preSave now random doc) <> EmptyString
  /\ (Vehicle.registrationNumber doc <> EmptyString ->
      Vehicle.registrationNumber (Vehicle.preSave now random doc)
      = Vehicle.registrationNumber doc)
  /\ (Vehicle.registrationNumber doc = EmptyString ->
      Vehicle.registrationNumber (Vehicle.preSave now random doc)
      = ("FL-" ++ ToString (Int now) ++ "-" ++ ToString (Int random))%string).
Proof.
  unfold Vehicle.preSave.
  destruct (Vehicle.registrationNumber doc) eqn:Hr; simpl.
  - repeat split; try reflexivity; try discriminate.
    intros H. now contradiction H.
  - rewrite Hr. repeat split; try reflexivity; discriminate.
Qed.

(** X5: when createVehicle succeeds the new vehicle is appended to the
    store, with the status the caller gave or, when none was given,
    active, with the given name trimmed (of the white space among the code
    units below 256, U+00A0 included) and the given capacity and tyres,
    which pass the schema (name of 1 to 100 code units, capacity 1 to
    50000, tyres 2 to 18); its registration number is never empty: the one
    given, trimmed, or, when none or one of white space only was given,
    FL-<now>-<random>; it is created and updated at the time of the save;
    the bookings are untouched.  When it fails the store is unchanged. *)
Theorem createVehicle_effect (now random : Z) (newId : ObjectId) (data : VehicleData)
        (st : Store) :
  (forall e, fst (createVehicle now random newId data st) = Err e ->
             snd (createVehicle now random newId data st) = st)
  /\ (forall v, fst (createVehicle now random newId data st) = Ok v ->
        snd (createVehicle now random newId data st)
        = {| vehicles := vehicles st ++ [v]; bookings := bookings st |}
        /\ Vehicle._id v = newId
        /\ (forall status, vd_status data = Some status -> Vehicle.status v = status)
        /\ (vd_status data = None -> Vehicle.status v = Vehicle.active)
        /\ Vehicle.name v = trim (vd_name data)
        /\ Vehicle.capacityKg v = vd_capacityKg data
        /\ Vehicle.tyres v = vd_tyres data
        /\ Vehicle.validate v = true
        /\ Vehicle.registrationNumber v <> EmptyString
        /\ (forall r, vd_registrationNumber data = Some r -> trim r <> EmptyString ->
                      Vehicle.registrationNumber v = trim r)
        /\ ((vd_registrationNumber data = None
             \/ exists r, vd_registrationNumber data = Some r /\ trim r = EmptyString) ->
            Vehicle.registrationNumber v
            = ("FL-" ++ ToString (Int now) ++ "-" ++ ToString (Int random))%string)
        /\ Vehicle.createdAt v = now /\ Vehicle.updatedAt v = now).
Proof.
  destruct (createVehicle_outcome now random newId data st)
    as [(_ & ->) | [(_ & _ & ->) | (Hval & _ & ->)]]; simpl.
  - split; [reflexivity | discriminate].
  - split; [reflexivity | discriminate].
  - split; [discriminate|]. intros v H. injection H as <-.
    destruct (preSave_registrationNumber now random (new_Vehicle newId data))
      as (Hne & Hkeep & Hgen).
    split; [reflexivity|].
    assert (Hfields : forall d, Vehicle.preSave now random d = d
                                \/ (Vehicle._id (Vehicle.preSave now random d) = Vehicle._id d
                                    /\ Vehicle.name (Vehicle.preSave now random d) = Vehicle.name d
                                    /\ Vehicle.capacityKg (Vehicle.preSave now random d)
                                       = Vehicle.capacityKg d
                                    /\ Vehicle.tyres (Vehicle.preSave now random d)
                                       = Vehicle.tyres d
                                    /\ Vehicle.status (Vehicle.preSave now random d)
                                       = Vehicle.status d)).
    { intros d. unfold Vehicle.preSave.
      destruct (truthyStr (Vehicle.registrationNumber d)); [now left | right; repeat split]. }
    assert (Hsame : Vehicle._id (Vehicle.preSave now random (new_Vehicle newId data)) = newId
                    /\ Vehicle.name (Vehicle.preSave now random (new_Vehicle newId data))
                       = trim (vd_name data)
                    /\ Vehicle.capacityKg (Vehicle.preSave now random (new_Vehicle newId data))
                       = vd_capacityKg data
                    /\ Vehicle.tyres (Vehicle.preSave now random (new_Vehicle newId data))
                       = vd_tyres data
                    /\ Vehicle.status (Vehicle.preSave now random (new_Vehicle newId data))
                       = match vd_status data with
                         | Some status => status
                         | None => Vehicle.active
                         end).
    { destruct (Hfields (new_Vehicle newId data)) as [-> | (H1 & H2 & H3 & H4 & H5)].
      - repeat split.
      - rewrite H1, H2, H3, H4, H5. repeat split. }
    destruct Hsame as (H1 & H2 & H3 & H4 & H5).
    simpl. repeat split; try assumption.
    + intros status Hstatus. rewrite H5, Hstatus. reflexivity.
    + intros Hstatus. rewrite H5, Hstatus. reflexivity.
    + unfold Vehicle.validate in *. simpl. rewrite H2, H3, H4. exact Hval.
    + intros r Hr Hrne. rewrite Hkeep; simpl; now rewrite Hr.
    + intros [Hr | (r & Hr & Hblank)];
        (rewrite Hgen; [reflexivity | simpl; rewrite Hr; auto]).
Qed.

Lemma createVehicle_effect_witness :
  snd (createVehicle 0 7 1%N Examples.truckData Examples.emptyStore)
  = {| vehicles := [Examples.truck]; bookings := [] |}.
Proof.
  apply (proj2 (createVehicle_effect 0 7 1%N Examples.truckData Examples.emptyStore)
           Examples.truck).
  reflexivity.
Defined.

(** X6: with data that pass the schema (a trimmed name of 1 to 100 code
    units, where trimming strips the white space U+0009 to U+000D, U+0020
    and U+00A0 of strings of code units below 256; capacity 1 to 50000;
    tyres 2 to 18; a status, if given, of the enumeration), createVehicle
    fails with DuplicateRegistration, and leaves the store unchanged, as
    soon as a stored vehicle has the registration number the new one would
    get, be it the given one (trimmed) or the generated FL-<now>-<random>;
    the same error is reported when only the ObjectId is already taken.
    So after a vehicle has been created with a registration number, a
    second creation with that number fails. *)
Theorem createVehicle_duplicate (now random : Z) (newId : ObjectId) (data : VehicleData)
        (st : Store)
        (Hvalid : Vehicle.validate (new_Vehicle newId data) = true) :
  (forall v, In v (vehicles st) ->
             Vehicle.registrationNumber v
             = Vehicle.registrationNumber
                 (Vehicle.preSave now random (new_Vehicle newId data)) ->
             createVehicle now random newId data st = (Err DuplicateRegistration, st))
  /\ (forall v, In v (vehicles st) -> Vehicle._id v = newId ->
                createVehicle now random newId data st = (Err DuplicateRegistration, st))
  /\ (forall now0 random0 id0 data0 st0 v0 r,
        fst (createVehicle now0 random0 id0 data0 st0) = Ok v0 ->
        st = snd (createVehicle now0 random0 id0 data0 st0) ->
        vd_registrationNumber data = Some r ->
        trim r = Vehicle.registrationNumber v0 ->
        createVehicle now random newId data st = (Err DuplicateRegistration, st)).
Proof.
  assert (Hdup : forall v, In v (vehicles st) ->
                   (Vehicle._id v = newId
                    \/ Vehicle.registrationNumber v
                       = Vehicle.registrationNumber
                           (Vehicle.preSave now random (new_Vehicle newId data))) ->
                   createVehicle now random newId data st = (Err DuplicateRegistration, st)).
  { intros v Hv Hk.
    destruct (createVehicle_outcome now random newId data st)
      as [(Hbad & _) | [(_ & _ & H) | (_ & Hfresh & _)]].
    - congruence.
    - exact H.
    - exfalso. destruct (Hfresh v Hv) as [H1 H2]. simpl in H2. tauto. }
  split; [intros v Hv Hr; apply (Hdup v Hv); now right|].
  split; [intros v Hv Hi; apply (Hdup v Hv); now left|].
  intros now0 random0 id0 data0 st0 v0 r Hok -> Hr Htrim.
  destruct (createVehicle_outcome now0 random0 id0 data0 st0)
    as [(_ & H) | [(_ & _ & H) | (_ & _ & H)]]; rewrite H in Hok; simpl in Hok;
    try discriminate Hok.
  injection Hok as <-. rewrite H in *. simpl.
  apply (Hdup (Vehicle.stamp now0 (Vehicle.preSave now0 random0 (new_Vehicle id0 data0)))).
  - simpl. apply in_or_app. right. now left.
  - right. simpl in Htrim.
    destruct (preSave_registrationNumber now0 random0 (new_Vehicle id0 data0))
      as (Hne0 & _ & _).
    destruct (preSave_registrationNumber now random (new_Vehicle newId data))
      as (_ & Hkeep & _).
    simpl. rewrite Hkeep; simpl; rewrite Hr; [now symmetry|].
    rewrite Htrim. exact Hne0.
Qed.

Lemma createVehicle_duplicate_witness :
  createVehicle 5000 3 2%N
    {| vd_name := "Second"; vd_capacityKg := 2000; vd_tyres := 6;
       vd_status := None; vd_registrationNumber := Some " FL-0-7 "%string |}
    Examples.fleet
  = (Err DuplicateRegistration, Examples.fleet).
Proof.
  apply (proj1 (createVehicle_duplicate 5000 3 2%N
                  {| vd_name := "Second"; vd_capacityKg := 2000; vd_tyres := 6;
                     vd_status := None;
                     vd_registrationNumber := Some " FL-0-7 "%string |}
                  Examples.fleet eq_refl) Examples.truck).
  - vm_compute. left. reflexivity.
  - reflexivity.
Defined.

Lemma find_app_fresh {A : Type} (p : A -> bool) (l : list A) (a : A) :
  (forall x, In x l -> p x = false) -> p a = true -> find p (l ++ [a]) = Some a.
Proof.
  intros Hl Ha. induction l as [|x l IH]; simpl.
  - now rewrite Ha.
  - rewrite (Hl x (or_introl eq_refl)). apply IH. intros y Hy. apply Hl. now right.
Qed.

Lemma find_app_old {A : Type} (p : A -> bool) (l l' : list A) (a : A) :
  find p l = Some a -> find p (l ++ l') = Some a.
Proof.
  induction l as [|x l IH]; simpl; [discriminate|].
  destruct (p x); [auto | exact IH].
Qed.

Lemma find_none_iff (id : ObjectId) {A : Type} (key : A -> ObjectId) (l : list A) :
  find (fun x => N.eqb (key x) id) l = None <-> ~ In id (map key l).
Proof.
  induction l as [|x l IH]; simpl.
  - split; [intros _ [] | reflexivity].
  - destruct (N.eqb (key x) id) eqn:Hx.
    + apply N.eqb_eq in Hx. split; [discriminate | intros H; exfalso; apply H; now left].
    + apply N.eqb_neq in Hx. rewrite IH. tauto.
Qed.

(** X7: getVehicleById never changes the store; it fails with
    VehicleNotFound exactly when no stored vehicle has the id, and
    otherwise returns a stored vehicle with that id.  After createVehicle
    has returned a vehicle, getVehicleById on its id returns that vehicle,
    and every vehicle that could be fetched before is fetched as
    before. *)
Theorem getVehicleById_roundtrip (id : ObjectId) (st : Store) :
  snd (getVehicleById id st) = st
  /\ (fst (getVehicleById id st) = Err VehicleNotFound
      <-> ~ In id (map Vehicle._id (vehicles st)))
  /\ (forall v, fst (getVehicleById id st) = Ok v ->
                In v (vehicles st) /\ Vehicle._id v = id)
  /\ (forall now random newId data v,
        fst (createVehicle now random newId data st) = Ok v ->
        fst (getVehicleById (Vehicle._id v) (snd (createVehicle now random newId data st)))
        = Ok v
        /\ forall w, fst (getVehicleById id st) = Ok w ->
                     fst (getVehicleById id (snd (createVehicle now random newId data st)))
                     = Ok w).
Proof.
  unfold getVehicleById, bindM, Db.Vehicle_findById, throw, ret.
  split; [now destruct (Db.findVehicle id (vehicles st))|].
  split; [|split].
  - rewrite <- (find_none_iff id Vehicle._id). unfold Db.findVehicle.
    destruct (find _ (vehicles st)); simpl; split; congruence.
  - intros v. destruct (Db.findVehicle id (vehicles st)) as [w|] eqn:Hw; simpl;
      [|discriminate].
    intros H. injection H as <-. now apply (find_by_id Vehicle._id).
  - intros now random newId data v Hok.
    destruct (createVehicle_outcome now random newId data st)
      as [(_ & H) | [(_ & _ & H) | (_ & Hfresh & H)]]; rewrite H in *; simpl in Hok;
      try discriminate Hok.
    injection Hok as <-. simpl. split.
    + unfold Db.findVehicle. rewrite find_app_fresh; [reflexivity | |].
      * intros x Hx. destruct (Hfresh x Hx) as [Hne _]. apply N.eqb_neq.
        simpl. now rewrite preSave_id.
      * apply N.eqb_refl.
    + intros w. destruct (Db.findVehicle id (vehicles st)) as [w'|] eqn:Hw; simpl;
        [|discriminate].
      intros Hw'. injection Hw' as <-. unfold Db.findVehicle in *.
      now rewrite (find_app_old _ _ _ _ Hw).
Qed.

Lemma getVehicleById_roundtrip_witness :
  fst (getVehicleById 1%N (snd (createVehicle 0 7 1%N Examples.truckData Examples.emptyStore)))
  = Ok Examples.truck.
Proof.
  apply (proj1 (proj2 (proj2 (proj2 (getVehicleById_roundtrip 1%N Examples.emptyStore)))
                  0 7 1%N Examples.truckData Examples.truck eq_refl)).
Defined.

End VehicleDirectory.

Section Search.
Import Js RideCalculationService VehicleService BookingService Spec.

(** A search whose criteria pass the validations. *)
Lemma findAvailableVehicles_run (now : Z) (criteria : Criteria) (st : Store)
      (capacity : Q) (start : Z) :
  searchable now criteria capacity start ->
  let end_ := endOfRide start (c_fromPincode criteria) (c_toPincode criteria) in
  let candidates := filter (eligibleQuery capacity) (vehicles st) in
  exists available,
    findAvailableVehicles now criteria st
    = (Ok (available, map Vehicle._id candidates), st)
    /\ map av_vehicle available = filter (isFree st start end_) candidates
    /\ Forall (enriched (c_fromPincode criteria) (c_toPincode criteria) start end_)
         available.
Proof.
  intros (Hcap & Hnonzero & Hfrom & Hto & Hstart & Hfuture) end_ candidates.
  unfold findAvailableVehicles. rewrite Hcap, Hstart. simpl.
  unfold bindM at 1. unfold failIf, lift, throw_if, truthyNum.
  assert (Hz : Qeq_bool capacity 0 = false).
  { destruct (Qeq_bool capacity 0) eqn:E; [|reflexivity].
    apply Qeq_bool_iff in E. now contradiction Hnonzero. }
  rewrite Hz, (sixDigits_truthy _ Hfrom), (sixDigits_truthy _ Hto). simpl.
  unfold bindM at 1.
  rewrite (proj2 (isValidPincode_Str _) Hfrom), (proj2 (isValidPincode_Str _) Hto). simpl.
  unfold bindM at 1. rewrite (proj2 (Z.leb_gt start now) Hfuture).
  unfold bindM at 1. rewrite (calculateEstimatedDuration_valid _ _ Hfrom Hto).
  unfold bindM at 1. rewrite estimateDuration_positive. cbn [bind throw_if].
  change (trunc (inject_Z start
                 + estimateDuration (c_fromPincode criteria) (c_toPincode criteria)
                   * msPerHour)) with end_.
  unfold bindM at 1. unfold Db.Vehicle_find. fold candidates.
  destruct candidates as [|c cs] eqn:Hc.
  - simpl. exists []. repeat split. constructor.
  - cbn [List.length Nat.eqb].
    destruct (forEachEligible_spec _ _ start end_ st Hfrom Hto (c :: cs) [] [])
      as (added & Hrun & Hmap & Hall).
    rewrite Hrun. exists added. now repeat split.
Qed.

(** A search whose criteria do not pass them fails and leaves the store
    as it is. *)
Lemma findAvailableVehicles_cases (now : Z) (criteria : Criteria) (st : Store) :
  (exists capacity start, searchable now criteria capacity start)
  \/ (exists e, findAvailableVehicles now criteria st = (Err e, st)).
Proof.
  unfold findAvailableVehicles, searchable.
  destruct criteria as [cap from to startArg]; simpl.
  unfold bindM, failIf, lift, throw_if, throw.
  destruct (truthyNum cap) eqn:Hcap; simpl; [|right; eexists; reflexivity].
  destruct (truthyStr from) eqn:Hf; simpl; [|right; eexists; reflexivity].
  destruct (truthyStr to) eqn:Ht; simpl; [|right; eexists; reflexivity].
  destruct (truthyTime startArg) eqn:Hs; simpl; [|right; eexists; reflexivity].
  destruct (isValidPincode (Str from)) eqn:Hvf; simpl; [|right; eexists; reflexivity].
  destruct (isValidPincode (Str to)) eqn:Hvt; simpl; [|right; eexists; reflexivity].
  destruct startArg as [| |start]; simpl; try (right; eexists; reflexivity).
  destruct (start <=? now) eqn:Hnow; simpl; [right; eexists; reflexivity|].
  destruct cap as [capacity|]; [|discriminate Hcap].
  left. exists capacity, start.
  apply isValidPincode_Str in Hvf, Hvt. apply Z.leb_gt in Hnow.
  refine (conj eq_refl (conj _ (conj Hvf (conj Hvt (conj eq_refl Hnow))))).
  intros Hz. apply Qeq_bool_iff in Hz. unfold truthyNum in Hcap. rewrite Hz in Hcap.
  discriminate Hcap.
Qed.



End Search.

Section BookingCreation.
Import Js RideCalculationService VehicleService BookingService Spec.

Lemma digit_not_space (c : ascii) : isDigit c = true -> isSpace c = false.
Proof.
  unfold isDigit, isSpace. generalize (nat_of_ascii c). intros n H.
  apply andb_true_iff in H. destruct H as [H1 H2].
  apply Nat.leb_le in H1. apply Nat.leb_le in H2.
  apply orb_false_iff. split; [apply orb_false_iff; split|].
  - apply Nat.eqb_neq. lia.
  - apply andb_false_iff. right. apply Nat.leb_gt. lia.
  - apply Nat.eqb_neq. lia.
Qed.

Lemma trimEnd_digits (s : string) :
  Forall (fun c => isDigit c = true) (list_ascii_of_string s) -> trimEnd s = s.
Proof.
  induction s as [|c s IH]; simpl; [reflexivity|].
  intros H. inversion H as [|? ? Hc Hs]; subst. rewrite (IH Hs).
  destruct s; [now rewrite (digit_not_space c Hc) | reflexivity].
Qed.

(** Trimming leaves a pincode as it is. *)
Lemma trim_sixDigits (s : string) : sixDigits s -> trim s = s.
Proof.
  intros [_ Hf]. unfold trim.
  assert (Hstart : trimStart s = s).
  { destruct s as [|c s]; [reflexivity|]. simpl.
    inversion Hf as [|? ? Hc Hs]; subst. now rewrite (digit_not_space c Hc). }
  rewrite Hstart. now apply trimEnd_digits.
Qed.

Lemma truthyStr_true (s : string) : truthyStr s = true <-> s <> EmptyString.
Proof. destruct s; simpl; split; congruence. Qed.

(** The schema validation of the document [createBooking] builds, once
    the validations of the service have passed, comes down to two checks. *)
Lemma new_Booking_validate (saveNow : Z) (newId oid : ObjectId) (cust from to : string)
      (start : Z) :
  sixDigits from -> sixDigits to ->
  let doc := new_Booking newId oid cust from to start (endOfRide start from to)
               (estimateDuration from to) Booking.confirmed in
  Booking.validate saveNow doc = truthyStr (trim cust) && (saveNow <? start)
  /\ Booking.preSave doc = true.
Proof.
  intros Hf Ht doc. unfold Booking.validate, Booking.preSave. simpl.
  rewrite (trim_sixDigits _ Hf), (trim_sixDigits _ Ht).
  assert (Hrf : pincodeRegex_test (Str from) = true) by now apply isValidPincode_Str.
  assert (Hrt : pincodeRegex_test (Str to) = true) by now apply isValidPincode_Str.
  rewrite Hrf, Hrt.
  assert (Hq : Qle_bool (1 # 10) (estimateDuration from to) = true).
  { apply Qle_bool_iff. apply Qle_trans with (1 # 2)%Q; [discriminate | apply Q.le_max_r]. }
  rewrite Hq. split.
  - now rewrite !andb_true_r.
  - pose proof (endOfRide_bounds start from to).
    apply negb_true_iff, Z.leb_gt. lia.
Qed.

(** When exactly [createBooking] succeeds, and with what. *)
Lemma createBooking_success (now saveNow : Z) (newId : ObjectId) (data : BookingData)
      (st : Store) (b : Booking.t) (v : option Vehicle.t) (st' : Store) :
  createBooking now saveNow newId data st = (Ok (b, v), st')
  <-> exists oid start,
        validated now st data oid start
        /\ conflicts st data oid start = []
        /\ trim (bd_customerId data) <> EmptyString
        /\ saveNow < start
        /\ ~ In newId (map Booking._id (bookings st))
        /\ b = Booking.stamp saveNow
                 (new_Booking newId oid (bd_customerId data) (bd_fromPincode data)
                    (bd_toPincode data) start
                    (endOfRide start (bd_fromPincode data) (bd_toPincode data))
                    (estimateDuration (bd_fromPincode data) (bd_toPincode data))
                    Booking.confirmed)
        /\ v = Db.findVehicle oid (vehicles st)
        /\ st' = {| vehicles := vehicles st; bookings := bookings st ++ [b] |}.
Proof.
  unfold createBooking, on11000.
  destruct (createBooking_try_cases now saveNow newId data st)
    as [(oid & start & Hv) | (e & He & _)].
  - rewrite (createBooking_try_validated _ saveNow newId _ _ _ _ Hv).
    pose proof Hv as (_ & _ & _ & Hf & Ht & _).
    destruct (new_Booking_validate saveNow newId oid (bd_customerId data) _ _ start Hf Ht)
      as [Hval Hpre].
    assert (Huniq : forall oid' start', validated now st data oid' start' ->
                                        oid' = oid /\ start' = start)
      by (intros; eapply validated_fun; eassumption).
    destruct (Nat.ltb 0 (List.length (conflicts st data oid start))) eqn:Hover.
    + split; [discriminate|]. intros (oid' & start' & Hv' & Hnone & _).
      destruct (Huniq _ _ Hv') as [-> ->]. rewrite Hnone in Hover. discriminate Hover.
    + assert (Hnone : conflicts st data oid start = []).
      { destruct (conflicts st data oid start); [reflexivity | discriminate Hover]. }
      unfold bindM, Db.Booking_save, Db.populate. rewrite Hval, Hpre.
      destruct (truthyStr (trim (bd_customerId data))) eqn:Hcust; simpl.
      2:{ split; [discriminate|]. intros (_ & _ & _ & _ & Hc & _).
          apply truthyStr_true in Hc. congruence. }
      destruct (saveNow <? start) eqn:Hsave; simpl.
      2:{ split; [discriminate|]. intros (oid' & start' & Hv' & _ & _ & Hs & _).
          destruct (Huniq _ _ Hv') as [-> ->]. apply Z.ltb_ge in Hsave. lia. }
      destruct (Db.findBooking newId (bookings st)) as [x|] eqn:Hfresh; simpl.
      * split; [discriminate|]. intros (_ & _ & _ & _ & _ & _ & Hn & _).
        apply (find_none_iff newId Booking._id) in Hn. unfold Db.findBooking in Hfresh.
        congruence.
      * apply (find_none_iff newId Booking._id) in Hfresh.
        apply truthyStr_true in Hcust. apply Z.ltb_lt in Hsave. split.
        -- intros H. injection H as <- <- <-. exists oid, start.
           exact (conj Hv (conj Hnone (conj Hcust (conj Hsave (conj Hfresh
                    (conj eq_refl (conj eq_refl eq_refl))))))).
        -- intros (oid' & start' & Hv' & _ & _ & _ & _ & -> & -> & ->).
           destruct (Huniq _ _ Hv') as [-> ->]. reflexivity.
  - rewrite He. simpl. split; [discriminate|].
    intros (oid & start & Hv & Hnone & Hc & Hs & Hn & _).
    rewrite (createBooking_try_validated _ saveNow newId _ _ _ _ Hv) in He.
    pose proof Hv as (_ & _ & _ & Hf & Ht & _).
    destruct (new_Booking_validate saveNow newId oid (bd_customerId data) _ _ start Hf Ht)
      as [Hval Hpre].
    apply truthyStr_true in Hc. apply Z.ltb_lt in Hs.
    apply (find_none_iff newId Booking._id) in Hn.
    rewrite Hnone in He. unfold bindM, Db.Booking_save, Db.populate in He.
    unfold Db.findBooking in He.
    rewrite Hval, Hpre, Hc, Hs in He. simpl in He. rewrite Hn in He. discriminate He.
Qed.

End BookingCreation.

Section BookingRoundTrips.
Import Js RideCalculationService VehicleService BookingService Spec.

Lemma find_unique {A : Type} (key : A -> ObjectId) (l : list A) (a : A) :
  NoDup (map key l) -> In a l ->
  find (fun x => N.eqb (key x) (key a)) l = Some a.
Proof.
  induction l as [|x l IH]; simpl; [tauto|].
  intros Hnd [-> | Hin].
  - now rewrite N.eqb_refl.
  - inversion Hnd as [|? ? Hx Hl]; subst.
    destruct (N.eqb (key x) (key a)) eqn:E; [|now apply IH].
    apply N.eqb_eq in E. exfalso. apply Hx. rewrite E. now apply in_map.
Qed.



(** X10: getBookingById never changes the store; it fails with
    BookingNotFound exactly when no stored booking has the id, and
    otherwise returns a stored booking with that id together with the
    vehicle it refers to.  Right after a successful createBooking it
    returns what createBooking returned: the new booking with its vehicle,
    which is stored and active. *)
Theorem getBookingById_roundtrip (id : ObjectId) (st : Store) :
  snd (getBookingById id st) = st
  /\ (fst (getBookingById id st) = Err BookingNotFound
      <-> ~ In id (map Booking._id (bookings st)))
  /\ (forall b v, fst (getBookingById id st) = Ok (b, v) ->
                  In b (bookings st) /\ Booking._id b = id
                  /\ v = Db.findVehicle (Booking.vehicleId b) (vehicles st))
  /\ (forall now saveNow data st0 b v,
        createBooking now saveNow id data st0 = (Ok (b, v), st) ->
        getBookingById id st = (Ok (b, v), st)
        /\ exists vehicle, v = Some vehicle
                           /\ In vehicle (vehicles st)
                           /\ Vehicle._id vehicle = Booking.vehicleId b
                           /\ Vehicle.status vehicle = Vehicle.active).
Proof.
  unfold getBookingById, bindM, Db.Booking_findById, Db.populate, throw.
  split; [now destruct (Db.findBooking id (bookings st))|].
  split; [|split].
  - rewrite <- (find_none_iff id Booking._id). unfold Db.findBooking.
    destruct (find _ (bookings st)); simpl; split; congruence.
  - intros b v. destruct (Db.findBooking id (bookings st)) as [w|] eqn:Hw; simpl;
      [|discriminate].
    intros H. injection H as <- <-.
    destruct (find_by_id Booking._id _ _ _ Hw) as [Hin Hid]. now repeat split.
  - intros now saveNow data st0 b v Hok.
    apply createBooking_success in Hok.
    destruct Hok as (oid & start & Hv & _ & _ & _ & Hfresh & Hb & -> & ->).
    simpl. unfold Db.findBooking. rewrite find_app_fresh with (a := b).
    + assert (Hvid : Booking.vehicleId b = oid) by now rewrite Hb.
      rewrite Hvid. split; [reflexivity|].
      destruct Hv as (_ & _ & (vehicle & Hfind & Hact) & _).
      exists vehicle.
      destruct (find_by_id Vehicle._id _ _ _ Hfind) as [Hin Hid].
      split; [exact Hfind|]. split; [exact Hin|]. split; [exact Hid | exact Hact].
    + intros x Hx. apply N.eqb_neq. intros E. apply Hfresh. rewrite <- E.
      now apply in_map.
    + rewrite Hb. apply N.eqb_refl.
Qed.

Lemma getBookingById_roundtrip_witness :
  getBookingById 10%N Examples.booked
  = (Ok (Examples.bookingA, Some Examples.truck), Examples.booked).
Proof.
  apply (proj1 (proj2 (proj2 (proj2 (getBookingById_roundtrip 10%N Examples.booked)))
                  1000 1000 Examples.request Examples.fleet Examples.bookingA
                  (Some Examples.truck) eq_refl)).
Defined.

End BookingRoundTrips.

Section SearchThenBook.
Import Js RideCalculationService VehicleService BookingService Spec.

Lemma searchable_fun now now' criteria capacity start capacity' start' :
  searchable now criteria capacity start -> searchable now' criteria capacity' start' ->
  capacity' = capacity /\ start' = start.
Proof.
  intros (Hc & _ & _ & _ & Hs & _) (Hc' & _ & _ & _ & Hs' & _).
  rewrite Hc in Hc'. rewrite Hs in Hs'.
  injection Hc' as ->. injection Hs' as ->. now split.
Qed.

Lemma isFree_true (st : Store) (start end_ : Z) (v : Vehicle.t) :
  isFree st start end_ v = true
  <-> Booking.findOverlappingBookings (bookings st) (Vehicle._id v) start end_ None = [].
Proof.
  unfold isFree.
  destruct (Booking.findOverlappingBookings _ _ _ _ _); split; congruence.
Qed.

(** X11: search and booking agree.  In a store where vehicle ids are
    unique, a vehicle that findAvailableVehicles returns can be booked by
    createBooking for the same route and start time, as long as the start
    time is still ahead, the customer id is not empty once trimmed (of the
    white space U+0009 to U+000D, U+0020 and U+00A0, in a string of code
    units below 256) and the new ObjectId is unused: the booking occupies exactly the window and duration the
    search announced, and createBooking returns that vehicle with it.
    After that the same search no longer lists the vehicle. *)
Theorem search_then_book
        (now now' saveNow : Z) (criteria : Criteria) (st : Store)
        (capacity : Q) (start : Z)
        (available : list AvailableVehicle) (queried : list ObjectId)
        (av : AvailableVehicle) (customerId : string) (newId : ObjectId)
        (Hunique : NoDup (map Vehicle._id (vehicles st)))
        (Hsearch : searchable now criteria capacity start)
        (Hfound : fst (findAvailableVehicles now criteria st) = Ok (available, queried))
        (Hav : In av available)
        (Hcust : trim customerId <> EmptyString)
        (Hnow : now' < start) (Hsave : saveNow < start)
        (Hfresh : ~ In newId (map Booking._id (bookings st))) :
  exists b st',
    createBooking now' saveNow newId (bookingFor criteria (av_vehicle av) customerId) st
    = (Ok (b, Some (av_vehicle av)), st')
    /\ In b (bookings st')
    /\ Booking.vehicleId b = Vehicle._id (av_vehicle av)
    /\ Booking.startTime b = requestedStartTime (av_searchCriteria av)
    /\ Booking.endTime b = requestedEndTime (av_searchCriteria av)
    /\ Some (Booking.estimatedRideDurationHours b) = av_estimatedRideDurationHours av
    /\ forall later available' queried',
         fst (findAvailableVehicles later criteria st') = Ok (available', queried') ->
         forall av', In av' available' ->
                     Vehicle._id (av_vehicle av') <> Vehicle._id (av_vehicle av).
Proof.
  destruct (findAvailableVehicles_run now criteria st capacity start Hsearch)
    as (available0 & Hrun & Hmap & Hall).
  rewrite Hrun in Hfound. simpl in Hfound. injection Hfound as <- _.
  pose proof Hsearch as (Hcap & _ & Hfrom & Hto & Hstart & _).
  assert (Hin : In (av_vehicle av)
                   (filter (isFree st start
                              (endOfRide start (c_fromPincode criteria) (c_toPincode criteria)))
                      (filter (eligibleQuery capacity) (vehicles st)))).
  { rewrite <- Hmap. now apply in_map. }
  apply filter_In in Hin. destruct Hin as [Hin Hfree].
  apply filter_In in Hin. destruct Hin as [Hin Helig].
  apply eligibleQuery_iff in Helig. destruct Helig as [_ Hactive].
  apply isFree_true in Hfree.
  rewrite Forall_forall in Hall. destruct (Hall av Hav) as (Hdur & _ & Hcrit).
  set (data := bookingFor criteria (av_vehicle av) customerId).
  assert (Hv : validated now' st data (Vehicle._id (av_vehicle av)) start).
  { refine (conj eq_refl (conj _ (conj _ (conj Hfrom (conj Hto (conj Hstart Hnow)))))).
    - simpl. destruct customerId; [now contradiction Hcust | reflexivity].
    - exists (av_vehicle av). split; [|exact Hactive].
      now apply (find_unique Vehicle._id). }
  eexists. eexists. split.
  { apply createBooking_success. exists (Vehicle._id (av_vehicle av)), start.
    refine (conj Hv (conj Hfree (conj Hcust (conj Hsave (conj Hfresh
              (conj eq_refl (conj _ eq_refl))))))).
    symmetry. now apply (find_unique Vehicle._id). }
  split; [simpl; apply in_or_app; right; now left|].
  split; [reflexivity|].
  split; [now rewrite Hcrit|].
  split; [now rewrite Hcrit|].
  split; [now rewrite Hdur|].
  intros later available' queried' Hlater av' Hav' Hsame.
  match goal with
  | H : fst (findAvailableVehicles later criteria ?s) = _ |- _ => set (st' := s) in *
  end.
  destruct (findAvailableVehicles_cases later criteria st')
    as [(capacity' & start' & Hsearch') | (e & He)];
    [|rewrite He in Hlater; discriminate Hlater].
  destruct (searchable_fun _ _ _ _ _ _ _ Hsearch Hsearch') as [-> ->].
  destruct (findAvailableVehicles_run later criteria st' capacity start Hsearch')
    as (available1 & Hrun' & Hmap' & _).
  rewrite Hrun' in Hlater. simpl in Hlater. injection Hlater as <- _.
  assert (Hin' : In (av_vehicle av')
                    (filter (isFree st' start
                               (endOfRide start (c_fromPincode criteria)
                                  (c_toPincode criteria)))
                       (filter (eligibleQuery capacity) (vehicles st')))).
  { rewrite <- Hmap'. now apply in_map. }
  apply filter_In in Hin'. destruct Hin' as [_ Hfree'].
  apply isFree_true in Hfree'. rewrite Hsame in Hfree'.
  pose proof (endOfRide_bounds start (c_fromPincode criteria) (c_toPincode criteria)).
  unfold Booking.findOverlappingBookings in Hfree'. subst st'. simpl in Hfree'.
  rewrite filter_app in Hfree'. apply app_eq_nil in Hfree'. destruct Hfree' as [_ Hlast].
  simpl in Hlast.
  match type of Hlast with
  | (if ?c then _ else _) = _ => assert (Hc : c = true)
  end.
  { apply overlapQuery_iff. simpl.
    split; [reflexivity|]. split; [now left|]. split; [lia|]. split; [lia|].
    intros x Hx. discriminate Hx. }
  rewrite Hc in Hlast. discriminate Hlast.
Qed.

Lemma search_then_book_witness :
  exists av b st',
    av_vehicle av = Examples.truck
    /\ createBooking 1000 1000 10%N
         (bookingFor Examples.search (av_vehicle av) "TEST_CUSTOMER_001") Examples.fleet
       = (Ok (b, Some (av_vehicle av)), st').
Proof.
  assert (Hsix : forall s, String.length s = 6%nat ->
                           forallb isDigit (list_ascii_of_string s) = true -> sixDigits s).
  { intros s Hl Hd. split; [exact Hl|]. apply Forall_forall. intros c Hc.
    rewrite forallb_forall in Hd. now apply Hd. }
  assert (Hsearch : searchable 0 Examples.search 500 (24 * Examples.hour)).
  { refine (conj eq_refl (conj _ (conj _ (conj _ (conj eq_refl eq_refl))))).
    - discriminate.
    - apply Hsix; reflexivity.
    - apply Hsix; reflexivity. }
  destruct (findAvailableVehicles_run 0 Examples.search Examples.fleet 500
              (24 * Examples.hour) Hsearch) as (available & Hrun & Hmap & _).
  vm_compute in Hmap.
  destruct available as [|av [|]]; try discriminate Hmap.
  injection Hmap as Hav. exists av.
  destruct (search_then_book 0 1000 1000 Examples.search Examples.fleet 500
              (24 * Examples.hour) [av] (map Vehicle._id
                 (filter (eligibleQuery 500) (vehicles Examples.fleet)))
              av "TEST_CUSTOMER_001" 10%N)
    as (b & st' & Hbook & _).
  - vm_compute. repeat constructor. intros [].
  - exact Hsearch.
  - rewrite Hrun. reflexivity.
  - now left.
  - discriminate.
  - reflexivity.
  - reflexivity.
  - intros [].
  - exists b, st'. split; [exact Hav | exact Hbook].
Defined.

End SearchThenBook.

Section Consistency.
Import Js RideCalculationService VehicleService BookingService Spec.

Lemma NoDup_snoc {A : Type} (l : list A) (a : A) :
  NoDup l -> ~ In a l -> NoDup (l ++ [a]).
Proof.
  induction l as [|x l IH]; simpl; intros Hnd Ha.
  - constructor; [intros [] | constructor].
  - inversion Hnd as [|? ? Hx Hl]; subst. constructor.
    + intros Hin. apply in_app_or in Hin. destruct Hin as [Hin | [-> | []]].
      * now apply Hx.
      * apply Ha. now left.
    + apply IH; [exact Hl | intros Hin; apply Ha; now right].
Qed.

Lemma Forall_updateFirst {A : Type} (P : A -> Prop) (p : A -> bool) (f : A -> A)
      (l : list A) :
  (forall x, P x -> P (f x)) -> Forall P l -> Forall P (Db.updateFirst p f l).
Proof.
  intros Hf. induction 1 as [|x l Hx Hl IH]; simpl; [constructor|].
  destruct (p x); constructor; auto.
Qed.

Lemma removeFirst_keeps {A B : Type} (key : A -> B) (p : A -> bool) (l : list A) :
  NoDup (map key l) -> NoDup (map key (Db.removeFirst p l)).
Proof.
  induction l as [|x l IH]; simpl; [auto|].
  intros Hnd. inversion Hnd as [|? ? Hx Hl]; subst.
  destruct (p x); [exact Hl|]. simpl. constructor; [|now apply IH].
  intros Hin. apply Hx. apply in_map_iff in Hin. destruct Hin as (y & Hy & Hin).
  apply in_map_iff. exists y. split; [exact Hy|]. now apply In_removeFirst in Hin.
Qed.

Lemma consistent_empty : consistent {| vehicles := []; bookings := [] |}.
Proof.
  split; [|split; [|split]].
  - split; [|split]; constructor.
  - intros b [].
  - constructor.
  - constructor.
Qed.

Lemma validate_saved (now random : Z) (doc : Vehicle.t) :
  Vehicle.validate (Vehicle.stamp now (Vehicle.preSave now random doc))
  = Vehicle.validate doc.
Proof.
  unfold Vehicle.preSave. now destruct (truthyStr (Vehicle.registrationNumber doc)).
Qed.

Lemma createVehicle_keeps_consistent now random newId data st :
  consistent st -> consistent (snd (createVehicle now random newId data st)).
Proof.
  intros Hc.
  destruct (createVehicle_outcome now random newId data st)
    as [(_ & ->) | [(_ & _ & ->) | (Hval & Hfresh & ->)]]; simpl; try exact Hc.
  destruct Hc as ((Hid & Hreg & Hbid) & Href & Hwb & Hwv).
  split; [|split; [|split]]; simpl.
  - split; [|split; [|exact Hbid]]; simpl; rewrite map_app; simpl; apply NoDup_snoc;
      try assumption.
    + rewrite preSave_id. simpl. intros Hin. apply in_map_iff in Hin.
      destruct Hin as (v & Hv & Hin). now apply (proj1 (Hfresh v Hin)).
    + intros Hin. apply in_map_iff in Hin.
      destruct Hin as (v & Hv & Hin). now apply (proj2 (Hfresh v Hin)).
  - intros b Hb. simpl. rewrite map_app. apply in_or_app. left. now apply Href.
  - exact Hwb.
  - apply Forall_app. split; [exact Hwv|]. constructor; [|constructor].
    split; [now rewrite validate_saved|].
    apply (preSave_registrationNumber now random (new_Vehicle newId data)).
Qed.

Lemma vehicles_updated_consistent (p : Vehicle.t -> bool) (s : Vehicle.Status) (now : Z)
      (st : Store) :
  consistent st ->
  consistent {| vehicles := Db.updateFirst p (Vehicle.set_status s now) (vehicles st);
                bookings := bookings st |}.
Proof.
  intros ((Hid & Hreg & Hbid) & Href & Hwb & Hwv).
  split; [|split; [|split]]; simpl.
  - split; [|split; [|exact Hbid]]; simpl; now rewrite map_updateFirst.
  - intros b Hb. simpl. rewrite map_updateFirst; [now apply Href | reflexivity].
  - exact Hwb.
  - apply Forall_updateFirst; [|exact Hwv]. intros v Hv. exact Hv.
Qed.

Lemma updateVehicleStatus_keeps_consistent now id status st :
  consistent st -> consistent (snd (updateVehicleStatus now id status st)).
Proof.
  intros Hc. unfold updateVehicleStatus, bindM, Db.Vehicle_findByIdAndUpdate.
  destruct (Db.findVehicle id (vehicles st)); simpl; [|exact Hc].
  now apply vehicles_updated_consistent.
Qed.

Lemma deleteVehicle_keeps_consistent now id st :
  consistent st -> consistent (snd (deleteVehicle now id st)).
Proof.
  intros Hc. unfold deleteVehicle, bindM, failIf, lift, throw_if, Db.Booking_find,
    Db.Vehicle_findByIdAndUpdate.
  destruct (Nat.ltb 0 _); simpl; [exact Hc|].
  destruct (Db.findVehicle id (vehicles st)); simpl; [|exact Hc].
  now apply vehicles_updated_consistent.
Qed.

Lemma createBooking_keeps_consistent now saveNow newId data st :
  consistent st -> consistent (snd (createBooking now saveNow newId data st)).
Proof.
  intros Hc.
  destruct (createBooking now saveNow newId data st) as [[[b v]|e] st'] eqn:Hrun.
  2:{ destruct (createBooking_outcome now saveNow newId data st)
        as [(e' & He & _) | (oid & start & _ & _ & _ & Hok)]; rewrite Hrun in *.
      - injection He as _ ->. exact Hc.
      - discriminate Hok. }
  apply createBooking_success in Hrun.
  destruct Hrun as (oid & start & Hv & _ & Hcust & _ & Hfresh & Hb & _ & ->).
  destruct Hv as (_ & _ & (vehicle & Hfind & _) & Hfrom & Hto & _).
  destruct (find_by_id Vehicle._id _ _ _ Hfind) as [Hin Hid].
  destruct Hc as ((Hvid & Hreg & Hbid) & Href & Hwb & Hwv).
  split; [|split; [|split]]; simpl.
  - split; [exact Hvid|]. split; [exact Hreg|]. simpl. rewrite map_app. simpl.
    apply NoDup_snoc; [exact Hbid|]. now rewrite Hb.
  - intros x Hx. simpl in Hx. simpl. apply in_app_or in Hx.
    destruct Hx as [Hx | [<- | []]]; [now apply Href|].
    rewrite Hb. simpl. rewrite <- Hid. now apply in_map.
  - apply Forall_app. split; [exact Hwb|]. constructor; [|constructor].
    rewrite Hb. unfold wellFormedBooking. simpl.
    rewrite (trim_sixDigits _ Hfrom), (trim_sixDigits _ Hto).
    exact (conj Hcust (conj Hfrom (conj Hto (conj eq_refl (conj eq_refl eq_refl))))).
  - exact Hwv.
Qed.

(** A status update whose extra fields leave the ride as booked keeps the
    store consistent. *)
Lemma updateBookingStatus_keeps_consistent now id status extra st :
  keepsRide extra ->
  consistent st -> consistent (snd (updateBookingStatus now id status extra st)).
Proof.
  intros Hkeeps Hc. unfold updateBookingStatus, bindM, failIf, lift, throw_if, throw,
    Db.Booking_findByIdAndUpdate, Db.populate.
  destruct (Booking.validateUpdate now (updateDataOf now status extra)) eqn:Hval;
    simpl; [|exact Hc].
  destruct (Db.findBooking id (bookings st)); simpl; [|exact Hc].
  apply validateUpdate_acceptable in Hval.
  destruct Hval as (Hcust & _ & _ & _ & _ & Hnotes).
  destruct (updateDataOf_keys now status extra)
    as (_ & _ & Kc & _ & _ & _ & _ & _ & Kn). cbv zeta in Kc, Kn.
  destruct Hc as ((Hvid & Hreg & Hbid) & Href & Hwb & Hwv).
  split; [|split; [|split]]; simpl.
  - split; [exact Hvid|]. split; [exact Hreg|]. simpl.
    now rewrite map_updateFirst.
  - intros b Hb. simpl in Hb. simpl. apply In_updateFirst in Hb.
    destruct Hb as [Hb | (y & Hy & ->)]; [now apply Href|].
    destruct (applyUpdate_keepsRide now status extra y Hkeeps) as (-> & _).
    now apply Href.
  - apply Forall_updateFirst; [|exact Hwb].
    intros b (H1 & H2 & H3 & H4 & H5 & H6).
    destruct (applyUpdate_keepsRide now status extra b Hkeeps)
      as (_ & Kf & Kt & Ks & Ke & Kd). cbv zeta in Kf, Kt, Ks, Ke, Kd.
    unfold wellFormedBooking. rewrite Kf, Kt, Ks, Ke, Kd.
    refine (conj _ (conj H2 (conj H3 (conj H4 (conj H5 _))))).
    + unfold Booking.applyUpdate. cbn [Booking.customerId]. rewrite Kc.
      destruct (ad_customerId extra) as [c|]; simpl; [now apply Hcust | exact H1].
    + unfold Booking.applyUpdate. cbn [Booking.notes]. rewrite Kn.
      destruct (ad_notes extra) as [n|]; simpl; [|exact H6].
      apply Nat.leb_le. now apply Hnotes.
  - exact Hwv.
Qed.

(** [cancelBooking], check by check. *)
Lemma cancelBooking_unfold now id reason st :
  cancelBooking now id reason st =
  match Db.findBooking id (bookings st) with
  | None => (Err BookingNotFound, st)
  | Some b =>
      if Booking.status_eqb (Booking.status b) Booking.completed
      then (Err AlreadyCompleted, st)
      else if Booking.status_eqb (Booking.status b) Booking.cancelled
      then (Err AlreadyCancelled, st)
      else if Qle_bool 2 (inject_Z (Booking.startTime b - now) / (1000 * 60 * 60))
      then updateBookingStatus now id Booking.cancelled
             (notesOnly (if truthyStr reason then "Cancelled: " ++ reason
                         else "Cancelled by user")%string) st
      else (Err TooCloseToStart, st)
  end.
Proof.
  unfold cancelBooking, bindM, Db.Booking_findById, failIf, lift, throw_if, throw.
  destruct (Db.findBooking id (bookings st)) as [b|]; [|reflexivity].
  destruct (Booking.status_eqb (Booking.status b) Booking.completed); [reflexivity|].
  destruct (Booking.status_eqb (Booking.status b) Booking.cancelled); [reflexivity|].
  destruct (Qle_bool 2 _); reflexivity.
Qed.

(** A cancellation changes the store, if at all, as the status update to
    'cancelled' it ends with, whose only extra field is notes. *)
Lemma cancelBooking_store now id reason st :
  snd (cancelBooking now id reason st) = st
  \/ exists notes,
       snd (cancelBooking now id reason st)
       = snd (updateBookingStatus now id Booking.cancelled (notesOnly notes) st).
Proof.
  rewrite cancelBooking_unfold.
  destruct (Db.findBooking id (bookings st)) as [b|]; [|now left].
  destruct (Booking.status_eqb (Booking.status b) Booking.completed); [now left|].
  destruct (Booking.status_eqb (Booking.status b) Booking.cancelled); [now left|].
  destruct (Qle_bool 2 _); [|now left].
  right. eexists. reflexivity.
Qed.

Lemma cancelBooking_keeps_consistent now id reason st :
  consistent st -> consistent (snd (cancelBooking now id reason st)).
Proof.
  intros Hc. destruct (cancelBooking_store now id reason st) as [-> | (notes & ->)];
    [exact Hc|].
  apply updateBookingStatus_keeps_consistent; [apply keepsRide_notesOnly | exact Hc].
Qed.

Lemma deleteBooking_keeps_consistent id st :
  consistent st -> consistent (snd (deleteBooking id st)).
Proof.
  intros Hc. unfold deleteBooking, bindM at 1, Db.Booking_findById.
  destruct (Db.findBooking id (bookings st)) as [b|]; simpl; [|exact Hc].
  unfold bindM, failIf, lift, throw_if, Db.Booking_findByIdAndDelete, ret.
  destruct (negb (Booking.status_eqb (Booking.status b) Booking.cancelled)); simpl;
    [exact Hc|].
  destruct Hc as ((Hvid & Hreg & Hbid) & Href & Hwb & Hwv).
  split; [|split; [|split]]; simpl.
  - split; [exact Hvid|]. split; [exact Hreg|]. simpl. now apply removeFirst_keeps.
  - intros x Hx. simpl in Hx. simpl. apply In_removeFirst in Hx. now apply Href.
  - rewrite Forall_forall in *. intros x Hx. apply In_removeFirst in Hx. now apply Hwb.
  - exact Hwv.
Qed.

(** The stored data stay consistent as long as the extra fields of the
    status updates leave the rides as booked. *)
Lemma reachable_if_consistent
      (ok : Store -> ObjectId -> Booking.Status -> AdditionalData -> Prop) (st : Store) :
  (forall st id status extra, ok st id status extra -> keepsRide extra) ->
  reachable_if ok st -> consistent st.
Proof.
  intros Hok. induction 1.
  - exact consistent_empty.
  - now apply createVehicle_keeps_consistent.
  - now apply updateVehicleStatus_keeps_consistent.
  - now apply deleteVehicle_keeps_consistent.
  - now apply createBooking_keeps_consistent.
  - apply updateBookingStatus_keeps_consistent; [eapply Hok; eassumption | assumption].
  - now apply cancelBooking_keeps_consistent.
  - now apply deleteBooking_keeps_consistent.
Qed.

(** The keys and the vehicles, which no booking operation touches: the
    part of consistency that every status update keeps, whatever its
    extra fields. *)
Lemma bookings_changed_keys (st : Store) (l : list Booking.t) :
  map Booking._id l = map Booking._id (bookings st) ->
  uniqueKeys st /\ Forall wellFormedVehicle (vehicles st) ->
  uniqueKeys {| vehicles := vehicles st; bookings := l |}
  /\ Forall wellFormedVehicle (vehicles st).
Proof.
  intros Hl ((Hvid & Hreg & Hbid) & Hwv).
  split; [|exact Hwv]. split; [exact Hvid|]. split; [exact Hreg|].
  simpl. now rewrite Hl.
Qed.

Lemma updateBookingStatus_keeps_keys now id status extra st :
  uniqueKeys st /\ Forall wellFormedVehicle (vehicles st) ->
  uniqueKeys (snd (updateBookingStatus now id status extra st))
  /\ Forall wellFormedVehicle (vehicles (snd (updateBookingStatus now id status extra st))).
Proof.
  intros Hc. unfold updateBookingStatus, bindM, failIf, lift, throw_if, throw,
    Db.Booking_findByIdAndUpdate, Db.populate.
  destruct (Booking.validateUpdate now (updateDataOf now status extra));
    simpl; [|exact Hc].
  destruct (Db.findBooking id (bookings st)); simpl; [|exact Hc].
  apply (bookings_changed_keys st); [|exact Hc].
  now rewrite map_updateFirst.
Qed.

Lemma reachable_keys (st : Store) :
  reachable st -> uniqueKeys st /\ Forall wellFormedVehicle (vehicles st).
Proof.
  assert (Hweak : forall s, consistent s ->
                            uniqueKeys s /\ Forall wellFormedVehicle (vehicles s)).
  { intros s (Hu & _ & _ & Hwv). now split. }
  (* every operation but the status update acts on the keys and the
     vehicles as it does on a store without bookings' further data *)
  induction 1 as [|st now random newId data Hr IH|st now id status Hr IH
                  |st now id Hr IH|st now saveNow newId data Hr IH
                  |st now id status extra Hr IH _|st now id reason Hr IH|st id Hr IH].
  - apply Hweak, consistent_empty.
  - pose proof IH as ((Hid & Hreg & Hbid) & Hwv).
    destruct (createVehicle_outcome now random newId data st)
      as [(_ & ->) | [(_ & _ & ->) | (Hval & Hfresh & ->)]]; simpl;
      try exact IH.
    split; [split; [|split; [|exact Hbid]]|]; simpl.
    + rewrite map_app. simpl. apply NoDup_snoc; [exact Hid|].
      rewrite preSave_id. simpl. intros Hin. apply in_map_iff in Hin.
      destruct Hin as (v & Hv & Hin). now apply (proj1 (Hfresh v Hin)).
    + rewrite map_app. simpl. apply NoDup_snoc; [exact Hreg|].
      intros Hin. apply in_map_iff in Hin.
      destruct Hin as (v & Hv & Hin). now apply (proj2 (Hfresh v Hin)).
    + apply Forall_app. split; [exact Hwv|]. constructor; [|constructor].
      split; [now rewrite validate_saved|].
      apply (preSave_registrationNumber now random (new_Vehicle newId data)).
  - pose proof IH as ((Hid & Hreg & Hbid) & Hwv).
    unfold updateVehicleStatus, bindM, Db.Vehicle_findByIdAndUpdate.
    destruct (Db.findVehicle id (vehicles st)); simpl;
      [|exact IH].
    split; [split; [|split; [|exact Hbid]]|]; simpl.
    + now rewrite map_updateFirst.
    + now rewrite map_updateFirst.
    + apply Forall_updateFirst; [|exact Hwv]. intros v Hv. exact Hv.
  - pose proof IH as ((Hid & Hreg & Hbid) & Hwv).
    unfold deleteVehicle, bindM, failIf, lift, throw_if, Db.Booking_find,
      Db.Vehicle_findByIdAndUpdate.
    destruct (Nat.ltb 0 _); simpl; [exact IH|].
    destruct (Db.findVehicle id (vehicles st)); simpl;
      [|exact IH].
    split; [split; [|split; [|exact Hbid]]|]; simpl.
    + now rewrite map_updateFirst.
    + now rewrite map_updateFirst.
    + apply Forall_updateFirst; [|exact Hwv]. intros v Hv. exact Hv.
  - pose proof IH as ((Hid & Hreg & Hbid) & Hwv).
    destruct (createBooking now saveNow newId data st) as [[[b v]|e] st'] eqn:Hrun.
    2:{ destruct (createBooking_outcome now saveNow newId data st)
          as [(e' & He & _) | (oid & start & _ & _ & _ & Hok)]; rewrite Hrun in *.
        - injection He as _ ->. simpl. exact IH.
        - discriminate Hok. }
    apply createBooking_success in Hrun.
    destruct Hrun as (oid & start & _ & _ & _ & _ & Hfresh & Hb & _ & ->).
    simpl. split; [split; [exact Hid|split; [exact Hreg|]]|exact Hwv].
    simpl. rewrite map_app. simpl. apply NoDup_snoc; [exact Hbid|]. now rewrite Hb.
  - now apply updateBookingStatus_keeps_keys.
  - destruct (cancelBooking_store now id reason st) as [-> | (notes & ->)];
      [exact IH | now apply updateBookingStatus_keeps_keys].
  - pose proof IH as ((Hid & Hreg & Hbid) & Hwv).
    unfold deleteBooking, bindM, Db.Booking_findById, failIf, lift, throw_if, throw,
      Db.Booking_findByIdAndDelete, ret.
    destruct (Db.findBooking id (bookings st)) as [b|]; simpl;
      [|exact IH].
    destruct (negb (Booking.status_eqb (Booking.status b) Booking.cancelled)); simpl;
      [exact IH|].
    split; [split; [exact Hid|split; [exact Hreg|]]|exact Hwv].
    simpl. now apply removeFirst_keeps.
Qed.

(** X12: in every state that the operations of the two services produce,
    one after the other from the empty store, whatever their arguments and
    outcomes: no two vehicles share an id or a registration number, no
    two bookings share an id, and every stored vehicle passes the schema
    validation and has a registration number.  When moreover the extra
    fields of the status updates leave the rides as booked (they set
    neither vehicle, pincodes, start or end time nor duration): every
    booking refers to a stored vehicle (vehicles are never removed); every
    stored booking has a customer id, two six-digit pincodes, the duration
    estimated for them, the end time computed from its start time, and
    notes of at most 500 code units; so every stored booking lasts
    between 30 minutes and 23 hours. *)
Theorem reachable_consistent (st : Store) :
  (reachable st -> uniqueKeys st /\ Forall wellFormedVehicle (vehicles st))
  /\ (reachable_if (fun _ _ _ extra => keepsRide extra) st ->
      referencesHold st
      /\ Forall wellFormedBooking (bookings st)
      /\ forall b, In b (bookings st) ->
                   Booking.startTime b + 1800000 <= Booking.endTime b
                   <= Booking.startTime b + 23 * 3600000).
Proof.
  split; [apply reachable_keys|].
  intros Hreach.
  destruct (reachable_if_consistent _ st (fun _ _ _ _ H => H) Hreach)
    as (_ & Hr & Hwb & _).
  refine (conj Hr (conj Hwb _)).
  intros b Hb. rewrite Forall_forall in Hwb.
  destruct (Hwb b Hb) as (_ & _ & _ & _ & -> & _).
  apply endOfRide_bounds.
Qed.

Lemma reachable_consistent_witness :
  uniqueKeys Examples.booked /\ referencesHold Examples.booked.
Proof.
  assert (Hreach : forall ok, reachable_if ok Examples.booked).
  { intros ok.
    apply (reach_createBooking _ Examples.fleet 1000 1000 10%N Examples.request).
    apply (reach_createVehicle _ Examples.emptyStore 0 7 1%N Examples.truckData).
    exact (reach_empty _). }
  destruct (reachable_consistent Examples.booked) as (Hkeys & Hrest).
  split; [apply Hkeys, Hreach | apply Hrest, Hreach].
Defined.

End Consistency.

Section VehicleStatus.
Import Js RideCalculationService VehicleService BookingService Spec.

(** X13: updateVehicleStatus, for a status of the enumeration.  With an
    id that no stored vehicle has it fails with VehicleNotFound and
    changes nothing.  Otherwise it returns the vehicle with the new status
    and the time of the update, stores it in place of the old one, and
    leaves every other field, every other vehicle and all bookings as they
    were; unlike deleteVehicle it does not look at the bookings, so a
    vehicle can be retired while confirmed bookings of it remain. *)
Theorem updateVehicleStatus_effect (now : Z) (id : ObjectId) (status : Vehicle.Status)
        (st : Store) :
  (~ In id (map Vehicle._id (vehicles st)) ->
   updateVehicleStatus now id status st = (Err VehicleNotFound, st))
  /\ (forall v, Db.findVehicle id (vehicles st) = Some v ->
        exists st',
          updateVehicleStatus now id status st
          = (Ok (Vehicle.set_status status now v), st')
          /\ bookings st' = bookings st
          /\ map Vehicle._id (vehicles st') = map Vehicle._id (vehicles st)
          /\ map Vehicle.registrationNumber (vehicles st')
             = map Vehicle.registrationNumber (vehicles st)
          /\ map Vehicle.capacityKg (vehicles st') = map Vehicle.capacityKg (vehicles st)
          /\ Db.findVehicle id (vehicles st') = Some (Vehicle.set_status status now v)
          /\ (forall id', id' <> id ->
                Db.findVehicle id' (vehicles st') = Db.findVehicle id' (vehicles st))
          /\ (forall b, In b (bookings st) -> Booking.vehicleId b = id ->
                In b (bookings st'))).
Proof.
  unfold updateVehicleStatus, bindM, Db.Vehicle_findByIdAndUpdate, throw, ret. split.
  - intros Hno. apply (find_none_iff id Vehicle._id) in Hno.
    unfold Db.findVehicle. now rewrite Hno.
  - intros v Hv. rewrite Hv. eexists. split; [reflexivity|]. simpl.
    split; [reflexivity|].
    split; [now apply map_updateFirst|].
    split; [now apply map_updateFirst|].
    split; [now apply map_updateFirst|].
    split; [now apply (find_updateFirst_same Vehicle._id)|].
    split; [|auto].
    intros id' Hne. now apply (find_updateFirst_other Vehicle._id).
Qed.

Lemma updateVehicleStatus_effect_witness :
  exists st',
    updateVehicleStatus 5000 1%N Vehicle.retired Examples.booked
    = (Ok (Vehicle.set_status Vehicle.retired 5000 Examples.truck), st')
    /\ bookings st' = bookings Examples.booked.
Proof.
  destruct (proj2 (updateVehicleStatus_effect 5000 1%N Vehicle.retired Examples.booked)
              Examples.truck eq_refl) as (st' & Hrun & Hb & _).
  exists st'. split; [exact Hrun | exact Hb].
Defined.

(** X14: a vehicle that is not active (in maintenance, or retired by
    updateVehicleStatus or deleteVehicle) takes no booking: createBooking
    for its id fails whatever the other fields and leaves the store as it
    is, with the error VehicleNotActive when no field is missing.  When
    vehicle ids are unique, no search returns it either. *)
Theorem inactive_vehicle_not_bookable (id : ObjectId) (v : Vehicle.t) (st : Store)
        (Hv : Db.findVehicle id (vehicles st) = Some v)
        (Hinactive : Vehicle.status v <> Vehicle.active) :
  (forall now saveNow newId data,
     bd_vehicleId data = IdOf id ->
     exists e, createBooking now saveNow newId data st = (Err e, st)
               /\ (e = MissingFields \/ e = VehicleNotActive)
               /\ (e = MissingFields <->
                   bd_fromPincode data = EmptyString \/ bd_toPincode data = EmptyString
                   \/ bd_startTime data = NoTime \/ bd_customerId data = EmptyString))
  /\ (NoDup (map Vehicle._id (vehicles st)) ->
      forall now criteria available queried av,
        fst (findAvailableVehicles now criteria st) = Ok (available, queried) ->
        In av available -> Vehicle._id (av_vehicle av) <> id).
Proof.
  split.
  - intros now saveNow newId data Hid. unfold createBooking, on11000, createBooking_try.
    rewrite Hid. unfold bindM, failIf, lift, throw_if, Db.Vehicle_findById. simpl.
    rewrite Hv.
    assert (Hs : Vehicle.status_eqb (Vehicle.status v) Vehicle.active = false)
      by (destruct (Vehicle.status v); [now contradiction Hinactive | | ]; reflexivity).
    rewrite Hs.
    destruct (bd_fromPincode data) as [|c1 s1]; simpl.
    { exists MissingFields. split; [reflexivity|]. split; [now left|]. split; auto. }
    destruct (bd_toPincode data) as [|c2 s2]; simpl.
    { exists MissingFields. split; [reflexivity|]. split; [now left|]. split; auto. }
    destruct (bd_startTime data) as [| |t]; simpl.
    { exists MissingFields. split; [reflexivity|]. split; [now left|]. split; auto. }
    + destruct (bd_customerId data) as [|c3 s3]; simpl.
      { exists MissingFields. split; [reflexivity|]. split; [now left|]. split; auto 6. }
      exists VehicleNotActive. split; [reflexivity|]. split; [now right|].
      split; [discriminate|]. intros [H|[H|[H|H]]]; discriminate H.
    + destruct (bd_customerId data) as [|c3 s3]; simpl.
      { exists MissingFields. split; [reflexivity|]. split; [now left|]. split; auto 6. }
      exists VehicleNotActive. split; [reflexivity|]. split; [now right|].
      split; [discriminate|]. intros [H|[H|[H|H]]]; discriminate H.
  - intros Hunique now criteria available queried av Hfound Hav Hsame.
    destruct (findAvailableVehicles_cases now criteria st)
      as [(capacity & start & Hsearch) | (e & He)];
      [|rewrite He in Hfound; discriminate Hfound].
    destruct (findAvailableVehicles_run now criteria st capacity start Hsearch)
      as (available0 & Hrun & Hmap & _).
    rewrite Hrun in Hfound. simpl in Hfound. injection Hfound as <- _.
    assert (Hin : In (av_vehicle av)
                     (filter (isFree st start
                                (endOfRide start (c_fromPincode criteria)
                                   (c_toPincode criteria)))
                        (filter (eligibleQuery capacity) (vehicles st)))).
    { rewrite <- Hmap. now apply in_map. }
    apply filter_In in Hin. destruct Hin as [Hin _].
    apply filter_In in Hin. destruct Hin as [Hin Helig].
    apply eligibleQuery_iff in Helig. destruct Helig as [_ Hactive].
    pose proof (find_unique Vehicle._id _ _ Hunique Hin) as Hfind.
    rewrite Hsame in Hfind. unfold Db.findVehicle in Hv. rewrite Hv in Hfind.
    injection Hfind as ->. now apply Hinactive.
Qed.

Lemma inactive_vehicle_not_bookable_witness :
  exists e,
    createBooking 1000 1000 10%N Examples.request Examples.inWorkshop
    = (Err e, Examples.inWorkshop)
    /\ (e = MissingFields \/ e = VehicleNotActive).
Proof.
  assert (Hmaint : Vehicle.maintenance <> Vehicle.active) by discriminate.
  destruct (proj1 (inactive_vehicle_not_bookable 1%N
                     (Vehicle.set_status Vehicle.maintenance 500 Examples.truck)
                     Examples.inWorkshop eq_refl Hmaint)
              1000 1000 10%N Examples.request eq_refl) as (e & Hrun & He & _).
  exists e. split; [exact Hrun | exact He].
Defined.

End VehicleStatus.

Section Cancellation.
Import Js RideCalculationService VehicleService BookingService Spec.

(** [hoursDiff < 2] is false from 7 200 000 ms on. *)
Lemma hoursDiff_ge_2 (timeDiff : Z) :
  Qle_bool 2 (inject_Z timeDiff / (1000 * 60 * 60)) = true <-> 7200000 <= timeDiff.
Proof.
  rewrite Qle_bool_iff. unfold Qle, Qdiv, Qmult, Qinv, inject_Z. simpl. lia.
Qed.

(** X15: cancelBooking.  It fails with BookingNotFound for an unknown id,
    with AlreadyCompleted or AlreadyCancelled for a booking in that status,
    and with TooCloseToStart when fewer than 7 200 000 ms (2 hours) remain
    to the start time; with exactly 2 hours left the cancellation goes
    through.  A reason of more than 489 code units makes the note longer
    than the 500 code units the schema allows, and the cancellation fails
    with a validation error.  Every failure leaves the store unchanged.  Otherwise
    the booking is stored as cancelled with the note 'Cancelled: <reason>',
    or 'Cancelled by user' when the reason is empty, and the time of the
    update; its window and the vehicles are untouched. *)
Theorem cancelBooking_effect (now : Z) (id : ObjectId) (reason : string) (st : Store) :
  (~ In id (map Booking._id (bookings st)) ->
   cancelBooking now id reason st = (Err BookingNotFound, st))
  /\ forall b, Db.findBooking id (bookings st) = Some b ->
       (Booking.status b = Booking.completed ->
        cancelBooking now id reason st = (Err AlreadyCompleted, st))
       /\ (Booking.status b = Booking.cancelled ->
           cancelBooking now id reason st = (Err AlreadyCancelled, st))
       /\ (Booking.isActive (Booking.status b) = true ->
           Booking.startTime b - now < 7200000 ->
           cancelBooking now id reason st = (Err TooCloseToStart, st))
       /\ (Booking.isActive (Booking.status b) = true ->
           7200000 <= Booking.startTime b - now ->
           (489 < String.length reason)%nat ->
           cancelBooking now id reason st = (Err ValidationError, st))
       /\ (Booking.isActive (Booking.status b) = true ->
           7200000 <= Booking.startTime b - now ->
           (String.length reason <= 489)%nat ->
           exists b' st',
             cancelBooking now id reason st
             = (Ok (b', Db.findVehicle (Booking.vehicleId b) (vehicles st)), st')
             /\ Db.findBooking id (bookings st') = Some b'
             /\ Booking.status b' = Booking.cancelled
             /\ Booking.notes b'
                = Some (if String.eqb reason EmptyString then "Cancelled by user"
                        else "Cancelled: " ++ reason)%string
             /\ Booking.updatedAt b' = now
             /\ Booking.startTime b' = Booking.startTime b
             /\ Booking.endTime b' = Booking.endTime b
             /\ Booking.actualStartTime b' = Booking.actualStartTime b
             /\ Booking.actualEndTime b' = Booking.actualEndTime b
             /\ vehicles st' = vehicles st).
Proof.
  split.
  - intros Hno. rewrite cancelBooking_unfold.
    apply (find_none_iff id Booking._id) in Hno. unfold Db.findBooking. now rewrite Hno.
  - intros b Hb. rewrite cancelBooking_unfold, Hb.
    assert (Hactive : Booking.isActive (Booking.status b) = true ->
                      Booking.status_eqb (Booking.status b) Booking.completed = false
                      /\ Booking.status_eqb (Booking.status b) Booking.cancelled = false)
      by (destruct (Booking.status b); simpl; intros H; try discriminate H; now split).
    split; [intros ->; reflexivity|].
    split; [intros ->; reflexivity|].
    split; [|split].
    + intros Ha Hclose. destruct (Hactive Ha) as [-> ->].
      destruct (Qle_bool 2 _) eqn:Hq; [|reflexivity].
      apply hoursDiff_ge_2 in Hq. lia.
    + intros Ha Hfar Hlong. destruct (Hactive Ha) as [-> ->].
      rewrite (proj2 (hoursDiff_ge_2 _) Hfar).
      apply updateBookingStatus_invalid. intros (_ & _ & _ & _ & _ & Hn).
      specialize (Hn _ eq_refl).
      destruct reason as [|c r]; [simpl in Hlong; lia|].
      cbn [truthyStr] in Hn. simpl in *. lia.
    + intros Ha Hfar Hshort. destruct (Hactive Ha) as [-> ->].
      rewrite (proj2 (hoursDiff_ge_2 _) Hfar).
      rewrite (updateBookingStatus_found now id Booking.cancelled _ st b Hb).
      * eexists _, _. split; [reflexivity|]. simpl.
        split; [now apply findBooking_updated|].
        split; [reflexivity|].
        split; [now destruct reason|].
        now repeat split.
      * apply acceptable_notesOnly. destruct reason as [|c r]; [simpl; lia|].
        cbn [truthyStr]. simpl in *. lia.
Qed.

Lemma cancelBooking_effect_witness :
  exists b' st',
    cancelBooking (22 * Examples.hour) 10%N "Customer request" Examples.booked
    = (Ok (b', Some Examples.truck), st')
    /\ Booking.status b' = Booking.cancelled
    /\ Booking.notes b' = Some "Cancelled: Customer request"%string.
Proof.
  destruct (proj2 (cancelBooking_effect (22 * Examples.hour) 10%N "Customer request"
                     Examples.booked) Examples.bookingA eq_refl)
    as (_ & _ & _ & _ & H).
  destruct H as (b' & st' & Hrun & _ & Hs & Hn & _).
  - reflexivity.
  - vm_compute. discriminate.
  - vm_compute. repeat constructor.
  - exists b', st'. split; [exact Hrun|]. split; [exact Hs | exact Hn].
Defined.

Lemma In_updateFirst_unique {A : Type} (key : A -> ObjectId) (id : ObjectId)
      (f : A -> A) (l : list A) (x : A) :
  NoDup (map key l) ->
  In x (Db.updateFirst (fun y => N.eqb (key y) id) f l) ->
  (In x l /\ key x <> id)
  \/ exists y, find (fun y => N.eqb (key y) id) l = Some y /\ x = f y.
Proof.
  induction l as [|a l IH]; simpl; [tauto|].
  intros Hnd. inversion Hnd as [|? ? Ha Hl]; subst.
  destruct (N.eqb (key a) id) eqn:E; simpl.
  - apply N.eqb_eq in E. intros [<- | H]; [right; exists a; auto|].
    left. split; [now right|]. intros Hx. apply Ha. rewrite E, <- Hx. now apply in_map.
  - apply N.eqb_neq in E. intros [<- | H]; [left; split; auto|].
    destruct (IH Hl H) as [[H1 H2] | (y & Hy & ->)]; [left; split; auto|].
    right. exists y. auto.
Qed.

(** X16: a cancellation releases the slot.  In a store where booking ids
    are unique and no two active bookings of a vehicle overlap, after a
    successful cancelBooking the overlap query for the window of the
    cancelled booking on its vehicle finds nothing, so the vehicle is free
    for that window again; and still no two active bookings overlap. *)
Theorem cancelBooking_frees_slot
        (now : Z) (id : ObjectId) (reason : string) (st : Store)
        (b' : Booking.t) (v : option Vehicle.t) (st' : Store)
        (Hunique : NoDup (map Booking._id (bookings st)))
        (Hinv : noDoubleBooking st)
        (Hrun : cancelBooking now id reason st = (Ok (b', v), st')) :
  Booking.findOverlappingBookings (bookings st') (Booking.vehicleId b')
    (Booking.startTime b') (Booking.endTime b') None = []
  /\ noDoubleBooking st'.
Proof.
  split.
  2:{ replace st' with (snd (cancelBooking now id reason st)) by now rewrite Hrun.
      now apply cancelBooking_keeps_noDoubleBooking. }
  rewrite cancelBooking_unfold in Hrun.
  destruct (Db.findBooking id (bookings st)) as [b|] eqn:Hb; [|discriminate Hrun].
  destruct (Booking.status_eqb (Booking.status b) Booking.completed) eqn:Hc;
    [discriminate Hrun|].
  destruct (Booking.status_eqb (Booking.status b) Booking.cancelled) eqn:Hx;
    [discriminate Hrun|].
  destruct (Qle_bool 2 _); [|discriminate Hrun].
  assert (Hact : Booking.isActive (Booking.status b) = true)
    by (destruct (Booking.status b); try reflexivity; discriminate).
  unfold updateBookingStatus, bindM, failIf, lift, throw_if, Db.Booking_findByIdAndUpdate,
    Db.populate in Hrun.
  destruct (negb (Booking.validateUpdate _ _)); [discriminate Hrun|]. simpl in Hrun.
  rewrite Hb in Hrun. injection Hrun as <- _ <-. simpl.
  destruct (find_by_id Booking._id _ _ _ Hb) as [Hin Hid].
  unfold Booking.findOverlappingBookings.
  match goal with |- filter ?q ?l = [] => destruct (filter q l) as [|x xs] eqn:Hf end;
    [reflexivity|].
  exfalso.
  assert (Hxin : In x (x :: xs)) by now left.
  rewrite <- Hf in Hxin. apply filter_In in Hxin. destruct Hxin as [Hxin Hq].
  apply overlapQuery_iff in Hq. destruct Hq as (Hveh & Hst & Hlt & Hgt & _).
  apply (In_updateFirst_unique Booking._id) in Hxin; [|exact Hunique].
  destruct Hxin as [[Hold Hne] | (y & Hy & ->)].
  - assert (Hd : disjoint b x).
    { apply Hinv; try assumption.
      - congruence.
      - congruence.
      - now apply isActive_iff. }
    unfold disjoint in Hd. lia.
  - simpl in Hst. destruct Hst as [Hst | Hst]; discriminate Hst.
Qed.

Lemma cancelBooking_frees_slot_witness :
  Booking.findOverlappingBookings (bookings Examples.cancelledA) 1%N
    (24 * Examples.hour) (25 * Examples.hour) None = [].
Proof.
  assert (Hunique : NoDup (map Booking._id (bookings Examples.booked))).
  { vm_compute. repeat constructor. intros []. }
  assert (Hinv : noDoubleBooking Examples.booked).
  { unfold Examples.booked. apply createBooking_keeps_noDoubleBooking.
    intros b1 b2 H1. vm_compute in H1. destruct H1. }
  assert (Hrun : cancelBooking 2000 10%N EmptyString Examples.booked
                 = (Ok (Booking.applyUpdate 2000
                          (updateDataOf 2000 Booking.cancelled
                             (notesOnly "Cancelled by user"))
                          Examples.bookingA,
                        Some Examples.truck),
                    Examples.cancelledA)).
  { vm_compute. reflexivity. }
  exact (proj1 (cancelBooking_frees_slot 2000 10%N EmptyString Examples.booked _ _ _
                  Hunique Hinv Hrun)).
Defined.

End Cancellation.

Section Deletion.
Import Js RideCalculationService VehicleService BookingService Spec.

Lemma find_removeFirst_other {A : Type} (key : A -> ObjectId) (id id' : ObjectId)
      (l : list A) :
  id' <> id ->
  find (fun x => N.eqb (key x) id') (Db.removeFirst (fun x => N.eqb (key x) id) l)
  = find (fun x => N.eqb (key x) id') l.
Proof.
  intros Hne. induction l as [|x l IH]; simpl; [reflexivity|].
  destruct (N.eqb (key x) id) eqn:Hx; simpl.
  - apply N.eqb_eq in Hx.
    assert (Hx' : N.eqb (key x) id' = false) by (apply N.eqb_neq; congruence).
    now rewrite Hx'.
  - now rewrite IH.
Qed.

Lemma removeFirst_gone {A : Type} (key : A -> ObjectId) (id : ObjectId) (l : list A) :
  NoDup (map key l) ->
  ~ In id (map key (Db.removeFirst (fun x => N.eqb (key x) id) l)).
Proof.
  induction l as [|x l IH]; simpl; [tauto|].
  intros Hnd. inversion Hnd as [|? ? Hx Hl]; subst.
  destruct (N.eqb (key x) id) eqn:E; simpl.
  - apply N.eqb_eq in E. now rewrite <- E.
  - apply N.eqb_neq in E. intros [H | H]; [now apply E | now apply IH].
Qed.

Lemma length_removeFirst {A : Type} (p : A -> bool) (l : list A) (a : A) :
  find p l = Some a -> S (List.length (Db.removeFirst p l)) = List.length l.
Proof.
  induction l as [|x l IH]; simpl; [discriminate|].
  destruct (p x); simpl; [reflexivity | intros H; now rewrite IH].
Qed.

(** X17: deleteBooking.  It fails with BookingNotFound for an unknown id
    and with NotCancelled for a booking in any status other than
    'cancelled', and then changes nothing.  A cancelled booking is removed:
    the operation returns true, the collection shrinks by one, the other
    bookings and the vehicles stay as they were, and, booking ids being
    unique, getBookingById no longer finds the id. *)
Theorem deleteBooking_effect (id : ObjectId) (st : Store) :
  (~ In id (map Booking._id (bookings st)) ->
   deleteBooking id st = (Err BookingNotFound, st))
  /\ forall b, Db.findBooking id (bookings st) = Some b ->
       (Booking.status b <> Booking.cancelled ->
        deleteBooking id st = (Err NotCancelled, st))
       /\ (Booking.status b = Booking.cancelled ->
           exists st',
             deleteBooking id st = (Ok true, st')
             /\ vehicles st' = vehicles st
             /\ S (List.length (bookings st')) = List.length (bookings st)
             /\ (forall x, In x (bookings st') -> In x (bookings st))
             /\ (forall id', id' <> id ->
                   Db.findBooking id' (bookings st') = Db.findBooking id' (bookings st))
             /\ (NoDup (map Booking._id (bookings st)) ->
                 getBookingById id st' = (Err BookingNotFound, st'))).
Proof.
  unfold deleteBooking, bindM, Db.Booking_findById, failIf, lift, throw_if, throw, ret,
    Db.Booking_findByIdAndDelete.
  split.
  - intros Hno. apply (find_none_iff id Booking._id) in Hno.
    unfold Db.findBooking. now rewrite Hno.
  - intros b Hb. rewrite Hb. split.
    + intros Hs. destruct (Booking.status b); try reflexivity. now contradiction Hs.
    + intros ->. simpl. eexists. split; [reflexivity|]. simpl.
      split; [reflexivity|].
      split; [now apply length_removeFirst with (a := b)|].
      split; [intros x; apply In_removeFirst|].
      split; [intros id' Hne; now apply (find_removeFirst_other Booking._id)|].
      intros Hnd. unfold getBookingById, bindM, Db.Booking_findById, throw. simpl.
      pose proof (removeFirst_gone Booking._id id _ Hnd) as Hgone.
      apply (find_none_iff id Booking._id) in Hgone.
      unfold Db.findBooking. now rewrite Hgone.
Qed.

Lemma deleteBooking_effect_witness :
  exists st',
    deleteBooking 10%N Examples.cancelledA = (Ok true, st')
    /\ getBookingById 10%N st' = (Err BookingNotFound, st').
Proof.
  destruct (proj2 (proj2 (deleteBooking_effect 10%N Examples.cancelledA)
                     (Booking.applyUpdate 2000
                        (updateDataOf 2000 Booking.cancelled
                           (notesOnly "Cancelled by user"))
                        Examples.bookingA)
                     eq_refl) eq_refl)
    as (st' & Hrun & _ & _ & _ & _ & Hgone).
  exists st'. split; [exact Hrun|]. apply Hgone.
  vm_compute. repeat constructor. intros [].
Defined.

End Deletion.

Section RideLifecycle.
Import Js RideCalculationService VehicleService BookingService Spec.

(** X18: the failures of updateBookingStatus, for extra fields that are
    values of the types of their paths, for paths that the schema
    declares.  Extra fields that a validator of the schema refuses (a
    customer id of white space only, a pincode that is not six digits, a
    start time that is not in the future, a duration below 0.1 hours,
    notes of more than 500 code units) give a validation error,
    whether or not the booking exists; otherwise an id that no stored
    booking has gives BookingNotFound.  Both leave the store unchanged,
    and with acceptable extra fields and a stored id the update always
    succeeds and stores the status among the extra fields, else the status
    given: no transition between statuses is refused. *)
Theorem updateBookingStatus_failures (now : Z) (id : ObjectId) (status : Booking.Status)
        (extra : AdditionalData) (st : Store) :
  (~ acceptable now extra ->
   updateBookingStatus now id status extra st = (Err ValidationError, st))
  /\ (forall n, ad_notes extra = Some n -> (500 < String.length n)%nat ->
      updateBookingStatus now id status extra st = (Err ValidationError, st))
  /\ (acceptable now extra ->
      ~ In id (map Booking._id (bookings st)) ->
      updateBookingStatus now id status extra st = (Err BookingNotFound, st))
  /\ (acceptable now extra ->
      In id (map Booking._id (bookings st)) ->
      exists b v st',
        updateBookingStatus now id status extra st = (Ok (b, v), st')
        /\ Booking.status b = match ad_status extra with
                              | Some s => s
                              | None => status
                              end).
Proof.
  split; [apply updateBookingStatus_invalid|]. split; [|split].
  - intros n Hn Hlong. apply updateBookingStatus_invalid.
    intros (_ & _ & _ & _ & _ & Hfit). specialize (Hfit n Hn). lia.
  - intros Hok Hno. apply updateBookingStatus_absent; [exact Hok|].
    apply (find_none_iff id Booking._id) in Hno. exact Hno.
  - intros Hok Hin.
    destruct (Db.findBooking id (bookings st)) as [b|] eqn:Hb.
    + pose proof (updateBookingStatus_found now id status extra st b Hb Hok) as Hrun.
      cbv zeta in Hrun. eexists _, _, _. split; [exact Hrun|].
      unfold Booking.applyUpdate. cbn [Booking.status].
      apply (updateDataOf_keys now status extra).
    + apply (find_none_iff id Booking._id) in Hb. now contradiction Hb.
Qed.

Lemma updateBookingStatus_failures_witness :
  updateBookingStatus 5000 11%N Booking.completed noAdditionalData Examples.booked
  = (Err BookingNotFound, Examples.booked).
Proof.
  apply (proj1 (proj2 (proj2 (updateBookingStatus_failures 5000 11%N Booking.completed
                                noAdditionalData Examples.booked)))).
  - apply acceptable_noAdditionalData.
  - vm_compute. intros [H | []]. discriminate H.
Defined.

(** The difference of two time values after the epoch is exact. *)
Lemma sub_times (t1 t2 : Z) :
  0 <= t1 <= maxTime -> 0 <= t2 <= maxTime ->
  (sub (inject_Z t2) (inject_Z t1) == inject_Z (t2 - t1))%Q.
Proof.
  unfold maxTime. intros H1 H2. unfold sub.
  apply Qeq_trans with (double (inject_Z (t2 - t1))); [|apply double_Z; lia].
  apply double_comp. unfold Z.sub. now rewrite inject_Z_plus, inject_Z_opp.
Qed.

(** X19: the actual duration of a ride.  When a stored booking is set to
    'in-progress' at time t1 and then to 'completed' at time t2, without
    timestamps supplied by the caller, both updates succeed and the virtual
    field actualDurationHours of the result is (t2 - t1) / 3 600 000 as
    JavaScript computes it, for clock readings after the epoch: the double
    nearest to the quotient, which is within a relative error of 2^-53 of
    it, and is the quotient itself when the ride took a whole number of
    half hours.  A booking that is completed without ever having been
    started gets an actual end time but no actual duration. *)
Theorem actualDurationHours_of_ride (t1 t2 : Z) (id : ObjectId) (st : Store)
        (b : Booking.t)
        (Hb : Db.findBooking id (bookings st) = Some b)
        (Ht1 : 0 <= t1 <= maxTime) (Ht2 : 0 <= t2 <= maxTime) :
  (exists b1 v1 st1 b2 v2 st2 h,
     updateBookingStatus t1 id Booking.in_progress noAdditionalData st
     = (Ok (b1, v1), st1)
     /\ updateBookingStatus t2 id Booking.completed noAdditionalData st1
        = (Ok (b2, v2), st2)
     /\ Db.findBooking id (bookings st2) = Some b2
     /\ Booking.status b2 = Booking.completed
     /\ Booking.actualStartTime b2 = Some t1
     /\ Booking.actualEndTime b2 = Some t2
     /\ Booking.actualDurationHours b2 = Some h
     /\ (h == double (inject_Z (t2 - t1) / 3600000))%Q
     /\ (t1 < t2 -> near roundoff h (inject_Z (t2 - t1) / 3600000))
     /\ (forall k, t2 - t1 = k * 1800000 -> (h == inject_Z k / 2)%Q))
  /\ (Booking.actualStartTime b = None ->
      exists b2 v2 st2,
        updateBookingStatus t2 id Booking.completed noAdditionalData st
        = (Ok (b2, v2), st2)
        /\ Booking.actualEndTime b2 = Some t2
        /\ Booking.actualDurationHours b2 = None).
Proof.
  split.
  - pose proof (updateBookingStatus_found t1 id Booking.in_progress noAdditionalData
                  st b Hb (acceptable_noAdditionalData t1)) as H1.
    cbv zeta in H1.
    set (b1 := Booking.applyUpdate t1
                 (updateDataOf t1 Booking.in_progress noAdditionalData) b) in *.
    set (st1 := {| vehicles := vehicles st;
                   bookings := Db.updateFirst (fun x => N.eqb (Booking._id x) id)
                                 (Booking.applyUpdate t1
                                    (updateDataOf t1 Booking.in_progress noAdditionalData))
                                 (bookings st) |}) in *.
    assert (Hb1 : Db.findBooking id (bookings st1) = Some b1)
      by now apply findBooking_updated.
    pose proof (updateBookingStatus_found t2 id Booking.completed noAdditionalData
                  st1 b1 Hb1 (acceptable_noAdditionalData t2)) as H2.
    cbv zeta in H2.
    assert (Hh : (div (sub (inject_Z t2) (inject_Z t1)) (1000 * 60 * 60)
                  == double (inject_Z (t2 - t1) / 3600000))%Q).
    { unfold div. apply double_comp. rewrite (sub_times t1 t2 Ht1 Ht2). reflexivity. }
    eexists _, _, _, _, _, _, _. split; [exact H1|]. split; [exact H2|].
    split; [now apply findBooking_updated|].
    split; [reflexivity|]. split; [reflexivity|]. split; [reflexivity|].
    split; [reflexivity|]. split; [exact Hh|]. split.
    + intros Hlt. unfold near. rewrite Hh. apply double_error.
      apply Qle_trans with (1 / 3600000)%Q.
      * apply Qle_trans with (pow2 (-22)); [apply pow2_le; lia|].
        unfold pow2. simpl. unfold Qle. simpl. lia.
      * unfold Qdiv. apply Qmult_le_compat_r; [|discriminate].
        change 1%Q with (inject_Z 1). rewrite <- Zle_Qle. lia.
    + intros k Hk. rewrite Hh, Hk.
      apply Qeq_trans with (double (inject_Z k / 2)).
      * apply double_comp. rewrite inject_Z_mult. field.
      * apply double_half. unfold maxTime in *. lia.
  - intros Hnone.
    pose proof (updateBookingStatus_found t2 id Booking.completed noAdditionalData
                  st b Hb (acceptable_noAdditionalData t2)) as H2.
    cbv zeta in H2.
    eexists _, _, _. split; [exact H2|]. split; [reflexivity|].
    unfold Booking.actualDurationHours. simpl. now rewrite Hnone.
Qed.

Lemma actualDurationHours_of_ride_witness :
  exists b2 v2 st2 h,
    updateBookingStatus (26 * Examples.hour) 10%N Booking.completed noAdditionalData
      (snd (updateBookingStatus (24 * Examples.hour) 10%N Booking.in_progress
              noAdditionalData Examples.booked))
    = (Ok (b2, v2), st2)
    /\ Booking.actualDurationHours b2 = Some h
    /\ (h == 2)%Q.
Proof.
  destruct (proj1 (actualDurationHours_of_ride (24 * Examples.hour) (26 * Examples.hour)
                     10%N Examples.booked Examples.bookingA eq_refl
                     ltac:(vm_compute; split; discriminate)
                     ltac:(vm_compute; split; discriminate)))
    as (b1 & v1 & st1 & b2 & v2 & st2 & h & H1 & H2 & _ & _ & _ & _ & Hd & _ & _ & Hk).
  exists b2, v2, st2, h. rewrite H1. simpl. split; [exact H2|]. split; [exact Hd|].
  rewrite (Hk 4) by reflexivity. reflexivity.
Defined.

End RideLifecycle.

Section Statistics.
Import Js RideCalculationService VehicleService BookingService Spec.












End Statistics.

Section CustomerHistory.
Import Js RideCalculationService VehicleService BookingService Spec.

Lemma StronglySorted_skipn {A : Type} (R : A -> A -> Prop) (n : nat) (l : list A) :
  StronglySorted R l -> StronglySorted R (skipn n l).
Proof.
  revert l. induction n as [|n IH]; intros l Hl; [exact Hl|].
  destruct l as [|x l]; [exact Hl|]. simpl. apply IH.
  now inversion Hl.
Qed.

Lemma StronglySorted_firstn {A : Type} (R : A -> A -> Prop) (n : nat) (l : list A) :
  StronglySorted R l -> StronglySorted R (firstn n l).
Proof.
  revert l. induction n as [|n IH]; intros l Hl; [constructor|].
  destruct l as [|x l]; [constructor|]. simpl.
  inversion Hl as [|? ? Hs Hx]; subst. constructor; [now apply IH|].
  rewrite Forall_forall in *. intros y Hy. apply Hx.
  rewrite <- (firstn_skipn n l). apply in_or_app. now left.
Qed.

Lemma In_limitTo {A : Type} (limit : N) (l : list A) (x : A) :
  In x (limitTo limit l) -> In x l.
Proof.
  unfold limitTo. destruct (N.eqb limit 0); [auto|].
  intros H. rewrite <- (firstn_skipn (N.to_nat limit) l). apply in_or_app. now left.
Qed.

Lemma In_skipn {A : Type} (n : nat) (l : list A) (x : A) :
  In x (skipn n l) -> In x l.
Proof.
  intros H. rewrite <- (firstn_skipn n l). apply in_or_app. now right.
Qed.

(** X22: a page of the booking history of a customer (whose id carries
    no surrounding blanks), where [order] is the order in which the
    database returns the customer's bookings, newest first.  The operation
    reads only and does not fail.  [total] is the number of bookings of
    the customer in the requested status; the page skips [offset] of them
    and holds at most [limit], 10 when no limit is given and all that
    remain when the limit is 0; it is sorted newest first and holds only
    bookings of that customer, each with the vehicle it refers to; and
    [hasMore] says whether offset + limit is below the total, which with
    the limit 0 is the case although the page holds all that remain. *)
Theorem getCustomerBookings_page
        (order : list Booking.t -> list Booking.t) (customerId : string)
        (options : PageOptions) (st : Store)
        (Htrim : trim customerId = customerId)
        (Hperm : Permutation
                   (order (filter (customerQuery customerId (o_status options))
                             (bookings st)))
                   (filter (customerQuery customerId (o_status options)) (bookings st)))
        (Hsorted : newestFirst
                     (order (filter (customerQuery customerId (o_status options))
                               (bookings st)))) :
  let limit := match o_limit options with Some n => n | None => 10%N end in
  let offset := match o_offset options with Some n => n | None => 0%N end in
  exists page,
    getCustomerBookings order customerId options st = (Ok page, st)
    /\ p_total page
       = List.length (filter (customerQuery customerId (o_status options)) (bookings st))
    /\ List.length (p_bookings page)
       = (if N.eqb limit 0 then p_total page - N.to_nat offset
          else Nat.min (N.to_nat limit) (p_total page - N.to_nat offset))%nat
    /\ (hasMore page = true <-> (N.to_nat offset + N.to_nat limit < p_total page)%nat)
    /\ newestFirst (map fst (p_bookings page))
    /\ (forall b v, In (b, v) (p_bookings page) ->
          In b (bookings st)
          /\ Booking.customerId b = customerId
          /\ v = Db.findVehicle (Booking.vehicleId b) (vehicles st))
    /\ (N.eqb limit 0 = true -> (N.to_nat offset < p_total page)%nat ->
        hasMore page = true
        /\ (List.length (p_bookings page) + N.to_nat offset = p_total page)%nat).
Proof.
  intros limit offset.
  unfold getCustomerBookings, bindM, ret, Db.Booking_find, populateAll.
  fold limit. fold offset.
  set (found := filter (customerQuery customerId (o_status options)) (bookings st)) in *.
  eexists. split; [reflexivity|]. cbn [p_total p_bookings hasMore].
  assert (Hlen : List.length (order found) = List.length found)
    by now apply Permutation_length.
  assert (Hpage : List.length (limitTo limit (skipn (N.to_nat offset) (order found)))
                  = (if N.eqb limit 0 then List.length found - N.to_nat offset
                     else Nat.min (N.to_nat limit)
                            (List.length found - N.to_nat offset))%nat).
  { unfold limitTo. destruct (N.eqb limit 0).
    - now rewrite length_skipn, Hlen.
    - now rewrite length_firstn, length_skipn, Hlen. }
  assert (Hmore : N.ltb (offset + limit) (N.of_nat (List.length found)) = true
                  <-> (N.to_nat offset + N.to_nat limit < List.length found)%nat).
  { rewrite N.ltb_lt. lia. }
  split; [reflexivity|].
  split; [now rewrite length_map|].
  split; [exact Hmore|].
  split; [|split].
  - rewrite map_map. simpl. rewrite map_id. unfold limitTo.
    destruct (N.eqb limit 0).
    + now apply StronglySorted_skipn.
    + now apply StronglySorted_firstn, StronglySorted_skipn.
  - intros b v Hin. apply in_map_iff in Hin. destruct Hin as (x & Hx & Hin).
    injection Hx as -> <-.
    apply In_limitTo, In_skipn in Hin.
    apply (Permutation_in _ Hperm) in Hin. apply filter_In in Hin.
    destruct Hin as [Hin Hq]. unfold customerQuery in Hq.
    apply andb_true_iff in Hq. destruct Hq as [Hq _]. apply String.eqb_eq in Hq.
    now repeat split.
  - intros Hzero Hlt. rewrite length_map, Hpage, Hzero.
    apply N.eqb_eq in Hzero. split; [apply Hmore|]; lia.
Qed.

Lemma getCustomerBookings_page_witness :
  exists page,
    getCustomerBookings (@rev Booking.t) "TEST_CUSTOMER_001"
      {| o_limit := Some 1%N; o_offset := None; o_status := None |}
      Examples.bookedTwice
    = (Ok page, Examples.bookedTwice)
    /\ p_total page = 2%nat
    /\ List.length (p_bookings page) = 1%nat.
Proof.
  destruct (getCustomerBookings_page (@rev Booking.t) "TEST_CUSTOMER_001"
              {| o_limit := Some 1%N; o_offset := None; o_status := None |}
              Examples.bookedTwice)
    as (page & Hrun & Htotal & Hlen & _).
  - reflexivity.
  - apply Permutation_sym, Permutation_rev.
  - vm_compute. repeat constructor; discriminate.
  - exists page. split; [exact Hrun|].
    rewrite Hlen, Htotal. vm_compute. split; reflexivity.
Defined.

End CustomerHistory.

Section PincodeValidators.
Import Js Spec.

(** X23: the validation utility isValidPincode is the strict one: it
    accepts exactly the strings of six ASCII digits and rejects every
    value that is not a string.  It agrees with isValidPincode of the ride
    calculation service on all strings, and whatever it accepts the
    service accepts; the converse fails on Numbers such as 110001, which
    only the service accepts. *)
Theorem Validators_isValidPincode_strict :
  (forall v, Validators.isValidPincode v = true <-> exists s, v = Str s /\ sixDigits s)
  /\ (forall v, isString v = false -> Validators.isValidPincode v = false)
  /\ (forall s, Validators.isValidPincode (Str s)
                = RideCalculationService.isValidPincode (Str s))
  /\ (forall v, Validators.isValidPincode v = true ->
                RideCalculationService.isValidPincode v = true)
  /\ (exists v, RideCalculationService.isValidPincode v = true
                /\ Validators.isValidPincode v = false).
Proof.
  split; [|split; [|split; [|split]]].
  - intros v. unfold Validators.isValidPincode. split.
    + intros H. apply andb_true_iff in H. destruct H as [Hs Hr].
      destruct v as [| | b | n | s]; try discriminate Hs.
      exists s. split; [reflexivity|]. now apply isValidPincode_Str.
    + intros (s & -> & Hs). simpl. now apply isValidPincode_Str.
  - intros v Hv. unfold Validators.isValidPincode. now rewrite Hv.
  - reflexivity.
  - intros v H. unfold Validators.isValidPincode in H.
    apply andb_true_iff in H. exact (proj2 H).
  - exists (Int 110001). split; reflexivity.
Qed.

End PincodeValidators.

Section BookingErrors.
Import Js RideCalculationService VehicleService BookingService Spec.






End BookingErrors.

Section VehicleSchema.
Import Js RideCalculationService VehicleService BookingService Spec.

Lemma validate_new_Vehicle (newId : ObjectId) (data : VehicleData) :
  Vehicle.validate (new_Vehicle newId data) = true
  <-> trim (vd_name data) <> EmptyString
      /\ (String.length (trim (vd_name data)) <= 100)%nat
      /\ (1 <= vd_capacityKg data)%Q /\ (vd_capacityKg data <= 50000)%Q
      /\ (2 <= vd_tyres data)%Q /\ (vd_tyres data <= 18)%Q.
Proof.
  unfold Vehicle.validate. simpl.
  rewrite !andb_true_iff, !Qle_bool_iff, Nat.leb_le, truthyStr_true. tauto.
Qed.

(** X25: for data whose strings are of code units below 256, whose
    capacity and number of tyres are numbers, and whose status, if given,
    is of the enumeration, createVehicle fails with a validation error, before any duplicate check and without touching the
    store, exactly when the trimmed name is empty (so also for a name of
    white space only: U+0009 to U+000D, U+0020, U+00A0) or longer than 100
    code units, the capacity is below 1 or above 50000, or the number of
    tyres is below 2 or above 18. *)
Theorem createVehicle_invalid (now random : Z) (newId : ObjectId) (data : VehicleData)
        (st : Store) :
  createVehicle now random newId data st = (Err ValidationError, st)
  <-> (trim (vd_name data) = EmptyString
       \/ (100 < String.length (trim (vd_name data)))%nat
       \/ (vd_capacityKg data < 1)%Q \/ (50000 < vd_capacityKg data)%Q
       \/ (vd_tyres data < 2)%Q \/ (18 < vd_tyres data)%Q).
Proof.
  pose proof (validate_new_Vehicle newId data) as Hval.
  assert (Hbad : Vehicle.validate (new_Vehicle newId data) = false
                 <-> (trim (vd_name data) = EmptyString
                      \/ (100 < String.length (trim (vd_name data)))%nat
                      \/ (vd_capacityKg data < 1)%Q \/ (50000 < vd_capacityKg data)%Q
                      \/ (vd_tyres data < 2)%Q \/ (18 < vd_tyres data)%Q)).
  { split.
    - intros Hf.
      destruct (string_dec (trim (vd_name data)) EmptyString) as [H1 | H1]; [now left|].
      destruct (le_lt_dec (String.length (trim (vd_name data))) 100) as [H2 | H2];
        [|right; now left].
      destruct (Qlt_le_dec (vd_capacityKg data) 1) as [H3 | H3];
        [right; right; now left|].
      destruct (Qlt_le_dec 50000 (vd_capacityKg data)) as [H4 | H4];
        [right; right; right; now left|].
      destruct (Qlt_le_dec (vd_tyres data) 2) as [H5 | H5];
        [right; right; right; right; now left|].
      destruct (Qlt_le_dec 18 (vd_tyres data)) as [H6 | H6];
        [right; right; right; right; now right|].
      exfalso.
      assert (Ht : Vehicle.validate (new_Vehicle newId data) = true)
        by (apply Hval; auto 7).
      congruence.
    - intros Hor. apply not_true_iff_false. intros E.
      apply Hval in E. destruct E as (E1 & E2 & E3 & E4 & E5 & E6).
      destruct Hor as [H | [H | [H | [H | [H | H]]]]].
      + now apply E1.
      + lia.
      + now apply (Qlt_not_le _ _ H).
      + now apply (Qlt_not_le _ _ H).
      + now apply (Qlt_not_le _ _ H).
      + now apply (Qlt_not_le _ _ H). }
  rewrite <- Hbad.
  destruct (createVehicle_outcome now random newId data st)
    as [(Hv & ->) | [(Hv & _ & ->) | (Hv & _ & ->)]]; cbv zeta in Hv.
  - split; [intros _; exact Hv | reflexivity].
  - split; [discriminate | congruence].
  - split; [discriminate | congruence].
Qed.

Lemma type_cases (v : Vehicle.t) :
  ((Vehicle.capacityKg v <= 1000)%Q /\ Vehicle.type v = "Light Vehicle"%string)
  \/ ((1000 < Vehicle.capacityKg v)%Q /\ (Vehicle.capacityKg v <= 5000)%Q
      /\ Vehicle.type v = "Medium Vehicle"%string)
  \/ ((5000 < Vehicle.capacityKg v)%Q /\ Vehicle.type v = "Heavy Vehicle"%string).
Proof.
  unfold Vehicle.type.
  destruct (Qle_bool (Vehicle.capacityKg v) 1000) eqn:E1.
  - left. apply Qle_bool_iff in E1. now split.
  - right.
    assert (H1 : (1000 < Vehicle.capacityKg v)%Q).
    { apply Qnot_le_lt. intros H. apply Qle_bool_iff in H. congruence. }
    destruct (Qle_bool (Vehicle.capacityKg v) 5000) eqn:E2.
    + left. apply Qle_bool_iff in E2. now repeat split.
    + right. split; [|reflexivity].
      apply Qnot_le_lt. intros H. apply Qle_bool_iff in H. congruence.
Qed.

Lemma forEachEligible_type (from to : string) (hours : num) (start end_ : Z) (st : Store)
      (eligible : list Vehicle.t) :
  forall acc queried res st',
    forEachEligible from to hours start end_ eligible acc queried st = (Ok res, st') ->
    Forall (fun av => av_type av = Vehicle.type (av_vehicle av)) acc ->
    Forall (fun av => av_type av = Vehicle.type (av_vehicle av)) (fst res).
Proof.
  induction eligible as [|vehicle rest IH]; intros acc queried res st' Hrun Hacc.
  - simpl in Hrun. injection Hrun as <- _. exact Hacc.
  - simpl in Hrun. unfold bindM at 1 in Hrun.
    unfold Db.Booking_findOverlappingBookings in Hrun.
    destruct (Nat.eqb (List.length _) 0).
    + unfold bindM at 1, lift in Hrun.
      destruct (getRouteInfo (Str from) (Str to) (Vehicle.capacityKg vehicle))
        as [ri|e]; [|discriminate Hrun].
      apply IH in Hrun; [exact Hrun|].
      apply Forall_app. split; [exact Hacc|]. constructor; [reflexivity | constructor].
    + now apply IH in Hrun.
Qed.

(** X26: the class of the vehicles a search returns.  Every element of
    a successful search carries the virtual field [type] of its vehicle:
    'Light Vehicle' up to 1000 kg, 'Medium Vehicle' up to 5000 kg, 'Heavy
    Vehicle' above.  Since the capacity of a returned vehicle is at least
    the capacity asked for, a search for more than 1000 kg returns no light
    vehicle and a search for more than 5000 kg returns heavy vehicles
    only. *)
Theorem findAvailableVehicles_types (now : Z) (criteria : Criteria) (st : Store)
        (available : list AvailableVehicle) (queried : list ObjectId)
        (capacity : Q) (av : AvailableVehicle)
        (Hfound : fst (findAvailableVehicles now criteria st) = Ok (available, queried))
        (Hcap : capacityRequired criteria = Some capacity)
        (Hav : In av available) :
  av_type av = Vehicle.type (av_vehicle av)
  /\ (capacity <= Vehicle.capacityKg (av_vehicle av))%Q
  /\ (av_type av = "Light Vehicle"%string
      <-> (Vehicle.capacityKg (av_vehicle av) <= 1000)%Q)
  /\ (av_type av = "Medium Vehicle"%string
      <-> (1000 < Vehicle.capacityKg (av_vehicle av))%Q
          /\ (Vehicle.capacityKg (av_vehicle av) <= 5000)%Q)
  /\ (av_type av = "Heavy Vehicle"%string
      <-> (5000 < Vehicle.capacityKg (av_vehicle av))%Q)
  /\ ((1000 < capacity)%Q -> av_type av <> "Light Vehicle"%string)
  /\ ((5000 < capacity)%Q -> av_type av = "Heavy Vehicle"%string).
Proof.
  destruct (findAvailableVehicles_cases now criteria st)
    as [(capacity' & start & Hsearch) | (e & He)];
    [|rewrite He in Hfound; discriminate Hfound].
  assert (capacity' = capacity) as ->.
  { destruct Hsearch as (Hc & _). rewrite Hcap in Hc. now injection Hc. }
  destruct (findAvailableVehicles_run now criteria st capacity start Hsearch)
    as (available0 & Hrun & Hmap & _).
  assert (Htype : Forall (fun av => av_type av = Vehicle.type (av_vehicle av)) available).
  { clear Hav. revert Hfound.
    pose proof Hsearch as (_ & Hnz & Hfrom & Hto & Hstart & Hfut).
    unfold findAvailableVehicles. rewrite Hcap, Hstart. simpl.
    unfold bindM at 1. unfold failIf, lift, throw_if, truthyNum.
    assert (Hz : Qeq_bool capacity 0 = false).
    { destruct (Qeq_bool capacity 0) eqn:E; [|reflexivity].
      apply Qeq_bool_iff in E. now contradiction Hnz. }
    rewrite Hz, (sixDigits_truthy _ Hfrom), (sixDigits_truthy _ Hto). simpl.
    unfold bindM at 1.
    rewrite (proj2 (isValidPincode_Str _) Hfrom), (proj2 (isValidPincode_Str _) Hto).
    simpl. unfold bindM at 1. rewrite (proj2 (Z.leb_gt start now) Hfut).
    unfold bindM at 1. rewrite (calculateEstimatedDuration_valid _ _ Hfrom Hto).
    unfold bindM at 1. rewrite estimateDuration_positive. cbn [bind throw_if].
    unfold bindM at 1. unfold Db.Vehicle_find.
    destruct (Nat.eqb (List.length (filter (eligibleQuery capacity) (vehicles st))) 0).
    - simpl. intros H. injection H as <- _. constructor.
    - intros H.
      destruct (forEachEligible _ _ _ _ _ _ _ _ st) as [[res|e] st'] eqn:Hloop;
        simpl in H; [|discriminate H].
      apply forEachEligible_type in Hloop; [|constructor].
      injection H as ->. exact Hloop. }
  rewrite Hrun in Hfound. simpl in Hfound. injection Hfound as <- _.
  assert (Hin : In (av_vehicle av)
                   (filter (isFree st start
                              (endOfRide start (c_fromPincode criteria)
                                 (c_toPincode criteria)))
                      (filter (eligibleQuery capacity) (vehicles st)))).
  { rewrite <- Hmap. now apply in_map. }
  apply filter_In in Hin. destruct Hin as [Hin _].
  apply filter_In in Hin. destruct Hin as [_ Helig].
  apply eligibleQuery_iff in Helig. destruct Helig as [Hge _].
  rewrite Forall_forall in Htype. specialize (Htype av Hav).
  assert (Hclass :
            (av_type av = "Light Vehicle"%string
             <-> (Vehicle.capacityKg (av_vehicle av) <= 1000)%Q)
            /\ (av_type av = "Medium Vehicle"%string
                <-> (1000 < Vehicle.capacityKg (av_vehicle av))%Q
                    /\ (Vehicle.capacityKg (av_vehicle av) <= 5000)%Q)
            /\ (av_type av = "Heavy Vehicle"%string
                <-> (5000 < Vehicle.capacityKg (av_vehicle av))%Q)).
  { rewrite Htype.
    destruct (type_cases (av_vehicle av)) as [[H1 ->] | [(H1 & H2 & ->) | [H1 ->]]];
      (split; [|split]); split; intros H; try discriminate H; try reflexivity;
      try lra. }
  destruct Hclass as (Hl & Hm & Hh).
  refine (conj Htype (conj Hge (conj Hl (conj Hm (conj Hh (conj _ _)))))).
  - intros Hbig Hlight. apply Hl in Hlight. lra.
  - intros Hbig. apply Hh. lra.
Qed.

Lemma findAvailableVehicles_types_witness :
  exists av, av_vehicle av = Examples.truck /\ av_type av = "Light Vehicle"%string.
Proof.
  assert (Hsix : forall s, String.length s = 6%nat ->
                           forallb isDigit (list_ascii_of_string s) = true -> sixDigits s).
  { intros s Hl Hd. split; [exact Hl|]. apply Forall_forall. intros c Hc.
    rewrite forallb_forall in Hd. now apply Hd. }
  assert (Hsearch : searchable 0 Examples.search 500 (24 * Examples.hour)).
  { refine (conj eq_refl (conj _ (conj _ (conj _ (conj eq_refl eq_refl))))).
    - discriminate.
    - apply Hsix; reflexivity.
    - apply Hsix; reflexivity. }
  destruct (findAvailableVehicles_run 0 Examples.search Examples.fleet 500
              (24 * Examples.hour) Hsearch) as (available & Hrun & Hmap & _).
  assert (Hone : map av_vehicle available = [Examples.truck]).
  { rewrite Hmap. vm_compute. reflexivity. }
  destruct available as [|av [|]]; try discriminate Hone.
  injection Hone as Hav. exists av.
  assert (Hfound : fst (findAvailableVehicles 0 Examples.search Examples.fleet)
                   = Ok ([av], map Vehicle._id
                                 (filter (eligibleQuery 500) (vehicles Examples.fleet))))
    by now rewrite Hrun.
  destruct (findAvailableVehicles_types 0 Examples.search Examples.fleet [av] _ 500 av
              Hfound eq_refl (or_introl eq_refl)) as (_ & _ & Hlight & _).
  split; [exact Hav|]. apply Hlight. rewrite Hav. discriminate.
Defined.

End VehicleSchema.

Section SafeHistories.
Import Js RideCalculationService VehicleService BookingService Spec.

Lemma same_key_same {A : Type} (key : A -> ObjectId) (l : list A) (a b : A) :
  NoDup (map key l) -> In a l -> In b l -> key a = key b -> a = b.
Proof.
  induction l as [|x l IH]; simpl; [tauto|].
  intros Hnd Ha Hb Hk. inversion Hnd as [|? ? Hx Hl]; subst.
  destruct Ha as [-> | Ha], Hb as [-> | Hb].
  - reflexivity.
  - exfalso. apply Hx. rewrite Hk. now apply in_map.
  - exfalso. apply Hx. rewrite <- Hk. now apply in_map.
  - now apply IH.
Qed.

(** X27: the safety of the booking engine.  In every state that the
    operations produce, one after the other from the empty store, as long
    as the status updates leave the rides as booked (their extra fields
    set neither vehicle, pincodes, start or end time nor duration) and
    none turns a completed or cancelled booking back into a confirmed or
    in-progress one, be it by the status given or by a status among the
    extra fields: any two different stored bookings of one vehicle that
    are both confirmed or in progress occupy disjoint time windows, and
    each of them starts before it ends. *)
Theorem active_bookings_never_overlap (st : Store)
        (Hreach : reachable_if noReactivation st) :
  forall b1 b2,
    In b1 (bookings st) -> In b2 (bookings st) -> b1 <> b2 ->
    Booking.vehicleId b1 = Booking.vehicleId b2 ->
    Booking.isActive (Booking.status b1) = true ->
    Booking.isActive (Booking.status b2) = true ->
    Booking.startTime b1 < Booking.endTime b1
    /\ Booking.startTime b2 < Booking.endTime b2
    /\ (Booking.endTime b1 <= Booking.startTime b2
        \/ Booking.endTime b2 <= Booking.startTime b1).
Proof.
  intros b1 b2 H1 H2 Hne Hveh Ha1 Ha2.
  destruct (reachable_if_consistent _ st (fun _ _ _ _ H => proj1 H) Hreach)
    as ((_ & _ & Hids) & _ & Hwb & _).
  rewrite Forall_forall in Hwb.
  destruct (Hwb b1 H1) as (_ & _ & _ & _ & He1 & _).
  destruct (Hwb b2 H2) as (_ & _ & _ & _ & He2 & _).
  pose proof (endOfRide_bounds (Booking.startTime b1) (Booking.fromPincode b1)
                (Booking.toPincode b1)) as Hb1.
  pose proof (endOfRide_bounds (Booking.startTime b2) (Booking.fromPincode b2)
                (Booking.toPincode b2)) as Hb2.
  rewrite <- He1 in Hb1. rewrite <- He2 in Hb2.
  split; [lia|]. split; [lia|].
  apply (noDoubleBooking_unless_reactivated st Hreach); try assumption.
  intros Hid. apply Hne. now apply (same_key_same Booking._id (bookings st)).
Qed.

Lemma active_bookings_never_overlap_witness :
  Booking.endTime Examples.bookingA <= Booking.startTime Examples.bookingB
  \/ Booking.endTime Examples.bookingB <= Booking.startTime Examples.bookingA.
Proof.
  assert (Hreach : reachable_if noReactivation Examples.bookedTwice).
  { apply (reach_createBooking _ Examples.booked 3000 3000 11%N Examples.nextDay).
    apply (reach_createBooking _ Examples.fleet 1000 1000 10%N Examples.request).
    apply (reach_createVehicle _ Examples.emptyStore 0 7 1%N Examples.truckData).
    exact (reach_empty _). }
  assert (H1 : In Examples.bookingA (bookings Examples.bookedTwice)).
  { vm_compute. left. reflexivity. }
  assert (H2 : In Examples.bookingB (bookings Examples.bookedTwice)).
  { vm_compute. right. left. reflexivity. }
  assert (Hne : Examples.bookingA <> Examples.bookingB).
  { unfold Examples.bookingA, Examples.bookingB. intros H. discriminate H. }
  exact (proj2 (proj2 (active_bookings_never_overlap Examples.bookedTwice Hreach
                         Examples.bookingA Examples.bookingB H1 H2 Hne
                         eq_refl eq_refl eq_refl))).
Defined.

End SafeHistories.

Section VehicleDataValidation.
Import Js VehicleService Spec.

(** X28: the validation utility validateVehicleData and the schema
    agree.  For data without a status, with a name that is a string and a
    capacity and a number of tyres that are Numbers, validateVehicleData
    reports no error exactly when the schema validation of createVehicle
    accepts the data; it reports at most one error per field, and a NaN
    capacity or number of tyres is an error. *)
Theorem validateVehicleData_agrees (newId : ObjectId) (data : VehicleData) :
  let input := {| Validators.vi_name := vd_name data;
                  Validators.vi_capacityKg := Some (vd_capacityKg data);
                  Validators.vi_tyres := Some (vd_tyres data);
                  Validators.vi_status := None;
                  Validators.vi_registrationNumber := vd_registrationNumber data |} in
  (Validators.isValid (Validators.validateVehicleData input) = true
   <-> Vehicle.validate (new_Vehicle newId data) = true)
  /\ (Validators.isValid (Validators.validateVehicleData input) = true
      <-> Validators.errors (Validators.validateVehicleData input) = [])
  /\ (forall input', (List.length (Validators.errors
                                     (Validators.validateVehicleData input')) <= 4)%nat)
  /\ (forall input', Validators.vi_capacityKg input' = None
                     \/ Validators.vi_tyres input' = None ->
                     Validators.isValid (Validators.validateVehicleData input') = false).
Proof.
  intros input.
  assert (Hname : forall s, truthyStr (trim s) = true -> truthyStr s = true).
  { intros s. destruct s; [intros H; exact H | reflexivity]. }
  split; [|split; [|split]].
  - unfold Validators.validateVehicleData, Vehicle.validate, Validators.isValidCapacity,
      Validators.isValidTyreCount. simpl.
    destruct (truthyStr (trim (vd_name data))) eqn:Ht.
    + rewrite (Hname _ Ht). simpl.
      assert (Hlen : Nat.eqb (String.length (trim (vd_name data))) 0 = false)
        by (destruct (trim (vd_name data)); [discriminate Ht | reflexivity]).
      rewrite Hlen. unfold Nat.ltb.
      destruct (Nat.leb (String.length (trim (vd_name data))) 100) eqn:Hl.
      * assert (Hl' : Nat.leb 101 (String.length (trim (vd_name data))) = false)
          by (apply Nat.leb_gt; apply Nat.leb_le in Hl; lia).
        rewrite Hl'. simpl.
        destruct (Qle_bool 1 (vd_capacityKg data)), (Qle_bool (vd_capacityKg data) 50000),
          (Qle_bool 2 (vd_tyres data)), (Qle_bool (vd_tyres data) 18); simpl;
          split; congruence.
      * assert (Hl' : Nat.leb 101 (String.length (trim (vd_name data))) = true)
          by (apply Nat.leb_le; apply Nat.leb_gt in Hl; lia).
        rewrite Hl'. simpl.
        destruct (Qle_bool 1 (vd_capacityKg data) && Qle_bool (vd_capacityKg data) 50000),
          (Qle_bool 2 (vd_tyres data) && Qle_bool (vd_tyres data) 18); simpl;
          split; discriminate.
    + simpl.
      assert (Hor : negb (truthyStr (vd_name data))
                    || Nat.eqb (String.length (trim (vd_name data))) 0 = true).
      { apply orb_true_iff. right.
        destruct (trim (vd_name data)); [reflexivity | discriminate Ht]. }
      rewrite Hor. simpl.
      destruct (Qle_bool 1 (vd_capacityKg data) && Qle_bool (vd_capacityKg data) 50000),
        (Qle_bool 2 (vd_tyres data) && Qle_bool (vd_tyres data) 18); simpl;
        split; discriminate.
  - unfold Validators.validateVehicleData. cbv zeta. cbn [Validators.isValid Validators.errors].
    rewrite Nat.eqb_eq. apply length_zero_iff_nil.
  - intros input'. unfold Validators.validateVehicleData. cbv zeta.
    cbn [Validators.errors].
    destruct (negb (truthyStr (Validators.vi_name input')) || _);
      [|destruct (Nat.ltb 100 _)];
      destruct (negb (Validators.isValidCapacity _));
      destruct (negb (Validators.isValidTyreCount _));
      (destruct (Validators.vi_status input') as [s|];
       [destruct (truthyStr s && negb (Validators.isValidVehicleStatus s))|]);
      simpl; lia.
  - intros [name cap tyres status reg] Hnan. simpl in Hnan.
    unfold Validators.validateVehicleData. cbv zeta.
    cbn [Validators.isValid Validators.vi_name Validators.vi_capacityKg
           Validators.vi_tyres Validators.vi_status].
    destruct Hnan as [-> | ->]; cbn [Validators.isValidCapacity
                                      Validators.isValidTyreCount negb];
      repeat (match goal with
              | |- context [if ?c then _ else _] => destruct c
              | |- context [match ?o with Some _ => _ | None => _ end] => destruct o
              end; cbn [app List.length Nat.eqb]);
      reflexivity.
Qed.

End VehicleDataValidation.

Section BookingList.
Import Js RideCalculationService VehicleService BookingService Spec.

Lemma statusIs_iff (s : string) (b : Booking.t) :
  Booking.statusIs s b = true <-> Booking.statusOfString s = Some (Booking.status b).
Proof.
  unfold Booking.statusIs.
  destruct (Booking.statusOfString s) as [x|]; [|split; discriminate].
  destruct x, (Booking.status b); simpl; split; congruence.
Qed.

Lemma whenGiven_iff (filter : option string) (test : string -> bool) :
  whenGiven filter test = true
  <-> forall s, filter = Some s -> s <> EmptyString -> test s = true.
Proof.
  unfold whenGiven. destruct filter as [s|].
  - destruct s as [|c s]; simpl; split.
    + intros _ s' Hs' Hne. injection Hs' as <-. now contradiction Hne.
    + reflexivity.
    + intros H s' Hs' _. now injection Hs' as <-.
    + intros H. apply H; [reflexivity | discriminate].
  - split; [discriminate | reflexivity].
Qed.

Lemma allBookingsQuery_valid (filters : Filters) :
  f_vehicleId filters <> BadId -> f_startDate filters <> BadTime ->
  f_endDate filters <> BadTime ->
  exists q, allBookingsQuery filters = Ok q
            /\ forall b, q b = true <-> passes filters b.
Proof.
  intros Hv Hs He. unfold allBookingsQuery, passes.
  destruct (bound_valid (f_startDate filters) Z.leb Hs) as (gte & -> & Hgte).
  destruct (bound_valid (f_endDate filters) Z.geb He) as (lte & -> & Hlte).
  destruct (f_vehicleId filters) as [| |oid] eqn:Hid; [|now contradiction Hv|];
    simpl; eexists; (split; [reflexivity|]); intros b;
    rewrite !andb_true_iff, !whenGiven_iff, Hgte, Hlte.
  - split.
    + intros ((((Hc & _) & Hst) & H1) & H2).
      split; [intros c Hc' Hne; apply String.eqb_eq; now apply Hc|].
      split; [discriminate|].
      split; [intros s Hs' Hne; apply statusIs_iff; now apply Hst|].
      split; [intros t Ht; apply Z.leb_le; now apply H1|].
      intros t Ht. specialize (H2 t Ht). rewrite Z.geb_le in H2. lia.
    + intros (Hc & _ & Hst & H1 & H2).
      split; [split; [split; [split; [|reflexivity]|]|]|].
      * intros c Hc' Hne. apply String.eqb_eq. now apply Hc.
      * intros s Hs' Hne. apply statusIs_iff. now apply Hst.
      * intros t Ht. apply Z.leb_le. now apply H1.
      * intros t Ht. rewrite Z.geb_le. specialize (H2 t Ht). lia.
  - rewrite N.eqb_eq. split.
    + intros ((((Hc & Hveh) & Hst) & H1) & H2).
      split; [intros c Hc' Hne; apply String.eqb_eq; now apply Hc|].
      split; [intros oid' Hoid; now injection Hoid as <-|].
      split; [intros s Hs' Hne; apply statusIs_iff; now apply Hst|].
      split; [intros t Ht; apply Z.leb_le; now apply H1|].
      intros t Ht. specialize (H2 t Ht). rewrite Z.geb_le in H2. lia.
    + intros (Hc & Hveh & Hst & H1 & H2).
      split; [split; [split; [split; [|now apply Hveh]|]|]|].
      * intros c Hc' Hne. apply String.eqb_eq. now apply Hc.
      * intros s Hs' Hne. apply statusIs_iff. now apply Hst.
      * intros t Ht. apply Z.leb_le. now apply H1.
      * intros t Ht. rewrite Z.geb_le. specialize (H2 t Ht). lia.
Qed.

Lemma filter_all {A : Type} (f : A -> bool) (l : list A) :
  (forall x, In x l -> f x = true) -> filter f l = l.
Proof.
  induction l as [|x l IH]; simpl; intros H; [reflexivity|].
  rewrite (H x (or_introl eq_refl)). f_equal. apply IH. intros y Hy. apply H. now right.
Qed.

(** X29: getAllBookings, where [order] is the order in which the
    database returns the matching bookings, newest first, and a customer id
    in the filters carries no surrounding blanks.  The operation reads
    only.  It fails with a cast error when the vehicle id is no ObjectId or
    a bound of the date range is no date.  Otherwise it returns, newest
    first and each with the vehicle it refers to, exactly the stored
    bookings that pass every filter given: the customer, the vehicle, the
    status, and a date range that bounds the start time of the ride (not
    the creation time); a status that is none of the four matches nothing,
    and without filters every booking is returned. *)
Theorem getAllBookings_filters
        (order : list Booking.t -> list Booking.t) (filters : Filters) (st : Store)
        (Htrim : forall c, f_customerId filters = Some c -> trim c = c)
        (Horder : forall q, allBookingsQuery filters = Ok q ->
                    Permutation (order (filter q (bookings st)))
                      (filter q (bookings st))
                    /\ newestFirst (order (filter q (bookings st)))) :
  ((f_vehicleId filters = BadId \/ f_startDate filters = BadTime
    \/ f_endDate filters = BadTime) ->
   getAllBookings order filters st = (Err CastError, st))
  /\ (f_vehicleId filters <> BadId -> f_startDate filters <> BadTime ->
      f_endDate filters <> BadTime ->
      exists result,
        getAllBookings order filters st = (Ok result, st)
        /\ (forall b, In b (map fst result) <-> In b (bookings st) /\ passes filters b)
        /\ newestFirst (map fst result)
        /\ (forall b v, In (b, v) result ->
              v = Db.findVehicle (Booking.vehicleId b) (vehicles st))
        /\ (forall s, f_status filters = Some s -> s <> EmptyString ->
              Booking.statusOfString s = None -> result = [])
        /\ (f_customerId filters = None -> f_vehicleId filters = NoId ->
            f_status filters = None -> f_startDate filters = NoTime ->
            f_endDate filters = NoTime ->
            Permutation (map fst result) (bookings st))).
Proof.
  split.
  - intros Hbad. unfold getAllBookings, bindM, lift, allBookingsQuery, bound.
    destruct (f_vehicleId filters) as [| |oid], (f_startDate filters) as [| |s],
      (f_endDate filters) as [| |e];
      destruct Hbad as [Hbad | [Hbad | Hbad]]; try discriminate Hbad; reflexivity.
  - intros Hv Hs He.
    destruct (allBookingsQuery_valid filters Hv Hs He) as (q & Hq & Hspec).
    destruct (Horder q Hq) as [Hperm Hsorted].
    unfold getAllBookings, bindM, lift, Db.Booking_find, populateAll. rewrite Hq.
    eexists. split; [reflexivity|].
    assert (Hfst : map fst (map (fun b => (b, Db.findVehicle (Booking.vehicleId b)
                                                (vehicles st)))
                              (order (filter q (bookings st))))
                   = order (filter q (bookings st))).
    { rewrite map_map. simpl. apply map_id. }
    rewrite Hfst.
    split; [|split; [exact Hsorted|split; [|split]]].
    + intros b. split.
      * intros Hin. apply (Permutation_in _ Hperm) in Hin. apply filter_In in Hin.
        destruct Hin as [Hin Hb]. split; [exact Hin|]. now apply Hspec.
      * intros [Hin Hb]. apply (Permutation_in _ (Permutation_sym Hperm)).
        apply filter_In. split; [exact Hin|]. now apply Hspec.
    + intros b v Hin. apply in_map_iff in Hin. destruct Hin as (x & Hx & _).
      now injection Hx as -> <-.
    + intros s Hst Hne Hnone.
      assert (Hnil : filter q (bookings st) = []).
      { destruct (filter q (bookings st)) as [|b l] eqn:Hf; [reflexivity|]. exfalso.
        assert (Hb : In b (filter q (bookings st))) by (rewrite Hf; now left).
        apply filter_In in Hb. destruct Hb as [_ Hb]. apply Hspec in Hb.
        destruct Hb as (_ & _ & Hstatus & _).
        rewrite (Hstatus s Hst Hne) in Hnone. discriminate Hnone. }
      rewrite Hnil in Hperm |- *. apply Permutation_sym, Permutation_nil in Hperm.
      now rewrite Hperm.
    + intros Hc Hveh Hst Hsd Hed.
      assert (Hall : filter q (bookings st) = bookings st).
      { apply filter_all. intros b _. apply Hspec. unfold passes.
        rewrite Hc, Hveh, Hst, Hsd, Hed. repeat split; discriminate. }
      rewrite Hall in Hperm |- *. exact Hperm.
Qed.

Lemma getAllBookings_filters_witness :
  exists result,
    getAllBookings (@rev Booking.t)
      {| f_customerId := Some "TEST_CUSTOMER_001"%string; f_vehicleId := NoId;
         f_status := None; f_startDate := TimeAt (30 * Examples.hour);
         f_endDate := NoTime |}
      Examples.bookedTwice
    = (Ok result, Examples.bookedTwice)
    /\ map fst result = [Examples.bookingB].
Proof.
  set (filters := {| f_customerId := Some "TEST_CUSTOMER_001"%string;
                     f_vehicleId := NoId; f_status := None;
                     f_startDate := TimeAt (30 * Examples.hour);
                     f_endDate := NoTime |}).
  assert (Htrim : forall c, f_customerId filters = Some c -> trim c = c).
  { intros c Hc. injection Hc as <-. reflexivity. }
  assert (Horder : forall q, allBookingsQuery filters = Ok q ->
                     Permutation (rev (filter q (bookings Examples.bookedTwice)))
                       (filter q (bookings Examples.bookedTwice))
                     /\ newestFirst (rev (filter q (bookings Examples.bookedTwice)))).
  { intros q Hq. split; [apply Permutation_sym, Permutation_rev|].
    vm_compute in Hq. injection Hq as <-. vm_compute. repeat constructor. }
  assert (H1 : f_vehicleId filters <> BadId) by discriminate.
  assert (H2 : f_startDate filters <> BadTime) by discriminate.
  assert (H3 : f_endDate filters <> BadTime) by discriminate.
  destruct (proj2 (getAllBookings_filters (@rev Booking.t) filters Examples.bookedTwice
                     Htrim Horder) H1 H2 H3)
    as (result & Hrun & _).
  exists result. split; [exact Hrun|].
  vm_compute in Hrun. injection Hrun as <-. reflexivity.
Defined.

End BookingList.
